(** * PictoPost / Runway & Rivets eBay lister: upload, user setup and schema

    A shallow embedding of the parts of the repository that carry
    behaviour: the two versions of [ImageUpload.handleFiles], the
    [UserSetup.handleCreateUser] handler, the Supabase migration (tables,
    foreign keys, defaults, row-level-security policies) together with the
    client queries of the dashboard.  The Flask backend is not part of the
    sources; where an operation of it is needed it is a section variable or
    a definition marked as modelled from the specification. *)

From Stdlib Require Import ZArith NArith String Ascii Decimal DecimalString.
From stdpp Require Import base option list strings gmap sorting.

Local Open Scope N_scope.

(** ** ECMAScript string primitives used by the components *)

Module JS.

(** A JavaScript string is a sequence of UTF-16 code units. *)
Definition jsstring : Type := list N.

(** An ASCII literal of the source as a JavaScript string. *)
Definition js (s : string) : jsstring := N_of_ascii <$> list_ascii_of_string s.

(** The code points of the WhiteSpace and LineTerminator productions:
    the characters that [String.prototype.trim] strips. *)
Definition isWhiteSpace (c : N) : bool :=
  (c =? 0x09) || (c =? 0x0A) || (c =? 0x0B) || (c =? 0x0C) || (c =? 0x0D)
  || (c =? 0x20) || (c =? 0xA0) || (c =? 0x1680)
  || ((0x2000 <=? c) && (c <=? 0x200A))
  || (c =? 0x2028) || (c =? 0x2029) || (c =? 0x202F) || (c =? 0x205F)
  || (c =? 0x3000) || (c =? 0xFEFF).

Fixpoint trimStart (s : jsstring) : jsstring :=
  match s with
  | [] => []
  | c :: rest => if isWhiteSpace c then trimStart rest else s
  end.

Definition trimEnd (s : jsstring) : jsstring := reverse (trimStart (reverse s)).

(** [s.trim()] *)
Definition trim (s : jsstring) : jsstring := trimEnd (trimStart s).

(** [s.startsWith(prefix)] *)
Fixpoint startsWith (s prefix : jsstring) : bool :=
  match prefix, s with
  | [], _ => true
  | _ :: _, [] => false
  | p :: prefix', c :: s' => (c =? p) && startsWith s' prefix'
  end.

(** ToBoolean on a string: only the empty string is falsy. *)
Definition truthy (s : jsstring) : bool :=
  match s with [] => false | _ :: _ => true end.

Fixpoint digits (u : Decimal.uint) : jsstring :=
  match u with
  | Nil => []
  | D0 u => 48 :: digits u | D1 u => 49 :: digits u | D2 u => 50 :: digits u
  | D3 u => 51 :: digits u | D4 u => 52 :: digits u | D5 u => 53 :: digits u
  | D6 u => 54 :: digits u | D7 u => 55 :: digits u | D8 u => 56 :: digits u
  | D9 u => 57 :: digits u
  end.

(** The string a template literal produces for [${n}] when [n] is an
    array length. *)
Definition numberToString (n : nat) : jsstring := digits (Nat.to_uint n).

End JS.
Export JS.

(** ** The migration: tables, constraints, defaults *)

Inductive table_name : Type := users | listings | ai_usage.

#[global] Instance table_name_eq_dec : EqDecision table_name.
Proof. solve_decision. Defined.

Definition all_tables : list table_name := [users; listings; ai_usage].

(** JSONB values of the two shapes the schema stores: an object
    (preferences, usage_stats; member values kept as their JSON text) and
    an array of strings (image_urls). *)
Inductive json : Type :=
| JObject (members : gmap jsstring jsstring)
| JArray (items : list jsstring).

#[global] Instance json_eq_dec : EqDecision json.
Proof. solve_decision. Defined.

(** A value in a row.  DECIMAL(10,4) is kept in units of 1/10000. *)
Inductive sqlval : Type :=
| VNull
| VText (s : jsstring)
| VUuid (u : N)
| VBool (b : bool)
| VInt (z : Z)
| VDecimal (units : Z)
| VTime (t : N)
| VJson (j : json).

#[global] Instance sqlval_eq_dec : EqDecision sqlval.
Proof. solve_decision. Defined.

(** A row, and equally the object literal given to [insert] or [update]:
    column name to value. *)
Abbreviation row := (gmap string sqlval).

(** Reading a column; a column the row does not carry reads as NULL. *)
Definition col (r : row) (c : string) : sqlval := default VNull (r !! c).

Definition is_null (v : sqlval) : bool :=
  match v with VNull => true | _ => false end.

(** [a = b] in a WHERE clause or a key comparison: a row qualifies only
    when the comparison is true, and a comparison with NULL never is. *)
Definition sql_eq_true (a b : sqlval) : bool :=
  match a, b with
  | VNull, _ | _, VNull => false
  | _, _ => bool_decide (a = b)
  end.

Inductive sqltype : Type :=
| TEXT | UUID | JSONB | BOOLEAN | INTEGER | DECIMAL_10_4 | TIMESTAMPTZ.

Inductive default_expr : Type :=
| Literal (v : sqlval)
| NOW
| gen_random_uuid.

Inductive fk_action : Type := NO_ACTION | CASCADE | SET_NULL.

Record foreign_key : Type :=
  { fk_table : table_name; fk_column : string; on_delete : fk_action }.

Record column : Type :=
  { c_name : string;
    c_type : sqltype;
    c_primary_key : bool;
    c_not_null : bool;
    c_default : option default_expr;
    c_references : option foreign_key }.

(** Column clauses, so that the tables below read like the DDL. *)
Definition column_ (name : string) (ty : sqltype) : column :=
  {| c_name := name; c_type := ty; c_primary_key := false; c_not_null := false;
     c_default := None; c_references := None |}.

Definition PRIMARY_KEY (c : column) : column :=
  {| c_name := c_name c; c_type := c_type c; c_primary_key := true;
     c_not_null := c_not_null c; c_default := c_default c;
     c_references := c_references c |}.

Definition NOT_NULL (c : column) : column :=
  {| c_name := c_name c; c_type := c_type c; c_primary_key := c_primary_key c;
     c_not_null := true; c_default := c_default c;
     c_references := c_references c |}.

Definition DEFAULT (d : default_expr) (c : column) : column :=
  {| c_name := c_name c; c_type := c_type c; c_primary_key := c_primary_key c;
     c_not_null := c_not_null c; c_default := Some d;
     c_references := c_references c |}.

Definition REFERENCES (t : table_name) (target : string) (a : fk_action) (c : column)
  : column :=
  {| c_name := c_name c; c_type := c_type c; c_primary_key := c_primary_key c;
     c_not_null := c_not_null c; c_default := c_default c;
     c_references := Some {| fk_table := t; fk_column := target; on_delete := a |} |}.

(** CREATE TABLE public.users *)
Definition users_columns : list column :=
  [ PRIMARY_KEY (column_ "id" TEXT);
    column_ "email" TEXT;
    column_ "name" TEXT;
    column_ "ai_provider" TEXT;
    column_ "ai_api_key_encrypted" TEXT;
    column_ "ebay_app_id" TEXT;
    column_ "ebay_cert_id" TEXT;
    column_ "ebay_dev_id" TEXT;
    column_ "ebay_refresh_token" TEXT;
    DEFAULT (Literal (VJson (JObject ∅))) (column_ "preferences" JSONB);
    DEFAULT (Literal (VJson (JObject ∅))) (column_ "usage_stats" JSONB);
    DEFAULT NOW (column_ "created_at" TIMESTAMPTZ);
    DEFAULT NOW (column_ "updated_at" TIMESTAMPTZ) ].

(** CREATE TABLE public.listings *)
Definition listings_columns : list column :=
  [ DEFAULT gen_random_uuid (PRIMARY_KEY (column_ "id" UUID));
    REFERENCES users "id" CASCADE (column_ "user_id" TEXT);
    NOT_NULL (column_ "title" TEXT);
    column_ "description" TEXT;
    column_ "category" TEXT;
    column_ "condition" TEXT;
    column_ "estimated_price" TEXT;
    column_ "brand" TEXT;
    column_ "item_type" TEXT;
    column_ "material" TEXT;
    column_ "color" TEXT;
    column_ "country_of_manufacture" TEXT;
    DEFAULT (Literal (VJson (JArray []))) (column_ "image_urls" JSONB);
    column_ "user_message" TEXT;
    column_ "ai_provider" TEXT;
    DEFAULT (Literal (VBool true)) (column_ "ai_generated" BOOLEAN);
    DEFAULT (Literal (VText (js "draft"))) (column_ "status" TEXT);
    column_ "ebay_listing_id" TEXT;
    DEFAULT NOW (column_ "created_at" TIMESTAMPTZ);
    DEFAULT NOW (column_ "updated_at" TIMESTAMPTZ) ].

(** CREATE TABLE public.ai_usage *)
Definition ai_usage_columns : list column :=
  [ DEFAULT gen_random_uuid (PRIMARY_KEY (column_ "id" UUID));
    REFERENCES users "id" CASCADE (column_ "user_id" TEXT);
    NOT_NULL (column_ "provider" TEXT);
    column_ "model" TEXT;
    DEFAULT (Literal (VInt 0)) (column_ "tokens_used" INTEGER);
    DEFAULT (Literal (VDecimal 0)) (column_ "cost" DECIMAL_10_4);
    column_ "request_type" TEXT;
    DEFAULT (Literal (VBool true)) (column_ "success" BOOLEAN);
    column_ "error_message" TEXT;
    DEFAULT NOW (column_ "created_at" TIMESTAMPTZ) ].

Definition columns_of (t : table_name) : list column :=
  match t with
  | users => users_columns
  | listings => listings_columns
  | ai_usage => ai_usage_columns
  end.

(** CREATE TRIGGER update_<table>_updated_at BEFORE UPDATE: the users and
    listings tables have one, ai_usage has none. *)
Definition update_trigger (t : table_name) : bool :=
  match t with users | listings => true | ai_usage => false end.

(** ** Row-level security as the migration declares it *)

Inductive sql_command : Type := ALL | SELECT | INSERT | UPDATE | DELETE.

#[global] Instance sql_command_eq_dec : EqDecision sql_command.
Proof. solve_decision. Defined.

(** Policy expressions: the constant of the migration, and the owner test
    [auth.uid()::text = column] that the setup guide proposes instead. *)
Inductive sql_expr : Type :=
| TRUE
| auth_uid_is (column : string).

Record policy : Type :=
  { p_name : string;
    p_table : table_name;
    p_command : sql_command;
    p_using : option sql_expr;
    p_with_check : option sql_expr }.

(** ALTER TABLE ... ENABLE ROW LEVEL SECURITY *)
Definition row_level_security (t : table_name) : bool :=
  match t with users | listings | ai_usage => true end.

(** CREATE POLICY ... FOR ALL USING (true) *)
Definition policies : list policy :=
  [ {| p_name := "Users can manage their own data"; p_table := users;
       p_command := ALL; p_using := Some TRUE; p_with_check := None |};
    {| p_name := "Users can manage their own listings"; p_table := listings;
       p_command := ALL; p_using := Some TRUE; p_with_check := None |};
    {| p_name := "Users can manage their own AI usage"; p_table := ai_usage;
       p_command := ALL; p_using := Some TRUE; p_with_check := None |} ].

(** ** Database state and statement semantics *)

Record Db : Type :=
  { t_users : list row;
    t_listings : list row;
    t_ai_usage : list row;
    clock : N }.

Definition empty_db : Db :=
  {| t_users := []; t_listings := []; t_ai_usage := []; clock := 0 |}.

Definition rows (t : table_name) (db : Db) : list row :=
  match t with
  | users => t_users db
  | listings => t_listings db
  | ai_usage => t_ai_usage db
  end.

Definition with_rows (t : table_name) (l : list row) (db : Db) : Db :=
  match t with
  | users =>
      {| t_users := l; t_listings := t_listings db;
         t_ai_usage := t_ai_usage db; clock := clock db |}
  | listings =>
      {| t_users := t_users db; t_listings := l;
         t_ai_usage := t_ai_usage db; clock := clock db |}
  | ai_usage =>
      {| t_users := t_users db; t_listings := t_listings db;
         t_ai_usage := l; clock := clock db |}
  end.

(** Time moves on with every statement that writes. *)
Definition tick (db : Db) : Db :=
  {| t_users := t_users db; t_listings := t_listings db;
     t_ai_usage := t_ai_usage db; clock := N.succ (clock db) |}.

Inductive sql_error : Type :=
| undefined_column (c : string)
| invalid_value (c : string)
| not_null_violation (c : string)
| unique_violation (c : string)
| foreign_key_violation (c : string)
| policy_violation (t : table_name)
| cascade_depth_exceeded.

Inductive result (A : Type) : Type :=
| Ok (a : A)
| Err (e : sql_error).
Arguments Ok {A} a.
Arguments Err {A} e.

Definition first_some {A B : Type} (f : A -> option B) : list A -> option B :=
  fix go l :=
    match l with
    | [] => None
    | x :: rest => match f x with Some b => Some b | None => go rest end
    end.

Definition column_names (t : table_name) : list string := c_name <$> columns_of t.

(** A key of the object that names no column of the table. *)
Definition unknown_column (t : table_name) (names : list string) : option sql_error :=
  first_some
    (fun c => if bool_decide (c ∈ column_names t) then None else Some (undefined_column c))
    names.

(** The numbers an INTEGER column holds: those of 32 bits. *)
Definition fits_integer (z : Z) : bool :=
  (-2147483648 <=? z)%Z && (z <=? 2147483647)%Z.

(** The numbers a DECIMAL(10,4) column holds: ten digits, four of them
    after the point, so less than 10^10 in units of 1/10000. *)
Definition fits_decimal_10_4 (units : Z) : bool :=
  (Z.abs units <? 10000000000)%Z.

(** Whether a value may be stored in a column of the type; a number out
    of the range of its column may not. *)
Definition has_type (v : sqlval) (ty : sqltype) : bool :=
  match v, ty with
  | VNull, _ => true
  | VText _, TEXT => true
  | VUuid _, UUID => true
  | VBool _, BOOLEAN => true
  | VInt z, INTEGER => fits_integer z
  | VDecimal units, DECIMAL_10_4 => fits_decimal_10_4 units
  | VTime _, TIMESTAMPTZ => true
  | VJson _, JSONB => true
  | _, _ => false
  end.

(** gen_random_uuid() never repeats a value of the column; the model
    takes the successor of the largest one present. *)
Definition fresh_uuid (present : list sqlval) : N :=
  N.succ (foldr (fun v m => match v with VUuid u => N.max u m | _ => m end) 0 present).

Definition eval_default (d : default_expr) (c : string) (now : N) (fresh : string -> N)
  : sqlval :=
  match d with
  | Literal v => v
  | NOW => VTime now
  | gen_random_uuid => VUuid (fresh c)
  end.

(** The value a column of the new row takes: the one given (NULL
    included), else the column default, else NULL. *)
Definition column_value (values : row) (now : N) (fresh : string -> N) (c : column)
  : sqlval :=
  match values !! c_name c with
  | Some v => v
  | None =>
      match c_default c with
      | Some d => eval_default d (c_name c) now fresh
      | None => VNull
      end
  end.

Definition build_row (cols : list column) (values : row) (now : N) (fresh : string -> N)
  : row :=
  list_to_map ((fun c => (c_name c, column_value values now fresh c)) <$> cols).

(** What gen_random_uuid() gives for column [c] of table [t]. *)
Definition fresh_in (t : table_name) (db : Db) (c : string) : N :=
  fresh_uuid ((fun r => col r c) <$> rows t db).

Definition new_row (t : table_name) (values : row) (db : Db) : row :=
  build_row (columns_of t) values (clock db) (fresh_in t db).

(** The checks of a value [v] for column [c]: its type, NOT NULL (which a
    primary key implies), the unique index of a primary key, where
    [others] are the rows the key is compared with, and the foreign
    key. *)
Definition type_violation (c : column) (v : sqlval) : option sql_error :=
  if has_type v (c_type c) then None else Some (invalid_value (c_name c)).

Definition null_violation (c : column) (v : sqlval) : option sql_error :=
  if (c_primary_key c || c_not_null c) && is_null v
  then Some (not_null_violation (c_name c))
  else None.

Definition key_violation (others : list row) (c : column) (v : sqlval)
  : option sql_error :=
  if c_primary_key c && existsb (fun o => sql_eq_true (col o (c_name c)) v) others
  then Some (unique_violation (c_name c))
  else None.

Definition reference_violation (db : Db) (c : column) (v : sqlval) : option sql_error :=
  match c_references c with
  | Some fk =>
      if is_null v
         || existsb (fun p => sql_eq_true (col p (fk_column fk)) v) (rows (fk_table fk) db)
      then None
      else Some (foreign_key_violation (c_name c))
  | None => None
  end.

(** The checks in the order in which PostgreSQL makes them: the types
    when the values are read, NOT NULL before the row is stored, the
    unique index when it is stored, the foreign keys at the end of the
    statement. *)
Definition checks (db : Db) (others : list row)
  : list (column -> sqlval -> option sql_error) :=
  [type_violation; null_violation; key_violation others; reference_violation db].

(** The constraint of column [c] that the value [v] breaks, if any. *)
Definition value_violation (db : Db) (others : list row) (c : column) (v : sqlval)
  : option sql_error :=
  first_some (fun check => check c v) (checks db others).

Definition column_violation (db : Db) (others : list row) (r : row) (c : column)
  : option sql_error :=
  value_violation db others c (col r (c_name c)).

(** The error of a row: that of the first check which one of its columns
    fails, so a value of the wrong type in any column comes before a
    missing value, and that before a key that is taken or a reference
    that finds nothing. *)
Definition row_violation (t : table_name) (db : Db) (others : list row) (r : row)
  : option sql_error :=
  first_some
    (fun check => first_some (fun c => check c (col r (c_name c))) (columns_of t))
    (checks db others).

(** INSERT INTO t (...) VALUES (...) RETURNING * *)
Definition sql_insert (t : table_name) (values : row) (db : Db) : result (Db * row) :=
  match unknown_column t (map_to_list values).*1 with
  | Some e => Err e
  | None =>
      let r := new_row t values db in
      match row_violation t db (rows t db) r with
      | Some e => Err e
      | None => Ok (with_rows t (rows t db ++ [r]) (tick db), r)
      end
  end.

(** The foreign keys that point at table [t]. *)
Definition referencing (t : table_name) : list (table_name * column * foreign_key) :=
  t' ← all_tables;
  c ← columns_of t';
  match c_references c with
  | Some fk => if bool_decide (fk_table fk = t) then [(t', c, fk)] else []
  | None => []
  end.

(** Whether row [r'] points, through column [c], at one of the rows [gone]. *)
Definition points_at (c : column) (fk : foreign_key) (gone : list row) (r' : row) : bool :=
  existsb (fun g => sql_eq_true (col r' (c_name c)) (col g (fk_column fk))) gone.

(** DELETE FROM t WHERE victim, with the referential actions of the
    foreign keys that point at [t].  [fuel] bounds the depth of the
    cascade. *)
Fixpoint delete_rows (fuel : nat) (t : table_name) (victim : row -> bool) (db : Db)
  : result Db :=
  match fuel with
  | O => Err cascade_depth_exceeded
  | S fuel' =>
      let gone := filter (fun r => victim r) (rows t db) in
      let kept := filter (fun r => negb (victim r)) (rows t db) in
      foldl
        (fun acc '(t', c, fk) =>
           match acc with
           | Err e => Err e
           | Ok db' =>
               match on_delete fk with
               | CASCADE => delete_rows fuel' t' (points_at c fk gone) db'
               | NO_ACTION =>
                   if existsb (points_at c fk gone) (rows t' db')
                   then Err (foreign_key_violation (c_name c))
                   else Ok db'
               | SET_NULL =>
                   Ok (with_rows t'
                         ((fun r' => if points_at c fk gone r'
                                     then <[c_name c := VNull]> r' else r')
                            <$> rows t' db') db')
               end
           end)
        (Ok (with_rows t kept db))
        (referencing t)
  end.

Definition sql_delete (t : table_name) (victim : row -> bool) (db : Db) : result Db :=
  delete_rows (length all_tables) t victim db.

(** ** Requests as PostgREST serves them, under row-level security *)

(** Who a request is made for: the [auth.uid()] of its token, if any.
    The components use the anonymous key and never sign in. *)
Record session : Type := { auth_uid : option jsstring }.

Definition anon : session := {| auth_uid := None |}.

Definition on_behalf_of (u : jsstring) : session := {| auth_uid := Some u |}.

Definition eval_expr (s : session) (e : sql_expr) (r : row) : bool :=
  match e with
  | TRUE => true
  | auth_uid_is c =>
      match auth_uid s with
      | Some u => sql_eq_true (VText u) (col r c)
      | None => false
      end
  end.

Definition applies (p : policy) (t : table_name) (cmd : sql_command) : bool :=
  bool_decide (p_table p = t)
  && match p_command p with ALL => true | c => bool_decide (c = cmd) end.

Section Policies.
(** The policies in force. *)
Variable pols : list policy.

(** USING: an existing row takes part in the command when some policy
    for the command admits it; with no such policy nothing is admitted. *)
Definition visible (s : session) (cmd : sql_command) (t : table_name) (r : row) : bool :=
  negb (row_level_security t)
  || existsb
       (fun p => applies p t cmd
                 && match p_using p with Some e => eval_expr s e r | None => false end)
       pols.

(** WITH CHECK on a new row; a policy without one is checked with its
    USING expression. *)
Definition check_passes (s : session) (cmd : sql_command) (t : table_name) (r : row)
  : bool :=
  negb (row_level_security t)
  || existsb
       (fun p => applies p t cmd
                 && match p_with_check p with
                    | Some e => eval_expr s e r
                    | None =>
                        match p_using p with Some e => eval_expr s e r | None => false end
                    end)
       pols.

Definition rls_insert (s : session) (t : table_name) (values : row) (db : Db)
  : result (Db * row) :=
  match unknown_column t (map_to_list values).*1 with
  | Some e => Err e
  | None =>
      if check_passes s INSERT t (new_row t values db)
      then sql_insert t values db
      else Err (policy_violation t)
  end.

(** The row an UPDATE makes of [r]: the given columns overwritten, then
    the BEFORE UPDATE trigger setting [updated_at]. *)
Definition revise (t : table_name) (changes : row) (db : Db) (r : row) : row :=
  let r1 := changes ∪ r in
  if update_trigger t then <["updated_at" := VTime (clock db)]> r1 else r1.

(** The rows an UPDATE with condition [cond] changes: those the policies
    let the session see that satisfy the condition. *)
Definition update_target (s : session) (t : table_name) (cond : row -> bool) (r : row)
  : bool :=
  visible s UPDATE t r && cond r.

(** What the UPDATE makes of a row of the table. *)
Definition revised (s : session) (t : table_name) (changes : row) (cond : row -> bool)
  (db : Db) (r : row) : row :=
  if update_target s t cond r then revise t changes db r else r.

(** A row of the referencing table whose key no longer finds a row. *)
Definition dangling (c : column) (fk : foreign_key) (target : list row) (r' : row) : bool :=
  negb (is_null (col r' (c_name c)))
  && negb (existsb (fun p => sql_eq_true (col p (fk_column fk)) (col r' (c_name c))) target).

(** UPDATE t SET changes WHERE cond RETURNING * *)
Definition rls_update (s : session) (t : table_name) (changes : row)
  (cond : row -> bool) (db : Db) : result (Db * list row) :=
  match unknown_column t (map_to_list changes).*1 with
  | Some e => Err e
  | None =>
      let table' := revised s t changes cond db <$> rows t db in
      let changed :=
        revise t changes db <$> filter (fun r => update_target s t cond r) (rows t db) in
      let db' := with_rows t table' (tick db) in
      if negb (forallb (check_passes s UPDATE t) changed) then Err (policy_violation t)
      else
        match first_some (row_violation t db' []) changed with
        | Some e => Err e
        | None =>
            match
              first_some
                (fun c =>
                   if c_primary_key c
                      && negb (forallb
                                 (fun r =>
                                    length (filter
                                              (fun o => sql_eq_true (col o (c_name c))
                                                                    (col r (c_name c)))
                                              table') =? 1)%nat
                                 changed)
                   then Some (unique_violation (c_name c)) else None)
                (columns_of t)
            with
            | Some e => Err e
            | None =>
                match
                  first_some
                    (fun '(t', c, fk) =>
                       if existsb
                            (fun r' => dangling c fk table' r'
                                       && negb (dangling c fk (rows t db) r'))
                            (rows t' db')
                       then Some (foreign_key_violation (c_name c)) else None)
                    (referencing t)
                with
                | Some e => Err e
                | None => Ok (db', changed)
                end
            end
        end
  end.

(** The [.eq(column, value)] filters of a request, taken together. *)
Definition matches (eqs : list (string * sqlval)) (r : row) : bool :=
  forallb (fun '(c, v) => sql_eq_true (col r c) v) eqs.

Fixpoint text_leb (a b : jsstring) : bool :=
  match a, b with
  | [], _ => true
  | _ :: _, [] => false
  | x :: a', y :: b' => (x <? y) || ((x =? y) && text_leb a' b')
  end.

(** The order of ORDER BY, where NULL sorts as the largest value. *)
Definition sql_leb (a b : sqlval) : bool :=
  match a, b with
  | _, VNull => true
  | VNull, _ => false
  | VText x, VText y => text_leb x y
  | VUuid x, VUuid y => x <=? y
  | VBool x, VBool y => implb x y
  | VInt x, VInt y => (x <=? y)%Z
  | VDecimal x, VDecimal y => (x <=? y)%Z
  | VTime x, VTime y => x <=? y
  | _, _ => true
  end.

(** [.order(column, { ascending })] *)
Definition ordered (order : option (string * bool)) (l : list row) : list row :=
  match order with
  | None => l
  | Some (c, ascending) =>
      merge_sort
        (fun r1 r2 : row =>
           Is_true (if ascending then sql_leb (col r1 c) (col r2 c)
                    else sql_leb (col r2 c) (col r1 c)))
        l
  end.

(** [.select('a,b')]; [None] stands for [*]. *)
Definition project (columns : option (list string)) (r : row) : row :=
  match columns with
  | None => r
  | Some cs => filter (fun kv => kv.1 ∈ cs) r
  end.

(** The query builders the components use. *)
Inductive request : Type :=
| from_select (t : table_name) (columns : option (list string))
    (eqs : list (string * sqlval)) (order : option (string * bool))
| from_insert (t : table_name) (values : row)
| from_update (t : table_name) (values : row) (eqs : list (string * sqlval))
| from_delete (t : table_name) (eqs : list (string * sqlval)).

Definition order_column (order : option (string * bool)) : list string :=
  match order with Some (c, _) => [c] | None => [] end.

(** A request against the database: the state after it and [data] or
    [error].  A request that fails changes nothing. *)
Definition exec_with (s : session) (req : request) (db : Db) : Db * result (list row) :=
  match req with
  | from_select t columns eqs order =>
      match unknown_column t (default [] columns ++ eqs.*1 ++ order_column order) with
      | Some e => (db, Err e)
      | None =>
          (db, Ok (project columns
                     <$> ordered order
                           (filter (fun r => visible s SELECT t r && matches eqs r)
                              (rows t db))))
      end
  | from_insert t values =>
      match rls_insert s t values db with
      | Ok (db', r) => (db', Ok [r])
      | Err e => (db, Err e)
      end
  | from_update t values eqs =>
      match unknown_column t eqs.*1 with
      | Some e => (db, Err e)
      | None =>
          match rls_update s t values (matches eqs) db with
          | Ok (db', changed) => (db', Ok changed)
          | Err e => (db, Err e)
          end
      end
  | from_delete t eqs =>
      match unknown_column t eqs.*1 with
      | Some e => (db, Err e)
      | None =>
          match sql_delete t (fun r => visible s DELETE t r && matches eqs r) db with
          | Ok db' => (db', Ok [])
          | Err e => (db, Err e)
          end
      end
  end.

End Policies.

(** The database of the application: the policies of the migration. *)
Definition exec : session -> request -> Db -> Db * result (list row) :=
  exec_with policies.

(** [.single()]: the row when the result has exactly one. *)
Definition single (res : result (list row)) : option row :=
  match res with
  | Ok [r] => Some r
  | _ => None
  end.

(** The policies of the Supabase setup guide, which tie every row to
    [auth.uid()]; the migration does not install them. *)
Definition guide_policies : list policy :=
  [ {| p_name := "Users can view own data"; p_table := users; p_command := SELECT;
       p_using := Some (auth_uid_is "id"); p_with_check := None |};
    {| p_name := "Users can insert own data"; p_table := users; p_command := INSERT;
       p_using := None; p_with_check := Some (auth_uid_is "id") |};
    {| p_name := "Users can update own data"; p_table := users; p_command := UPDATE;
       p_using := Some (auth_uid_is "id"); p_with_check := None |};
    {| p_name := "Users can delete own data"; p_table := users; p_command := DELETE;
       p_using := Some (auth_uid_is "id"); p_with_check := None |};
    {| p_name := "Users can view own listings"; p_table := listings; p_command := SELECT;
       p_using := Some (auth_uid_is "user_id"); p_with_check := None |};
    {| p_name := "Users can insert own listings"; p_table := listings; p_command := INSERT;
       p_using := None; p_with_check := Some (auth_uid_is "user_id") |};
    {| p_name := "Users can update own listings"; p_table := listings; p_command := UPDATE;
       p_using := Some (auth_uid_is "user_id"); p_with_check := None |};
    {| p_name := "Users can delete own listings"; p_table := listings; p_command := DELETE;
       p_using := Some (auth_uid_is "user_id"); p_with_check := None |};
    {| p_name := "Users can view own ai usage"; p_table := ai_usage; p_command := SELECT;
       p_using := Some (auth_uid_is "user_id"); p_with_check := None |};
    {| p_name := "Users can insert own ai usage"; p_table := ai_usage; p_command := INSERT;
       p_using := None; p_with_check := Some (auth_uid_is "user_id") |} ].

(** ** What the React components do to the outside *)

(** The fields of a DOM [File] that the upload component reads. *)
Record File : Type := { f_name : jsstring; f_type : jsstring; f_size : N }.

(** An element of the [drafts] array returned by the drafts query. *)
Record Draft : Type := { filename : jsstring }.

(** The parsed JSON body of an upload response. *)
Record upload_body : Type :=
  { data_filename : option jsstring; data_error : option jsstring }.

(** What [await fetch(...)] followed by [await response.json()] gives:
    a response with its [ok] flag and parsed body, or a rejected promise
    (network failure, body that is not JSON). *)
Inductive fetch_result : Type :=
| Responded (ok : bool) (data : upload_body)
| Rejected (reason : jsstring).

(** The value given to [console.error] after its label. *)
Inductive thrown : Type :=
| Error (message : jsstring)
| PostgrestError (e : sql_error).

(** The calls a handler makes, in program order. *)
Inductive effect : Type :=
| toast_error (msg : jsstring)
| toast_success (msg : jsstring)
| console_error (label : jsstring) (what : thrown)
| setUploading (b : bool)
| setIsLoading (b : bool)
| setListings (data : list row)
| setUploadedImages_append (name : option jsstring)
| fetch_upload (file : File) (user_id : option jsstring)
| onImageUpload (name : option jsstring)
| onUserCreated (userId : jsstring)
| refetchDrafts
| supabase (req : request).

(** ** ImageUpload: the browser side of the upload step *)

(** [10 * 1024 * 1024] *)
Definition size_limit : N := 10 * 1024 * 1024.

(** The two guards at the head of the loop body, the same text in both
    versions of the component: the message of the error toast, or [None]
    when the file goes on to be uploaded. *)
Definition rejection (file : File) : option jsstring :=
  if negb (startsWith (f_type file) (js "image/"))
  then Some (f_name file ++ js " is not an image file")
  else if size_limit <? f_size file
  then Some (f_name file ++ js " is too large (max 10MB)")
  else None.

(** [data.error || 'Upload failed'] *)
Definition error_or_default (e : option jsstring) : jsstring :=
  match e with
  | Some m => if truthy m then m else js "Upload failed"
  | None => js "Upload failed"
  end.

(** The [catch] block of the loop body. *)
Definition upload_failed (file : File) (reason : jsstring) : list effect :=
  [console_error (js "Error uploading file:") (Error reason);
   toast_error (js "Failed to upload " ++ f_name file)].

(** First version of the component: no draft staging, no capacity check. *)
Module ImageUploadLegacy.
Section Component.
Context {Server : Type}.
(** The endpoint [POST /upload/image] of the backend. *)
Variable uploadImage : File -> Server -> Server * fetch_result.

Definition uploadOne (file : File) (srv : Server) : Server * list effect :=
  match rejection file with
  | Some msg => (srv, [toast_error msg])
  | None =>
      let '(srv', res) := uploadImage file srv in
      (srv', fetch_upload file None ::
        match res with
        | Responded true data =>
            [setUploadedImages_append (data_filename data);
             onImageUpload (data_filename data)]
        | Responded false data => upload_failed file (error_or_default (data_error data))
        | Rejected reason => upload_failed file reason
        end)
  end.

(** [for (const file of fileArray) { ... }] *)
Fixpoint uploadAll (files : list File) (srv : Server) : Server * list effect :=
  match files with
  | [] => (srv, [])
  | file :: rest =>
      let '(srv1, t1) := uploadOne file srv in
      let '(srv2, t2) := uploadAll rest srv1 in
      (srv2, t1 ++ t2)
  end.

Definition handleFiles (files : list File) (srv : Server) : Server * list effect :=
  let '(srv', t) := uploadAll files srv in
  (srv', setUploading true :: t ++ [setUploading false]).

End Component.
End ImageUploadLegacy.

(** Second version: drafts are staged per user, at most ten of them. *)
Module ImageUpload.

Definition capacity_message (held requested : nat) : jsstring :=
  js "You can only have 10 draft images total. You have " ++ numberToString held
  ++ js " drafts and are trying to add " ++ numberToString requested ++ js " more.".

Section Component.
Context {Server : Type}.
(** The endpoint [POST /upload/draft-image] of the backend. *)
Variable uploadDraftImage : File -> jsstring -> Server -> Server * fetch_result.

Definition uploadOne (userId : jsstring) (file : File) (srv : Server)
  : Server * list effect :=
  match rejection file with
  | Some msg => (srv, [toast_error msg])
  | None =>
      let '(srv', res) := uploadDraftImage file userId srv in
      (srv', fetch_upload file (Some userId) ::
        match res with
        | Responded true data =>
            [onImageUpload (data_filename data);
             toast_success (f_name file ++ js " saved as draft")]
        | Responded false data => upload_failed file (error_or_default (data_error data))
        | Rejected reason => upload_failed file reason
        end)
  end.

Fixpoint uploadAll (userId : jsstring) (files : list File) (srv : Server)
  : Server * list effect :=
  match files with
  | [] => (srv, [])
  | file :: rest =>
      let '(srv1, t1) := uploadOne userId file srv in
      let '(srv2, t2) := uploadAll userId rest srv1 in
      (srv2, t1 ++ t2)
  end.

(** [drafts] is the array the component holds from its drafts query. *)
Definition handleFiles (userId : jsstring) (drafts : list Draft) (files : list File)
  (srv : Server) : Server * list effect :=
  if (10 <? length drafts + length files)%nat
  then (srv, [toast_error (capacity_message (length drafts) (length files))])
  else
    let '(srv', t) := uploadAll userId files srv in
    (srv', setUploading true :: t ++ [setUploading false; refetchDrafts]).

End Component.
End ImageUpload.

(** ** UserSetup: create or fetch the user *)

Module UserSetup.

(** [supabase.from('users').select('id').eq('id', id)] *)
Definition existing_user (id : jsstring) : request :=
  from_select users (Some ["id"]) [("id", VText id)] None.

(** The object given to [insert]. *)
Definition new_user (id : jsstring) : row :=
  {[ "id" := VText id; "name" := VText id;
     "preferences" := VJson (JObject ∅); "usage_stats" := VJson (JObject ∅) ]}.

(** [userId] is the content of the input field when the form is
    submitted. *)
Definition handleCreateUser (userId : jsstring) (db : Db) : Db * list effect :=
  if negb (truthy (trim userId))
  then (db, [toast_error (js "Please enter a user ID")])
  else
    let '(db1, existingUser) := exec anon (existing_user (trim userId)) db in
    match single existingUser with
    | Some _ =>
        (db1, [setIsLoading true;
               supabase (existing_user (trim userId));
               toast_success (js "Welcome back, " ++ userId ++ js "!");
               onUserCreated (trim userId);
               setIsLoading false])
    | None =>
        let '(db2, created) := exec anon (from_insert users (new_user (trim userId))) db1 in
        (db2, [setIsLoading true;
               supabase (existing_user (trim userId));
               supabase (from_insert users (new_user (trim userId)))]
              ++ match created with
                 | Err e =>
                     [console_error (js "Error creating user:") (PostgrestError e);
                      toast_error (js "Failed to create user account")]
                 | Ok data =>
                     if bool_decide (0 < length data)%nat
                     then [toast_success (js "Welcome, " ++ userId
                                          ++ js "! Your account has been created.");
                           onUserCreated (trim userId)]
                     else []
                 end
              ++ [setIsLoading false])
    end.

End UserSetup.

(** ** Dashboard: the listings of the user *)

Module Dashboard.

(** [supabase.from('listings').select('*').eq('user_id', userId)
      .order('created_at', { ascending: false })] *)
Definition listings_of (userId : jsstring) : request :=
  from_select listings None [("user_id", VText userId)] (Some ("created_at", false)).

Definition loadListings (userId : jsstring) (db : Db) : list effect :=
  supabase (listings_of userId) ::
  match (exec anon (listings_of userId) db).2 with
  | Err e => [console_error (js "Error loading listings:") (PostgrestError e)]
  | Ok data => [setListings data]
  end
  ++ [setIsLoading false].

End Dashboard.

(** ** The backend, as far as the specification describes it *)

Module Backend.

(** Modelled from the spec: the listing field schema the gateway parses a
    reply into (section 4.2). *)
Record listing_fields : Type :=
  { title : jsstring;
    description : jsstring;
    category : jsstring;
    condition : jsstring;
    estimated_price : jsstring;
    brand : jsstring;
    item_type : jsstring;
    material : jsstring;
    color : jsstring;
    country_of_manufacture : jsstring;
    photo_notes : jsstring }.

(** Modelled from the spec: what the vendor answers, the fields with the
    model name and the figures it reports (tokens; cost in units of
    1/10000), or a failure. *)
Inductive provider_reply : Type :=
| Generated (fields : listing_fields) (model : jsstring) (tokens cost : option Z)
| Refused (error : jsstring).

(** Modelled from the spec: a reply has the listing field schema when the
    fields that every generated listing has populated, the title, the
    description and the category (section 8), are not empty; any other
    reply is malformed data (section 7). *)
Definition populated (fields : listing_fields) : bool :=
  truthy (title fields) && truthy (description fields) && truthy (category fields).

(** Modelled from the spec: what is reported for a reply that does not
    have the schema. *)
Definition malformed_reply : jsstring := js "Malformed provider response".

(** Whether the figures a reply reports can be stored in the columns
    [tokens_used INTEGER] and [cost DECIMAL(10,4)] of ai_usage. *)
Definition figures_fit (reply : provider_reply) : bool :=
  match reply with
  | Generated _ _ tokens cost =>
      default true (fits_integer <$> tokens) && default true (fits_decimal_10_4 <$> cost)
  | Refused _ => true
  end.

(** Modelled from the spec: the two ways a call of the gateway fails. *)
Inductive gateway_error : Type :=
| validation_error (msg : jsstring)
| provider_error (provider msg : jsstring).

(** Modelled from the spec: what a successful call hands back, the fields
    and the provider and model identifiers for the usage log. *)
Record generated : Type :=
  { g_fields : listing_fields; g_provider : jsstring; g_model : jsstring }.

(** Modelled from the spec: the designated fallback provider, which the
    backend summary names as OpenAI. *)
Definition fallback_provider : jsstring := js "openai".

(** Modelled from the spec: the provider and stored key of the user's row,
    when both the row and a provider are there. *)
Definition configured (user : jsstring) (db : Db) : option (jsstring * option jsstring) :=
  match filter (fun r => sql_eq_true (col r "id") (VText user)) (rows users db) with
  | r :: _ =>
      match col r "ai_provider" with
      | VText p =>
          Some (p, match col r "ai_api_key_encrypted" with
                   | VText k => Some k
                   | _ => None
                   end)
      | _ => None
      end
  | [] => None
  end.

(** Modelled from the spec: only the absence of a configuration selects
    the fallback. *)
Definition chosen (user : jsstring) (db : Db) : jsstring * option jsstring :=
  default (fallback_provider, None) (configured user db).

(** An entry of a row object that is there only when its value is. *)
Definition optional (c : string) (v : option sqlval) : list (string * sqlval) :=
  match v with Some x => [(c, x)] | None => [] end.

(** Modelled from the spec: the row given to ai_usage for one call; a
    figure that is not known is left out of it. *)
Definition usage_record (user provider : jsstring) (model : option jsstring)
  (tokens cost : option Z) (success : bool) (error : option jsstring) : row :=
  list_to_map
    ([("user_id", VText user); ("provider", VText provider);
      ("request_type", VText (js "generate_listing")); ("success", VBool success)]
     ++ optional "model" (VText <$> model)
     ++ optional "tokens_used" (VInt <$> tokens)
     ++ optional "cost" (VDecimal <$> cost)
     ++ optional "error_message" (VText <$> error)).

(** Modelled from the spec: writing the usage record; a record the table
    turns down is lost. *)
Definition log_usage (record : row) (db : Db) : Db :=
  match sql_insert ai_usage record db with
  | Ok (db', _) => db'
  | Err _ => db
  end.

Section Gateway.
(** The vendor API behind the gateway: provider, key, images, hint. *)
Variable provider_call :
  jsstring -> option jsstring -> list jsstring -> option jsstring -> provider_reply.
(** The format check of an API key for a provider. *)
Variable key_format_ok : jsstring -> jsstring -> bool.

(** Modelled from the spec: what is checked before any network call, that
    the image list is not empty and that a stored key has the format of
    its provider. *)
Definition validate (provider : jsstring) (key : option jsstring) (images : list jsstring)
  : option jsstring :=
  if bool_decide (images = []) then Some (js "No images provided")
  else
    match key with
    | Some k => if key_format_ok provider k then None else Some (js "Invalid API key format")
    | None => None
    end.

(** Modelled from the spec: the AI provider gateway (section 4.2), which is
    part of the Flask server and not among the sources.  One call goes to
    the provider the user has configured, or to the fallback when nothing
    is configured; the reply is parsed into the listing field schema, and
    a reply that does not have it is an upstream-provider error, logged
    as a failed usage record (section 7); a failure of the configured
    provider is reported and is not retried elsewhere; every call writes
    one usage record. *)
Definition gateway (user : jsstring) (images : list jsstring) (hint : option jsstring)
  (db : Db) : Db * (gateway_error + generated) :=
  let '(provider, key) := chosen user db in
  match validate provider key images with
  | Some msg =>
      (log_usage (usage_record user provider None None None false (Some msg)) db,
       inl (validation_error msg))
  | None =>
      match provider_call provider key images hint with
      | Generated fields model tokens cost =>
          if populated fields
          then
            (log_usage (usage_record user provider (Some model) tokens cost true None) db,
             inr {| g_fields := fields; g_provider := provider; g_model := model |})
          else
            (log_usage
               (usage_record user provider (Some model) tokens cost false
                  (Some malformed_reply)) db,
             inl (provider_error provider malformed_reply))
      | Refused msg =>
          (log_usage (usage_record user provider None None None false (Some msg)) db,
           inl (provider_error provider msg))
      end
  end.

(** Modelled from the spec: the row of a generated listing (step 4 of
    section 4.3). *)
Definition listing_record (user : jsstring) (images : list jsstring)
  (hint : option jsstring) (g : generated) : row :=
  list_to_map
    ([("user_id", VText user);
      ("title", VText (title (g_fields g)));
      ("description", VText (description (g_fields g)));
      ("category", VText (category (g_fields g)));
      ("condition", VText (condition (g_fields g)));
      ("estimated_price", VText (estimated_price (g_fields g)));
      ("brand", VText (brand (g_fields g)));
      ("item_type", VText (item_type (g_fields g)));
      ("material", VText (material (g_fields g)));
      ("color", VText (color (g_fields g)));
      ("country_of_manufacture", VText (country_of_manufacture (g_fields g)));
      ("image_urls", VJson (JArray images));
      ("ai_provider", VText (g_provider g));
      ("ai_generated", VBool true);
      ("status", VText (js "draft"))]
     ++ optional "user_message" (VText <$> hint)).

(** Modelled from the spec: the ways the workflow fails. *)
Inductive generation_error : Type :=
| gateway_failed (e : gateway_error)
| persistence_error (e : sql_error).

(** Modelled from the spec: steps (3) and (4) of the listing workflow
    (section 4.3) of the Flask server, not among the sources: the staged
    images and the optional message go through the gateway and the fields
    that come back are inserted as a new listing, marked as generated and
    as a draft. *)
Definition generate_listing (user : jsstring) (images : list jsstring)
  (hint : option jsstring) (db : Db) : Db * (generation_error + row) :=
  let '(db1, answer) := gateway user images hint db in
  match answer with
  | inl e => (db1, inl (gateway_failed e))
  | inr g =>
      match sql_insert listings (listing_record user images hint g) db1 with
      | Ok (db2, r) => (db2, inr r)
      | Err e => (db1, inl (persistence_error e))
      end
  end.

End Gateway.
End Backend.

(** ** The checks as the specification words them, and sample data *)

(** The validation of the upload step in the words of the specification:
    the content type is an image and the size is under the limit. *)
Definition accepts_as_specified (file : File) : bool :=
  startsWith (f_type file) (js "image/") && (f_size file <? size_limit).

Definition photo : File :=
  {| f_name := js "photo.png"; f_type := js "image/png"; f_size := 204800 |}.

Definition notes : File :=
  {| f_name := js "notes.txt"; f_type := js "text/plain"; f_size := 12 |}.

(** An image of exactly 10 MiB. *)
Definition scan : File :=
  {| f_name := js "scan.png"; f_type := js "image/png"; f_size := 10485760 |}.

Definition drafts_held (n : nat) : list Draft :=
  (fun i => {| filename := numberToString i ++ js "_img.jpg" |}) <$> seq 0 n.

(** Stand-ins for the two upload endpoints: they keep every file they are
    sent and answer with its name. *)
Definition keep_image (file : File) (stored : list jsstring)
  : list jsstring * fetch_result :=
  (stored ++ [f_name file],
   Responded true {| data_filename := Some (f_name file); data_error := None |}).

Definition keep_draft (file : File) (user : jsstring) (stored : list (jsstring * jsstring))
  : list (jsstring * jsstring) * fetch_result :=
  (stored ++ [(user, f_name file)],
   Responded true {| data_filename := Some (f_name file); data_error := None |}).

Definition staging_held (user : jsstring) (n : nat) : list (jsstring * jsstring) :=
  (fun i => (user, numberToString i ++ js "_img.jpg")) <$> seq 0 n.

(** A row without owner, for either table that has a [user_id]. *)
Definition ownerless (t : table_name) : row :=
  match t with
  | ai_usage => {[ "user_id" := VNull; "provider" := VText (js "openai") ]}
  | _ => {[ "user_id" := VNull; "title" := VText (js "Vintage leather jacket") ]}
  end.

(** The state that a sequence of requests of the anonymous client leads
    to from the empty database. *)
Definition db_after (reqs : list request) : Db :=
  foldl (fun db req => (exec anon req db).1) empty_db reqs.

(** User u1 with one listing and one usage record, and a listing and a
    usage record that have no owner. *)
Definition sample_db : Db :=
  db_after
    [ from_insert users (UserSetup.new_user (js "u1"));
      from_insert listings
        {[ "user_id" := VText (js "u1"); "title" := VText (js "Vintage leather jacket") ]};
      from_insert ai_usage
        {[ "user_id" := VText (js "u1"); "provider" := VText (js "openai") ]};
      from_insert listings (ownerless listings);
      from_insert ai_usage (ownerless ai_usage) ].

(** A provider stub for the example of the specification. *)
Definition jacket : Backend.listing_fields :=
  {| Backend.title := js "Vintage 1980s Leather Jacket";
     Backend.description := js "Authentic vintage leather jacket from the 1980s";
     Backend.category := js "Jackets & Coats";
     Backend.condition := js "Used - Excellent";
     Backend.estimated_price := js "$150-250";
     Backend.brand := js "Unknown";
     Backend.item_type := js "Leather Jacket";
     Backend.material := js "Leather";
     Backend.color := js "Black";
     Backend.country_of_manufacture := js "Unknown";
     Backend.photo_notes := js "Add photos showing zipper details" |}.

Definition stub_provider (provider : jsstring) (key : option jsstring)
  (images : list jsstring) (hint : option jsstring) : Backend.provider_reply :=
  Backend.Generated jacket (js "gpt-4o") None None.

(** A provider stub that reports more tokens than an INTEGER column
    holds. *)
Definition overflowing_provider (provider : jsstring) (key : option jsstring)
  (images : list jsstring) (hint : option jsstring) : Backend.provider_reply :=
  Backend.Generated jacket (js "gpt-4o") (Some 2147483648%Z) None.

Definition any_key_format (provider key : jsstring) : bool := true.

(** ** What the constraints guarantee of a state *)

(** A user row with this identifier is there. *)
Definition registered (id : jsstring) (db : Db) : Prop :=
  exists r, r ∈ rows users db /\ col r "id" = VText id.

(** PRIMARY KEY: no two rows of the table have the same [id]. *)
Definition key_unique (t : table_name) (db : Db) : Prop :=
  NoDup ((fun r => col r "id") <$> rows t db).

(** REFERENCES: a key that is not NULL finds its row. *)
Definition references_hold (db : Db) : Prop :=
  forall t c fk r,
    c ∈ columns_of t -> c_references c = Some fk -> r ∈ rows t db ->
    dangling c fk (rows (fk_table fk) db) r = false.

Definition consistent (db : Db) : Prop :=
  (forall t, key_unique t db) /\ references_hold db.

(** Whether a row of listings or ai_usage belongs to one of the users
    [gone]. *)
Definition owned_by_one_of (gone : list row) (r : row) : bool :=
  existsb (fun g => sql_eq_true (col r "user_id") (col g "id")) gone.

(** The requests in a trace, in order. *)
Definition requests (trace : list effect) : list request :=
  omap (fun e => match e with supabase req => Some req | _ => None end) trace.

(** The identifiers handed to [onUserCreated]. *)
Definition users_created (trace : list effect) : list jsstring :=
  omap (fun e => match e with onUserCreated id => Some id | _ => None end) trace.

(** Two inputs that are the same text within different white space. *)
Definition same_but_for_outer_whitespace (a b : jsstring) : Prop :=
  exists l1 r1 l2 r2 core,
    forallb isWhiteSpace (l1 ++ r1 ++ l2 ++ r2) = true
    /\ a = l1 ++ core ++ r1 /\ b = l2 ++ core ++ r2.

(** ** The endpoints of the backend *)

(** [apiEndpoints] of the configuration module.  A template literal
    puts the user id and the file name into the path as they are. *)
Module apiEndpoints.

Definition API_BASE_URL : jsstring := js "http://localhost:8000/api".

Definition getUser (userId : jsstring) : jsstring :=
  API_BASE_URL ++ js "/users/" ++ userId.

Definition deleteUser (userId : jsstring) : jsstring :=
  API_BASE_URL ++ js "/users/" ++ userId.

Definition setUserAIProvider (userId : jsstring) : jsstring :=
  API_BASE_URL ++ js "/users/" ++ userId ++ js "/ai-provider".

Definition getUserAIProvider (userId : jsstring) : jsstring :=
  API_BASE_URL ++ js "/users/" ++ userId ++ js "/ai-provider".

Definition getUserDrafts (userId : jsstring) : jsstring :=
  API_BASE_URL ++ js "/users/" ++ userId ++ js "/drafts".

Definition deleteDraftImage (userId filename : jsstring) : jsstring :=
  API_BASE_URL ++ js "/users/" ++ userId ++ js "/drafts/" ++ filename.

Definition getImage (filename : jsstring) : jsstring :=
  API_BASE_URL ++ js "/images/" ++ filename.

End apiEndpoints.

(** The code unit of the path separator. *)
Definition slash : N := 47.

(** ** The handlers around the upload loop, the page and the dashboard *)

(** What [await fetch(...)] and, where the handler reads the body,
    [await response.json()] give for an endpoint whose body is an [A]: a
    response with its [ok] flag, or a rejected promise. *)
Inductive response (A : Type) : Type :=
| Answered (ok : bool) (data : A)
| Failed (reason : jsstring).
Arguments Answered {A} ok data.
Arguments Failed {A} reason.

(** [value || fallback] on an optional string member of a body. *)
Definition or_default (value : option jsstring) (fallback : jsstring) : jsstring :=
  match value with
  | Some m => if truthy m then m else fallback
  | None => fallback
  end.

(** The error of a [.single()] request: the one of the request, or the
    one PostgREST raises when the result is not exactly one row. *)
Inductive single_error : Type :=
| request_failed (e : sql_error)
| not_a_single_row.

(** The calls of these handlers, in program order: those of the upload
    loop and of the user setup, and the ones only these handlers make. *)
Inductive call : Type :=
| eff (e : effect)
| preventDefault
| stopPropagation
| setDragActive (b : bool)
| fetch_DELETE (url : jsstring)
| fetch_generateListings (user_id : jsstring) (image_filenames : list jsstring)
| fetch_validateAIKey (provider api_key : jsstring)
| fetch_setUserAIProvider (url provider api_key : jsstring)
| setIsValidating (b : bool)
| setIsSaving (b : bool)
| refetch
| onSetupComplete
| setApiKey (value : jsstring)
| setUserData (data : row)
| console_error_single (label : jsstring) (what : single_error)
| onUserChange (userId : option jsstring).

Coercion eff : effect >-> call.

(** The toasts among the calls of a handler. *)
Definition is_toast (e : effect) : bool :=
  match e with toast_error _ | toast_success _ => true | _ => false end.

Definition toasts (trace : list effect) : list effect := filter (fun e => is_toast e) trace.

Definition toasts_of (trace : list call) : list effect :=
  omap (fun c => match c with eff e => if is_toast e then Some e else None | _ => None end)
       trace.

(** The files given to [fetch], with the [user_id] field of the form. *)
Definition uploads (trace : list effect) : list (File * option jsstring) :=
  omap (fun e => match e with fetch_upload f u => Some (f, u) | _ => None end) trace.

(** The names handed to [onImageUpload]. *)
Definition images_reported (trace : list effect) : list (option jsstring) :=
  omap (fun e => match e with onImageUpload n => Some n | _ => None end) trace.

(** The names given to [setUploadedImages] to append. *)
Definition images_appended (trace : list effect) : list (option jsstring) :=
  omap (fun e => match e with setUploadedImages_append n => Some n | _ => None end) trace.

(** The requests to the generation endpoint and the DELETE requests. *)
Definition generations (trace : list call) : list (jsstring * list jsstring) :=
  omap (fun c => match c with fetch_generateListings u fs => Some (u, fs) | _ => None end)
       trace.

Definition deletions (trace : list call) : list jsstring :=
  omap (fun c => match c with fetch_DELETE url => Some url | _ => None end) trace.

(** The value of a boolean state variable after the calls of a handler:
    the argument of the last call of its setter, if there is one. *)
Definition last_set (setter : effect -> option bool) (trace : list effect) : option bool :=
  last (omap setter trace).

Definition uploading_set (e : effect) : option bool :=
  match e with setUploading b => Some b | _ => None end.

Definition isLoading_set (e : effect) : option bool :=
  match e with setIsLoading b => Some b | _ => None end.

(** ** ImageUpload, first version: the list of uploaded images *)

Module UploadedImages.

(** [setUploadedImages(prev => [...prev, data.filename])], for every such
    call of a handler: the state after them. *)
Definition uploadedImages (prev : list (option jsstring)) (trace : list effect)
  : list (option jsstring) :=
  foldl (fun images e =>
           match e with
           | setUploadedImages_append name => images ++ [name]
           | _ => images
           end)
        prev trace.

(** [setUploadedImages(prev => prev.filter(img => img !== filename))] *)
Definition removeImage (filename : jsstring) (prev : list (option jsstring))
  : list (option jsstring) :=
  filter (fun img => img <> Some filename) prev.

End UploadedImages.

(** ** ImageUpload, second version: the drafts and what is done with them *)

Module DraftImages.

(** The body of the response to the drafts query. *)
Record drafts_body : Type := { data_drafts : option (list Draft) }.

(** [queryFn] of the drafts query; a rejected [fetch] rejects the query. *)
Definition queryFn (res : response drafts_body) : option (list Draft) :=
  match res with
  | Answered true data => Some (default [] (data_drafts data))
  | Answered false _ => Some []
  | Failed _ => None
  end.

(** [data] of [useQuery] once a run of the query has settled: what
    [queryFn] returned, and what was held before, nothing on the first
    load, when the run was rejected. *)
Definition settled (held : option (list Draft)) (res : response drafts_body)
  : option (list Draft) :=
  match queryFn res with
  | Some data => Some data
  | None => held
  end.

(** [const { data: drafts = [] } = useQuery(...)] *)
Definition drafts_of (data : option (list Draft)) : list Draft := default [] data.

(** [10 - drafts.length] *)
Definition remainingSlots (drafts : list Draft) : Z := 10 - Z.of_nat (length drafts).

(** The body of the response of the generation endpoint;
    [listings_created] is the text that the template literal makes of the
    member. *)
Record generate_body : Type :=
  { listings_created : jsstring; generate_error : option jsstring }.

Section Component.
Context {Server : Type}.
(** The endpoints [POST /upload/draft-image], [DELETE] on the URL of a
    draft, and [POST /generate-listings] of the backend. *)
Variable uploadDraftImage : File -> jsstring -> Server -> Server * fetch_result.
Variable deleteDraft : jsstring -> Server -> Server * response unit.
Variable generate : jsstring -> list jsstring -> Server -> Server * response generate_body.

(** [files] is [e.dataTransfer.files]. *)
Definition handleDrop (userId : jsstring) (drafts : list Draft) (files : list File)
  (srv : Server) : Server * list call :=
  match files with
  | [] => (srv, [preventDefault; stopPropagation; setDragActive false])
  | _ :: _ =>
      let '(srv', t) := ImageUpload.handleFiles uploadDraftImage userId drafts files srv in
      (srv', preventDefault :: stopPropagation :: setDragActive false :: (eff <$> t))
  end.

(** [files] is [e.target.files], which may be [null]. *)
Definition handleFileInput (userId : jsstring) (drafts : list Draft)
  (files : option (list File)) (srv : Server) : Server * list call :=
  match files with
  | Some files =>
      let '(srv', t) := ImageUpload.handleFiles uploadDraftImage userId drafts files srv in
      (srv', eff <$> t)
  | None => (srv, [])
  end.

Definition removeDraft (userId filename : jsstring) (srv : Server) : Server * list call :=
  let url := apiEndpoints.deleteDraftImage userId filename in
  let '(srv', res) := deleteDraft url srv in
  (srv', fetch_DELETE url ::
     match res with
     | Answered true _ => [eff (toast_success (js "Draft deleted")); eff refetchDrafts]
     | Answered false _ =>
         [eff (console_error (js "Error deleting draft:") (Error (js "Failed to delete draft")));
          eff (toast_error (js "Failed to delete draft"))]
     | Failed reason =>
         [eff (console_error (js "Error deleting draft:") (Error reason));
          eff (toast_error (js "Failed to delete draft"))]
     end).

Definition generateListings (userId : jsstring) (drafts : list Draft) (srv : Server)
  : Server * list call :=
  if (length drafts =? 0)%nat
  then (srv, [eff (toast_error (js "No draft images to process"))])
  else
    let '(srv', res) := generate userId (filename <$> drafts) srv in
    (srv', fetch_generateListings userId (filename <$> drafts) ::
       match res with
       | Answered true data =>
           [eff (toast_success (js "Generated " ++ listings_created data
                                ++ js " AI listings from your drafts!"));
            eff refetchDrafts]
       | Answered false data =>
           [eff (console_error (js "Error generating listings:")
                   (Error (or_default (generate_error data)
                             (js "Failed to generate listings"))));
            eff (toast_error (js "Failed to generate AI listings"))]
       | Failed reason =>
           [eff (console_error (js "Error generating listings:") (Error reason));
            eff (toast_error (js "Failed to generate AI listings"))]
       end).

End Component.
End DraftImages.

(** ** Dashboard: the user's row, the figures shown, logging out *)

Module DashboardView.

(** [supabase.from('users').select('*').eq('id', userId)], of which
    [.single()] is taken. *)
Definition user_data (userId : jsstring) : request :=
  from_select users None [("id", VText userId)] None.

Definition loadUserData (userId : jsstring) (db : Db) : list call :=
  eff (supabase (user_data userId)) ::
  match (exec anon (user_data userId) db).2 with
  | Err e => [console_error_single (js "Error loading user data:") (request_failed e)]
  | Ok [data] => [setUserData data]
  | Ok _ => [console_error_single (js "Error loading user data:") not_a_single_row]
  end.

(** The state variable [userData] after the calls of a handler. *)
Definition userData (prev : option row) (trace : list call) : option row :=
  foldl (fun data c => match c with setUserData r => Some r | _ => data end) prev trace.

(** The state variable [listings] after the calls of a handler. *)
Definition listings_shown (prev : list row) (trace : list effect) : list row :=
  foldl (fun l e => match e with setListings data => data | _ => l end) prev trace.

Definition handleLogout : list call :=
  [onUserChange None; eff (toast_success (js "Logged out successfully"))].

(** A text member of a row as JavaScript sees it: [null] for NULL. *)
Definition text_member (r : row) (c : string) : option jsstring :=
  match col r c with VText s => Some s | _ => None end.

(** [userData?.name || userId] *)
Definition welcome_name (data : option row) (userId : jsstring) : jsstring :=
  or_default (r ← data; text_member r "name") userId.

(** [userData?.ai_provider], when truthy: the badge; [None] is "Not Set". *)
Definition ai_provider_badge (data : option row) : option jsstring :=
  match r ← data; text_member r "ai_provider" with
  | Some p => if truthy p then Some p else None
  | None => None
  end.

(** [listings.length] *)
Definition total_listings (shown : list row) : nat := length shown.

(** [listings.filter(l => l.status === 'active').length] *)
Definition active_listings (shown : list row) : nat :=
  length (filter (fun l => col l "status" = VText (js "active")) shown).

(** The arguments of the calls of [onUserChange]. *)
Definition user_changes (trace : list call) : list (option jsstring) :=
  omap (fun c => match c with onUserChange u => Some u | _ => None end) trace.

End DashboardView.

(** ** Index: who is signed in, and what the page shows *)

Module Index.

Definition storage_key : jsstring := js "pictopost_user".

(** [window.localStorage] *)
Abbreviation Storage := (gmap jsstring jsstring).

Record state : Type := { currentUser : option jsstring; showSetup : bool }.

(** [useState(null)], [useState(false)] *)
Definition initial : state := {| currentUser := None; showSetup := false |}.

Definition setCurrentUser (user : option jsstring) (st : state) : state :=
  {| currentUser := user; showSetup := showSetup st |}.

Definition setShowSetup (b : bool) (st : state) : state :=
  {| currentUser := currentUser st; showSetup := b |}.

(** The effect that runs when the page is mounted. *)
Definition useEffect (localStorage : Storage) (st : state) : state :=
  match localStorage !! storage_key with
  | Some savedUser => if truthy savedUser then setCurrentUser (Some savedUser) st else st
  | None => st
  end.

Definition handleUserCreated (userId : jsstring) (st : state) (localStorage : Storage)
  : state * Storage * list effect :=
  (setCurrentUser (Some userId) st,
   <[storage_key := userId]> localStorage,
   [toast_success (js "Welcome to PictoPost!")]).

Definition handleUserChange (userId : option jsstring) (st : state) (localStorage : Storage)
  : state * Storage :=
  (setCurrentUser userId st,
   match userId with
   | Some u =>
       if truthy u then <[storage_key := u]> localStorage
       else delete storage_key localStorage
   | None => delete storage_key localStorage
   end).

Inductive page : Type :=
| DashboardPage (userId : jsstring)
| UserSetupPage
| LandingPage.

(** What the component returns. *)
Definition render (st : state) : page :=
  match currentUser st with
  | Some u =>
      if truthy u then DashboardPage u
      else if showSetup st then UserSetupPage else LandingPage
  | None => if showSetup st then UserSetupPage else LandingPage
  end.

(** What can happen to the page: the callbacks it hands to [UserSetup]
    and [Dashboard], its two buttons, and a reload of the document, which
    starts from the initial state and runs the mount effect. *)
Inductive event : Type :=
| UserCreated (userId : jsstring)
| UserChange (userId : option jsstring)
| GetStarted
| Cancel
| Reload.

Definition step (ev : event) (now : state * Storage) : state * Storage :=
  let '(st, localStorage) := now in
  match ev with
  | UserCreated userId => (handleUserCreated userId st localStorage).1
  | UserChange userId => handleUserChange userId st localStorage
  | GetStarted => (setShowSetup true st, localStorage)
  | Cancel => (setShowSetup false st, localStorage)
  | Reload => (useEffect localStorage initial, localStorage)
  end.

(** The page as the browser opens it on a given storage. *)
Definition opened (localStorage : Storage) : state * Storage :=
  (useEffect localStorage initial, localStorage).

Definition run (events : list event) (now : state * Storage) : state * Storage :=
  foldl (fun now ev => step ev now) now events.

(** The user whose dashboard is shown, if one is. *)
Definition signed_in (st : state) : option jsstring :=
  match render st with DashboardPage u => Some u | _ => None end.

(** The form of [UserSetup] submitted on the page: every call of
    [onUserCreated] that the handler makes is one of [handleUserCreated]. *)
Definition submit (userId : jsstring) (now : state * Storage) (db : Db)
  : state * Storage * Db :=
  let '(db', trace) := UserSetup.handleCreateUser userId db in
  (run (UserCreated <$> users_created trace) now, db').

(** The logout button of [Dashboard] pressed on the page: every call of
    [onUserChange] that the handler makes is one of [handleUserChange]. *)
Definition logout (now : state * Storage) : state * Storage :=
  run (UserChange <$> DashboardView.user_changes DashboardView.handleLogout) now.

End Index.

(** ** AIProviderSetup: validating and saving a provider key *)

Module AIProviderSetup.

(** The body of the response of the validation endpoint; [is_valid] is
    the truthiness of the member. *)
Record validate_body : Type := { is_valid : bool; message : option jsstring }.

Record save_body : Type := { save_error : option jsstring }.

Section Component.
Context {Server : Type}.
(** The endpoints [POST /ai/validate] and [POST] on the provider URL of a
    user, with the [provider] and [api_key] members of the body. *)
Variable validateAIKey : jsstring -> jsstring -> Server -> Server * response validate_body.
Variable setUserAIProvider :
  jsstring -> jsstring -> jsstring -> Server -> Server * response save_body.
(** [String.prototype.toUpperCase] *)
Variable toUpperCase : jsstring -> jsstring.

(** The value returned is [Some true], [Some false] or, for the bare
    [return], [None] ([undefined]). *)
Definition validateApiKey (selectedProvider apiKey : jsstring) (srv : Server)
  : Server * option bool * list call :=
  if negb (truthy selectedProvider) || negb (truthy (trim apiKey))
  then (srv, None, [eff (toast_error (js "Please select a provider and enter an API key"))])
  else
    let '(srv', res) := validateAIKey selectedProvider (trim apiKey) srv in
    let '(returned, t) :=
      match res with
      | Answered ok data =>
          if ok && is_valid data
          then (true, [eff (toast_success (js "API key format is valid!"))])
          else (false,
                [eff (toast_error (or_default (message data) (js "Invalid API key format")))])
      | Failed reason =>
          (false,
           [eff (console_error (js "Error validating API key:") (Error reason));
            eff (toast_error (js "Failed to validate API key"))])
      end in
    (srv', Some returned,
     setIsValidating true :: fetch_validateAIKey selectedProvider (trim apiKey)
       :: t ++ [setIsValidating false]).

Definition saveProvider (userId selectedProvider apiKey : jsstring) (srv : Server)
  : Server * list call :=
  let '(srv1, isValid, t1) := validateApiKey selectedProvider apiKey srv in
  match isValid with
  | Some true =>
      let url := apiEndpoints.setUserAIProvider userId in
      let '(srv2, res) := setUserAIProvider url selectedProvider (trim apiKey) srv1 in
      (srv2,
       t1 ++ setIsSaving true
          :: fetch_setUserAIProvider url selectedProvider (trim apiKey)
          :: match res with
             | Answered true _ =>
                 [eff (toast_success (toUpperCase selectedProvider
                                      ++ js " AI provider configured successfully!"));
                  refetch; onSetupComplete; setApiKey []]
             | Answered false data =>
                 [eff (console_error (js "Error saving AI provider:")
                         (Error (or_default (save_error data)
                                   (js "Failed to save AI provider"))));
                  eff (toast_error (or_default (save_error data)
                                      (js "Failed to save AI provider")))]
             | Failed reason =>
                 [eff (console_error (js "Error saving AI provider:") (Error reason));
                  eff (toast_error reason)]
             end
          ++ [setIsSaving false])
  | _ => (srv1, t1)
  end.

End Component.

(** The requests to the two endpoints among the calls of a handler. *)
Definition validations (trace : list call) : list (jsstring * jsstring) :=
  omap (fun c => match c with fetch_validateAIKey p k => Some (p, k) | _ => None end) trace.

Definition saves (trace : list call) : list (jsstring * jsstring * jsstring) :=
  omap (fun c => match c with fetch_setUserAIProvider u p k => Some (u, p, k) | _ => None end)
       trace.

(** Whether the answer of the validation endpoint lets the key pass:
    [response.ok && data.is_valid]. *)
Definition lets_pass (res : response validate_body) : bool :=
  match res with
  | Answered ok data => ok && is_valid data
  | Failed _ => false
  end.

(** [response.ok] of the answer of the save endpoint. *)
Definition saved (res : response save_body) : bool :=
  match res with
  | Answered ok _ => ok
  | Failed _ => false
  end.

(** The two busy flags after the calls of a handler, the calls of
    [onSetupComplete], and the values given to [setApiKey]. *)
Definition isValidating (trace : list call) : option bool :=
  last (omap (fun c => match c with setIsValidating b => Some b | _ => None end) trace).

Definition isSaving (trace : list call) : option bool :=
  last (omap (fun c => match c with setIsSaving b => Some b | _ => None end) trace).

Definition completions (trace : list call) : nat :=
  length (omap (fun c => match c with onSetupComplete => Some tt | _ => None end) trace).

Definition keys_set (trace : list call) : list jsstring :=
  omap (fun c => match c with setApiKey v => Some v | _ => None end) trace.

End AIProviderSetup.

(** ** Predicates used to state what the handlers guarantee *)

(** The toasts that the loop of the second version shows for a file. *)
Definition outcome (file : File) (t : effect) : Prop :=
  t = toast_error (f_name file ++ js " is not an image file")
  \/ t = toast_error (f_name file ++ js " is too large (max 10MB)")
  \/ t = toast_error (js "Failed to upload " ++ f_name file)
  \/ t = toast_success (f_name file ++ js " saved as draft").

(** The files of a batch that pass the two guards of the loop. *)
Definition accepted (files : list File) : list File :=
  filter (fun f => rejection f = None) files.

(** The column that says whose a row is. *)
Definition owner_column (t : table_name) : string :=
  match t with users => "id" | listings | ai_usage => "user_id" end.

#[global] Instance sql_error_eq_dec : EqDecision sql_error.
Proof. solve_decision. Defined.

#[global] Instance result_eq_dec {A} `{EqDecision A} : EqDecision (result A).
Proof. solve_decision. Defined.

#[global] Instance Db_eq_dec : EqDecision Db.
Proof. solve_decision. Defined.

(** The state that a sequence of requests of a session leads to. *)
Definition exec_all (s : session) (reqs : list request) (db : Db) : Db :=
  foldl (fun db req => (exec s req db).1) db reqs.

(** The order in which the dashboard asks for the listings:
    [created_at] descending. *)
Definition newer_first (r1 r2 : row) : Prop :=
  sql_leb (col r2 "created_at") (col r1 "created_at") = true.

(** The column types, NOT NULL and PRIMARY KEY as a property of a state:
    every stored value has the type of its column, and a column declared
    NOT NULL or PRIMARY KEY holds no NULL. *)
Definition well_formed_rows (db : Db) : Prop :=
  forall t c r,
    c ∈ columns_of t -> r ∈ rows t db ->
    has_type (col r (c_name c)) (c_type c) = true
    /\ ((c_primary_key c || c_not_null c) = true -> col r (c_name c) <> VNull).

(** * Properties *)

(** ** Strings *)

Example trim_user_id : trim (js "  john_collector ") = js "john_collector".
Proof. reflexivity. Qed.

Example trim_blank : trim (js "   ") = [].
Proof. reflexivity. Qed.

Example startsWith_image : startsWith (js "image/png") (js "image/") = true.
Proof. reflexivity. Qed.

Example startsWith_text : startsWith (js "text/plain") (js "image/") = false.
Proof. reflexivity. Qed.

(** [numberToString] writes a length the way the standard decimal printer
    does. *)
Lemma numberToString_decimal (n : nat) :
  numberToString n = js (NilEmpty.string_of_uint (Nat.to_uint n)).
Proof.
  unfold numberToString. generalize (Nat.to_uint n). intros u.
  induction u; simpl; unfold js in *; simpl; by rewrite ?IHu.
Qed.

Example capacity_message_9_2 :
  ImageUpload.capacity_message 9 2
  = js "You can only have 10 draft images total. You have 9 drafts and are trying to add 2 more.".
Proof. reflexivity. Qed.

Arguments isWhiteSpace : simpl never.

Lemma trimStart_app_whitespace (ws s : jsstring) :
  forallb isWhiteSpace ws = true -> trimStart (ws ++ s) = trimStart s.
Proof.
  induction ws as [|c ws IH]; simpl; [done|].
  intros [Hc Hws]%andb_prop. rewrite Hc. auto.
Qed.

Lemma trimStart_whitespace (ws : jsstring) :
  forallb isWhiteSpace ws = true -> trimStart ws = [].
Proof.
  intros H. rewrite <- (app_nil_r ws). by rewrite trimStart_app_whitespace.
Qed.

Lemma forallb_reverse {A} (p : A -> bool) (l : list A) :
  forallb p (reverse l) = forallb p l.
Proof.
  induction l as [|x l IH]; [done|].
  rewrite reverse_cons, forallb_app, IH. simpl. rewrite andb_true_r. apply andb_comm.
Qed.

Lemma trimEnd_trimStart_app_whitespace (s ws : jsstring) :
  forallb isWhiteSpace ws = true -> trimEnd (trimStart (s ++ ws)) = trimEnd (trimStart s).
Proof.
  intros Hws. induction s as [|c s IH]; simpl.
  - rewrite trimStart_whitespace by done. done.
  - destruct (isWhiteSpace c); [done|].
    unfold trimEnd. rewrite !reverse_cons, reverse_app.
    rewrite <- !app_assoc. rewrite trimStart_app_whitespace; [done|].
    by rewrite forallb_reverse.
Qed.

(** Padding a string with white space on either side does not change
    what [trim] makes of it. *)
Lemma trim_padded (l s r : jsstring) :
  forallb isWhiteSpace l = true -> forallb isWhiteSpace r = true ->
  trim (l ++ s ++ r) = trim s.
Proof.
  intros Hl Hr. unfold trim.
  rewrite trimStart_app_whitespace by done.
  by apply trimEnd_trimStart_app_whitespace.
Qed.

Lemma truthy_false (s : jsstring) : truthy s = false <-> s = [].
Proof. by destruct s. Qed.

(** ** The upload step *)

(** A file is let through exactly when its type starts with [image/] and
    it has at most 10 MiB. *)
Lemma rejection_None (file : File) :
  rejection file = None <->
  startsWith (f_type file) (js "image/") = true /\ f_size file <= 10 * 1024 * 1024.
Proof.
  unfold rejection, size_limit.
  destruct (startsWith (f_type file) (js "image/")); simpl.
  - destruct (N.ltb_spec (10 * 1024 * 1024) (f_size file)).
    + split; [done|]. intros [_ ?]. lia.
    + split; [|done]. intros _. split; [done|lia].
  - split; [done|]. by intros [? _].
Qed.

Lemma rejection_Some (file : File) :
  startsWith (f_type file) (js "image/") = false \/ 10 * 1024 * 1024 < f_size file ->
  rejection file = Some (f_name file ++ js " is not an image file")
  \/ rejection file = Some (f_name file ++ js " is too large (max 10MB)").
Proof.
  unfold rejection, size_limit.
  destruct (startsWith (f_type file) (js "image/")); simpl; [|by left].
  intros [?|Hlt]; [done|]. apply N.ltb_lt in Hlt. rewrite Hlt. by right.
Qed.

Section Upload.
Context {Server : Type}.

Lemma legacy_uploadAll_app (up : File -> Server -> Server * fetch_result)
  (l1 l2 : list File) (srv : Server) :
  ImageUploadLegacy.uploadAll up (l1 ++ l2) srv =
  let '(s1, t1) := ImageUploadLegacy.uploadAll up l1 srv in
  let '(s2, t2) := ImageUploadLegacy.uploadAll up l2 s1 in
  (s2, t1 ++ t2).
Proof.
  revert srv. induction l1 as [|f l1 IH]; intros srv; simpl.
  - by destruct (ImageUploadLegacy.uploadAll up l2 srv).
  - destruct (ImageUploadLegacy.uploadOne up f srv) as [s0 t0].
    rewrite IH.
    destruct (ImageUploadLegacy.uploadAll up l1 s0) as [s1 t1].
    destruct (ImageUploadLegacy.uploadAll up l2 s1) as [s2 t2].
    by rewrite app_assoc.
Qed.

Lemma uploadAll_app (up : File -> jsstring -> Server -> Server * fetch_result)
  (userId : jsstring) (l1 l2 : list File) (srv : Server) :
  ImageUpload.uploadAll up userId (l1 ++ l2) srv =
  let '(s1, t1) := ImageUpload.uploadAll up userId l1 srv in
  let '(s2, t2) := ImageUpload.uploadAll up userId l2 s1 in
  (s2, t1 ++ t2).
Proof.
  revert srv. induction l1 as [|f l1 IH]; intros srv; simpl.
  - by destruct (ImageUpload.uploadAll up userId l2 srv).
  - destruct (ImageUpload.uploadOne up userId f srv) as [s0 t0].
    rewrite IH.
    destruct (ImageUpload.uploadAll up userId l1 s0) as [s1 t1].
    destruct (ImageUpload.uploadAll up userId l2 s1) as [s2 t2].
    by rewrite app_assoc.
Qed.

(** The whole batch is turned away, before anything else happens, when it
    does not fit. *)
Lemma handleFiles_over_capacity (up : File -> jsstring -> Server -> Server * fetch_result)
  (userId : jsstring) (drafts : list Draft) (files : list File) (srv : Server) :
  (10 < length drafts + length files)%nat ->
  ImageUpload.handleFiles up userId drafts files srv
  = (srv, [toast_error (ImageUpload.capacity_message (length drafts) (length files))]).
Proof.
  intros H. unfold ImageUpload.handleFiles.
  by destruct (Nat.ltb_spec 10 (length drafts + length files)); [|lia].
Qed.

End Upload.

(** The files that are put to the backend are those that pass the two
    guards, in the order of the batch. *)
Lemma uploadAll_sends_the_accepted {Server : Type}
  (up : File -> jsstring -> Server -> Server * fetch_result)
  (userId : jsstring) (files : list File) (srv : Server) :
  omap (fun e => match e with fetch_upload f _ => Some f | _ => None end)
       (ImageUpload.uploadAll up userId files srv).2
  = filter (fun f => rejection f = None) files.
Proof.
  revert srv. induction files as [|f files IH]; intros srv; [done|].
  simpl. unfold ImageUpload.uploadOne.
  destruct (rejection f) as [msg|] eqn:Hr.
  - rewrite filter_cons_False by (by rewrite Hr).
    specialize (IH srv). by destruct (ImageUpload.uploadAll up userId files srv).
  - rewrite filter_cons_True by done.
    destruct (up f userId srv) as [s1 res].
    specialize (IH s1). destruct (ImageUpload.uploadAll up userId files s1) as [s2 t2].
    simpl in *. f_equal. rewrite omap_app, IH.
    by destruct res as [[] ?|?].
Qed.

(** C1. When the drafts held and the files selected together exceed ten,
    the whole upload is refused with one error that names both counts:
    nothing is sent to the backend, whose state (the drafts it holds) is
    what it was, and no other effect takes place. *)
Theorem over_capacity_upload_is_refused {Server : Type}
  (up : File -> jsstring -> Server -> Server * fetch_result)
  (userId : jsstring) (drafts : list Draft) (files : list File) (srv : Server) :
  (10 < length drafts + length files)%nat ->
  ImageUpload.handleFiles up userId drafts files srv
  = (srv,
     [toast_error
        (js "You can only have 10 draft images total. You have "
         ++ numberToString (length drafts)
         ++ js " drafts and are trying to add "
         ++ numberToString (length files) ++ js " more.")]).
Proof.
  intros Hover. unfold ImageUpload.handleFiles, ImageUpload.capacity_message.
  destruct (Nat.ltb_spec 10 (length drafts + length files)) as [_|Hfits]; [reflexivity|].
  exfalso. lia.
Qed.

Lemma over_capacity_upload_is_refused_witness :
  (10 < length (drafts_held 10) + length [photo])%nat
  /\ ImageUpload.handleFiles keep_draft (js "u1")
       (drafts_held 10) [photo] (staging_held (js "u1") 10)
     = (staging_held (js "u1") 10,
        [toast_error
           (js "You can only have 10 draft images total. You have 10 drafts and are trying to add 1 more.")]).
Proof.
  split; [vm_compute; lia|].
  apply (over_capacity_upload_is_refused keep_draft (js "u1")
           (drafts_held 10) [photo] (staging_held (js "u1") 10)).
  vm_compute; lia.
Defined.

(** C2, as the code has it.  A file whose type does not start with
    [image/], or whose size is over 10 MiB, is turned away on its own with
    one error toast that names it, and the upload goes on: the files
    before and after it in the batch are processed as they would be
    without it, between the two settings of the uploading flag.  In the
    first version of the component this holds of every batch; in the
    version with drafts it holds of every batch that passes the capacity
    check, and a batch that does not pass it is refused as a whole, the
    files that are no images counted and not named.  A file whose type
    starts with [image/] and whose size is at most 10 MiB is sent to the
    backend. *)
Theorem failing_file_is_rejected_alone (file : File) :
  startsWith (f_type file) (js "image/") = false \/ 10 * 1024 * 1024 < f_size file ->
  (exists msg : jsstring,
    (msg = f_name file ++ js " is not an image file"
     \/ msg = f_name file ++ js " is too large (max 10MB)")
    /\ (forall (Server : Type) (up : File -> Server -> Server * fetch_result)
          (before after : list File) (srv : Server),
          ImageUploadLegacy.handleFiles up (before ++ file :: after) srv
          = let '(s1, t1) := ImageUploadLegacy.uploadAll up before srv in
            let '(s2, t2) := ImageUploadLegacy.uploadAll up after s1 in
            (s2, setUploading true :: t1 ++ toast_error msg :: t2 ++ [setUploading false]))
    /\ (forall (Server : Type) (up : File -> jsstring -> Server -> Server * fetch_result)
          (userId : jsstring) (drafts : list Draft) (before after : list File)
          (srv : Server),
          (length drafts + length (before ++ file :: after) <= 10)%nat ->
          ImageUpload.handleFiles up userId drafts (before ++ file :: after) srv
          = let '(s1, t1) := ImageUpload.uploadAll up userId before srv in
            let '(s2, t2) := ImageUpload.uploadAll up userId after s1 in
            (s2, setUploading true :: t1 ++ toast_error msg :: t2
                 ++ [setUploading false; refetchDrafts]))
    /\ (forall (Server : Type) (up : File -> jsstring -> Server -> Server * fetch_result)
          (userId : jsstring) (drafts : list Draft) (before after : list File)
          (srv : Server),
          (10 < length drafts + length (before ++ file :: after))%nat ->
          ImageUpload.handleFiles up userId drafts (before ++ file :: after) srv
          = (srv,
             [toast_error
                (ImageUpload.capacity_message (length drafts)
                   (length (before ++ file :: after)))])))
  /\ (forall other : File,
        startsWith (f_type other) (js "image/") = true ->
        f_size other <= 10 * 1024 * 1024 ->
        (forall (Server : Type) (up : File -> Server -> Server * fetch_result)
           (srv : Server),
           exists t,
             ImageUploadLegacy.handleFiles up [other] srv
             = ((up other srv).1, setUploading true :: fetch_upload other None :: t))
        /\ (forall (Server : Type)
              (up : File -> jsstring -> Server -> Server * fetch_result)
              (userId : jsstring) (drafts : list Draft) (srv : Server),
              (length drafts < 10)%nat ->
              exists t,
                ImageUpload.handleFiles up userId drafts [other] srv
                = ((up other userId srv).1,
                   setUploading true :: fetch_upload other (Some userId) :: t))).
Proof.
  intros Hbad.
  assert (exists msg, rejection file = Some msg
            /\ (msg = f_name file ++ js " is not an image file"
                \/ msg = f_name file ++ js " is too large (max 10MB)"))
    as (msg & Hr & Hmsg).
  { destruct (rejection_Some file Hbad) as [H|H]; eauto. }
  split.
  - exists msg. split; [done|]. split; [|split].
    + intros Server up before after srv.
      unfold ImageUploadLegacy.handleFiles. rewrite legacy_uploadAll_app.
      destruct (ImageUploadLegacy.uploadAll up before srv) as [s1 t1].
      simpl. unfold ImageUploadLegacy.uploadOne. rewrite Hr.
      destruct (ImageUploadLegacy.uploadAll up after s1) as [s2 t2].
      by rewrite <- app_assoc.
    + intros Server up userId drafts before after srv Hfits.
      unfold ImageUpload.handleFiles.
      destruct (Nat.ltb_spec 10 (length drafts + length (before ++ file :: after)))
        as [Hover|_]; [exfalso; lia|].
      rewrite uploadAll_app.
      destruct (ImageUpload.uploadAll up userId before srv) as [s1 t1].
      simpl. unfold ImageUpload.uploadOne. rewrite Hr.
      destruct (ImageUpload.uploadAll up userId after s1) as [s2 t2].
      by rewrite <- app_assoc.
    + intros Server up userId drafts before after srv Hover.
      by apply handleFiles_over_capacity.
  - intros other Hty Hsize.
    assert (rejection other = None) as Hpass by (by apply rejection_None).
    split.
    + intros Server up srv.
      unfold ImageUploadLegacy.handleFiles, ImageUploadLegacy.uploadAll,
        ImageUploadLegacy.uploadOne.
      rewrite Hpass. destruct (up other srv) as [s res]. by eexists.
    + intros Server up userId drafts srv Hfree.
      unfold ImageUpload.handleFiles.
      destruct (Nat.ltb_spec 10 (length drafts + length [other])) as [Hover|_];
        [simpl in Hover; exfalso; lia|].
      unfold ImageUpload.uploadAll, ImageUpload.uploadOne.
      rewrite Hpass. destruct (up other userId srv) as [s res]. by eexists.
Qed.

Lemma failing_file_is_rejected_alone_witness :
  (startsWith (f_type notes) (js "image/") = false \/ 10 * 1024 * 1024 < f_size notes)
  /\ (exists msg : jsstring,
    (msg = js "notes.txt is not an image file"
     \/ msg = js "notes.txt is too large (max 10MB)")
    /\ (forall (Server : Type) (up : File -> Server -> Server * fetch_result)
          (before after : list File) (srv : Server),
          ImageUploadLegacy.handleFiles up (before ++ notes :: after) srv
          = let '(s1, t1) := ImageUploadLegacy.uploadAll up before srv in
            let '(s2, t2) := ImageUploadLegacy.uploadAll up after s1 in
            (s2, setUploading true :: t1 ++ toast_error msg :: t2 ++ [setUploading false]))
    /\ (forall (Server : Type) (up : File -> jsstring -> Server -> Server * fetch_result)
          (userId : jsstring) (drafts : list Draft) (before after : list File)
          (srv : Server),
          (length drafts + length (before ++ notes :: after) <= 10)%nat ->
          ImageUpload.handleFiles up userId drafts (before ++ notes :: after) srv
          = let '(s1, t1) := ImageUpload.uploadAll up userId before srv in
            let '(s2, t2) := ImageUpload.uploadAll up userId after s1 in
            (s2, setUploading true :: t1 ++ toast_error msg :: t2
                 ++ [setUploading false; refetchDrafts]))
    /\ (forall (Server : Type) (up : File -> jsstring -> Server -> Server * fetch_result)
          (userId : jsstring) (drafts : list Draft) (before after : list File)
          (srv : Server),
          (10 < length drafts + length (before ++ notes :: after))%nat ->
          ImageUpload.handleFiles up userId drafts (before ++ notes :: after) srv
          = (srv,
             [toast_error
                (ImageUpload.capacity_message (length drafts)
                   (length (before ++ notes :: after)))])))
  /\ (forall other : File,
        startsWith (f_type other) (js "image/") = true ->
        f_size other <= 10 * 1024 * 1024 ->
        (forall (Server : Type) (up : File -> Server -> Server * fetch_result)
           (srv : Server),
           exists t,
             ImageUploadLegacy.handleFiles up [other] srv
             = ((up other srv).1, setUploading true :: fetch_upload other None :: t))
        /\ (forall (Server : Type)
              (up : File -> jsstring -> Server -> Server * fetch_result)
              (userId : jsstring) (drafts : list Draft) (srv : Server),
              (length drafts < 10)%nat ->
              exists t,
                ImageUpload.handleFiles up userId drafts [other] srv
                = ((up other userId srv).1,
                   setUploading true :: fetch_upload other (Some userId) :: t))).
Proof.
  split; [left; reflexivity|].
  apply (failing_file_is_rejected_alone notes). left; reflexivity.
Defined.

(** C2 as stated fails twice.  An image of exactly 10 MiB is not under
    the limit, yet neither version rejects it; it is sent to the backend
    and stored.  And with nine drafts held, a batch of one image and one
    text file fails as a whole: the capacity check refuses it before the
    loop, so the text file gets no error of its own and the image is not
    processed. *)
Lemma size_limit_is_inclusive_and_a_batch_can_fail :
  (accepts_as_specified scan = false
   /\ rejection scan = None
   /\ ImageUploadLegacy.handleFiles keep_image [scan] []
      = ([js "scan.png"],
         [setUploading true;
          fetch_upload scan None;
          setUploadedImages_append (Some (js "scan.png"));
          onImageUpload (Some (js "scan.png"));
          setUploading false])
   /\ ImageUpload.handleFiles keep_draft (js "u1") [] [scan] []
      = ([(js "u1", js "scan.png")],
         [setUploading true;
          fetch_upload scan (Some (js "u1"));
          onImageUpload (Some (js "scan.png"));
          toast_success (js "scan.png saved as draft");
          setUploading false;
          refetchDrafts]))
  /\ (rejection photo = None
      /\ rejection notes = Some (js "notes.txt is not an image file")
      /\ ImageUpload.handleFiles keep_draft (js "u1") (drafts_held 9) [photo; notes]
           (staging_held (js "u1") 9)
         = (staging_held (js "u1") 9,
            [toast_error
               (js "You can only have 10 draft images total. You have 9 drafts and are trying to add 2 more.")])).
Proof. repeat split; vm_compute; reflexivity. Qed.

(** C8. The capacity check counts every selected file, also those the
    loop would turn away: with nine drafts held, a batch of one image and
    one text file is refused as a whole, although the one file that would
    be stored fits the remaining slot, and the image alone is taken. *)
Theorem capacity_check_counts_files_that_would_be_rejected :
  exists (drafts : list Draft) (files : list File),
    (exists f, f ∈ files /\ rejection f <> None)
    /\ (length drafts + length (filter (fun f => rejection f = None) files) <= 10)%nat
    /\ forall (Server : Type) (up : File -> jsstring -> Server -> Server * fetch_result)
         (userId : jsstring) (srv : Server),
         ImageUpload.handleFiles up userId drafts files srv
         = (srv,
            [toast_error
               (js "You can only have 10 draft images total. You have 9 drafts and are trying to add 2 more.")])
         /\ head (ImageUpload.handleFiles up userId drafts
                    (filter (fun f => rejection f = None) files) srv).2
            = Some (setUploading true).
Proof.
  exists (drafts_held 9), [photo; notes]. split; [|split].
  - exists notes. split; [set_solver|]. vm_compute. discriminate.
  - vm_compute. lia.
  - intros Server up userId srv. split.
    + by rewrite handleFiles_over_capacity by (vm_compute; lia).
    + change (filter (fun f => rejection f = None) [photo; notes]) with [photo].
      unfold ImageUpload.handleFiles.
      change (10 <? length (drafts_held 9) + length [photo])%nat with false.
      by destruct (ImageUpload.uploadAll up userId [photo] srv).
Qed.

(** ** The database *)

Lemma sql_eq_true_text (v : sqlval) (s : jsstring) :
  sql_eq_true v (VText s) = true <-> v = VText s.
Proof.
  destruct v; simpl; try done; rewrite bool_decide_eq_true; done.
Qed.

Lemma sql_eq_true_null_l (v : sqlval) : sql_eq_true VNull v = false.
Proof. done. Qed.

Lemma sql_eq_true_eq (a b : sqlval) : sql_eq_true a b = true -> a = b.
Proof.
  destruct a, b; simpl; try done; by intros ?%bool_decide_eq_true.
Qed.

Lemma sql_eq_true_refl (a : sqlval) : a <> VNull -> sql_eq_true a a = true.
Proof. destruct a; simpl; try done; intros _; by apply bool_decide_eq_true. Qed.

(** The policies of the migration admit every row, for every command and
    whoever asks. *)
Lemma visible_policies s cmd t r : visible policies s cmd t r = true.
Proof. by destruct t. Qed.

Lemma check_passes_policies s cmd t r : check_passes policies s cmd t r = true.
Proof. by destruct t. Qed.

Lemma first_some_None {A B} (f : A -> option B) (l : list A) :
  first_some f l = None <-> Forall (fun x => f x = None) l.
Proof.
  induction l as [|x l IH]; simpl.
  - split; [constructor|done].
  - destruct (f x) eqn:Hx.
    + split; [done|]. intros H. inversion H; congruence.
    + rewrite IH. split; [by constructor|]. by inversion 1.
Qed.

Lemma first_some_ext {A B} (f g : A -> option B) (l : list A) :
  Forall (fun x => f x = g x) l -> first_some f l = first_some g l.
Proof.
  induction 1 as [|x l Hx _ IH]; simpl; [done|]. rewrite Hx, IH. done.
Qed.

(** The checks of one value, written out. *)
Lemma value_violation_chain db others c v :
  value_violation db others c v
  = if negb (has_type v (c_type c)) then Some (invalid_value (c_name c))
    else if (c_primary_key c || c_not_null c) && is_null v
    then Some (not_null_violation (c_name c))
    else if c_primary_key c && existsb (fun o => sql_eq_true (col o (c_name c)) v) others
    then Some (unique_violation (c_name c))
    else
      match c_references c with
      | Some fk =>
          if is_null v
             || existsb (fun p => sql_eq_true (col p (fk_column fk)) v)
                  (rows (fk_table fk) db)
          then None
          else Some (foreign_key_violation (c_name c))
      | None => None
      end.
Proof.
  unfold value_violation, checks, type_violation, null_violation, key_violation,
    reference_violation. cbn [first_some].
  destruct (has_type v (c_type c)); [|reflexivity]. cbn [negb].
  destruct ((c_primary_key c || c_not_null c) && is_null v); [reflexivity|].
  destruct (c_primary_key c && existsb _ others); [reflexivity|].
  destruct (c_references c) as [fk|]; [|reflexivity].
  by destruct (is_null v || existsb _ (rows (fk_table fk) db)).
Qed.

(** Whether some check fails does not depend on the order of the checks:
    a row passes when each of its columns does. *)
Lemma row_violation_None t db others r :
  row_violation t db others r = None
  <-> Forall (fun c => column_violation db others r c = None) (columns_of t).
Proof.
  unfold row_violation, column_violation, value_violation.
  generalize (checks db others). intros cs.
  rewrite first_some_None.
  setoid_rewrite first_some_None.
  rewrite !Forall_forall. split.
  - intros H c Hc. apply Forall_forall. intros check Hcheck.
    specialize (H check Hcheck). rewrite Forall_forall in H. by apply H.
  - intros H check Hcheck. apply Forall_forall. intros c Hc.
    specialize (H c Hc). rewrite Forall_forall in H. by apply H.
Qed.

Lemma column_names_NoDup t : NoDup (column_names t).
Proof. destruct t; vm_compute; apply NoDup_ListNoDup; repeat constructor; simpl; intuition discriminate. Qed.

Lemma filter_none {A} (P : A -> Prop) `{forall x, Decision (P x)} (l : list A) :
  (forall x, x ∈ l -> ~ P x) -> filter P l = [].
Proof.
  induction l as [|x l IH]; [done|]. intros Hl.
  rewrite filter_cons_False by (apply Hl; set_solver).
  apply IH. intros y Hy. apply Hl. set_solver.
Qed.

Lemma col_build_row cols values now fresh c :
  NoDup (c_name <$> cols) -> c ∈ cols ->
  col (build_row cols values now fresh) (c_name c) = column_value values now fresh c.
Proof.
  intros Hnd Hc. unfold col, build_row.
  erewrite elem_of_list_to_map_1; [done| |].
  - by rewrite <- list_fmap_compose.
  - apply (list_elem_of_fmap_2 (fun c => (c_name c, column_value values now fresh c))), Hc.
Qed.

Lemma col_new_row t values db c :
  c ∈ columns_of t ->
  col (new_row t values db) (c_name c)
  = column_value values (clock db) (fresh_in t db) c.
Proof. intros Hc. apply col_build_row; [apply column_names_NoDup|done]. Qed.

Lemma row_violation_new_row t values db others :
  row_violation t db others (new_row t values db) = None
  <-> Forall
        (fun c => value_violation db others c
                    (column_value values (clock db) (fresh_in t db) c) = None)
        (columns_of t).
Proof.
  rewrite row_violation_None, !Forall_forall.
  split; intros H c Hc; specialize (H c Hc); revert H; unfold column_violation, new_row;
    by rewrite col_build_row by (done || apply column_names_NoDup).
Qed.

Lemma sql_insert_Ok t values db :
  unknown_column t (map_to_list values).*1 = None ->
  Forall
    (fun c => value_violation db (rows t db) c
                (column_value values (clock db) (fresh_in t db) c) = None)
    (columns_of t) ->
  sql_insert t values db
  = Ok (with_rows t (rows t db ++ [new_row t values db]) (tick db), new_row t values db).
Proof.
  intros Hu Hc. unfold sql_insert. rewrite Hu.
  apply row_violation_new_row in Hc. by rewrite Hc.
Qed.

Lemma sql_insert_inv t values db db' r :
  sql_insert t values db = Ok (db', r) ->
  r = new_row t values db
  /\ db' = with_rows t (rows t db ++ [r]) (tick db)
  /\ Forall (fun c => column_violation db (rows t db) r c = None) (columns_of t).
Proof.
  unfold sql_insert. destruct (unknown_column _ _); [done|].
  destruct (row_violation _ _ _ _) eqn:Hv; [done|].
  intros [= <- <-]. repeat split. by apply row_violation_None.
Qed.

Lemma rls_insert_policies s t values db :
  rls_insert policies s t values db = sql_insert t values db.
Proof.
  unfold rls_insert, sql_insert. destruct (unknown_column _ _); [done|].
  by rewrite check_passes_policies.
Qed.

Lemma fresh_uuid_above (present : list sqlval) (u : N) :
  VUuid u ∈ present -> u < fresh_uuid present.
Proof.
  unfold fresh_uuid. induction present as [|v l IH]; [by intros ?%elem_of_nil|].
  intros [<-|H]%elem_of_cons; simpl.
  - lia.
  - specialize (IH H). destruct v; lia.
Qed.

(** The generated key is not among the keys of the table. *)
Lemma fresh_in_not_present t db c :
  existsb (fun o => sql_eq_true (col o c) (VUuid (fresh_in t db c))) (rows t db) = false.
Proof.
  apply not_true_is_false. intros (o & Ho & Heq)%existsb_exists.
  apply sql_eq_true_eq in Heq.
  assert (fresh_in t db c < fresh_in t db c); [|lia].
  apply fresh_uuid_above. rewrite <- Heq.
  apply (list_elem_of_fmap_2 (fun r => col r c)). by apply list_elem_of_In.
Qed.

Lemma rows_with_rows t l db : rows t (with_rows t l db) = l.
Proof. by destruct t. Qed.

Lemma rows_with_rows_ne t t' l db : t <> t' -> rows t' (with_rows t l db) = rows t' db.
Proof. by destruct t, t'. Qed.

Lemma rows_tick t db : rows t (tick db) = rows t db.
Proof. by destruct t. Qed.

(** A select on known columns: nothing changes and the rows that match
    come back. *)
Lemma exec_select s t columns eqs order db :
  unknown_column t (default [] columns ++ eqs.*1 ++ order_column order) = None ->
  exec s (from_select t columns eqs order) db
  = (db, Ok (project columns
               <$> ordered order (filter (fun r => matches eqs r) (rows t db)))).
Proof.
  intros Hu. unfold exec, exec_with. rewrite Hu. do 4 f_equal.
  apply list_filter_iff. intros r. by rewrite visible_policies.
Qed.

Lemma matches_owner c v r : matches [(c, VText v)] r = true <-> col r c = VText v.
Proof. simpl. rewrite andb_true_r. apply sql_eq_true_text. Qed.

Lemma referencing_users :
  referencing users
  = [(listings, REFERENCES users "id" CASCADE (column_ "user_id" TEXT),
      {| fk_table := users; fk_column := "id"; on_delete := CASCADE |});
     (ai_usage, REFERENCES users "id" CASCADE (column_ "user_id" TEXT),
      {| fk_table := users; fk_column := "id"; on_delete := CASCADE |})].
Proof. reflexivity. Qed.

Lemma referencing_listings : referencing listings = [].
Proof. reflexivity. Qed.

Lemma referencing_ai_usage : referencing ai_usage = [].
Proof. reflexivity. Qed.

(** DELETE on users: the rows go, and with them, by ON DELETE CASCADE, the
    listings and usage records that point at them.  It cannot fail. *)
Lemma sql_delete_users victim db :
  sql_delete users victim db
  = Ok {| t_users := filter (fun r => negb (victim r)) (t_users db);
          t_listings :=
            filter (fun r => negb (owned_by_one_of (filter (fun r => victim r) (t_users db)) r))
              (t_listings db);
          t_ai_usage :=
            filter (fun r => negb (owned_by_one_of (filter (fun r => victim r) (t_users db)) r))
              (t_ai_usage db);
          clock := clock db |}.
Proof. reflexivity. Qed.

Lemma sql_delete_listings victim db :
  sql_delete listings victim db
  = Ok (with_rows listings (filter (fun r => negb (victim r)) (rows listings db)) db).
Proof. reflexivity. Qed.

Lemma sql_delete_ai_usage victim db :
  sql_delete ai_usage victim db
  = Ok (with_rows ai_usage (filter (fun r => negb (victim r)) (rows ai_usage db)) db).
Proof. reflexivity. Qed.

Lemma elem_of_ordered order (l : list row) (r : row) : r ∈ ordered order l <-> r ∈ l.
Proof.
  destruct order as [[c ascending]|]; [|done]. simpl.
  by rewrite merge_sort_Permutation.
Qed.

Lemma owned_by_none (gone : list row) (r : row) :
  col r "user_id" = VNull -> owned_by_one_of gone r = false.
Proof.
  intros Hn. unfold owned_by_one_of. rewrite Hn.
  induction gone as [|g gone IH]; [done|]. simpl in *. done.
Qed.

(** What a DELETE request on users leaves in another table. *)
Lemma rows_after_delete_users s eqs db t :
  t <> users ->
  rows t (exec s (from_delete users eqs) db).1
  = rows t db
    \/ rows t (exec s (from_delete users eqs) db).1
       = filter
           (fun r => negb (owned_by_one_of
                             (filter (fun r => matches eqs r) (rows users db)) r))
           (rows t db).
Proof.
  intros Ht. unfold exec, exec_with.
  destruct (unknown_column users eqs.*1); [by left|].
  rewrite sql_delete_users. right.
  assert (filter (fun r => visible policies s DELETE users r && matches eqs r) (t_users db)
          = filter (fun r => matches eqs r) (rows users db)) as ->.
  { apply list_filter_iff. intros r. by rewrite visible_policies. }
  by destruct t.
Qed.

(** C6. The three policies of the migration are [FOR ALL USING (true)] on
    tables with row-level security enabled, one per table.  So what a
    request does and returns is the same whoever it is made for; a request
    made for user [u] reads the rows that belong to any user [v], and a
    delete made for [u] removes the listings and usage records of [v]. *)
Theorem policies_control_nothing :
  Forall (fun p => p_command p = ALL /\ p_using p = Some TRUE /\ p_with_check p = None)
    policies
  /\ p_table <$> policies = [users; listings; ai_usage]
  /\ (forall t, row_level_security t = true)
  /\ (forall (s1 s2 : session) (req : request) (db : Db), exec s1 req db = exec s2 req db)
  /\ (forall (u v : jsstring) (db : Db),
        exec (on_behalf_of u) (from_select users None [("id", VText v)] None) db
        = (db, Ok (filter (fun r => col r "id" = VText v) (rows users db)))
        /\ exec (on_behalf_of u) (from_select listings None [("user_id", VText v)] None) db
           = (db, Ok (filter (fun r => col r "user_id" = VText v) (rows listings db)))
        /\ exec (on_behalf_of u) (from_select ai_usage None [("user_id", VText v)] None) db
           = (db, Ok (filter (fun r => col r "user_id" = VText v) (rows ai_usage db)))
        /\ exec (on_behalf_of u) (from_delete listings [("user_id", VText v)]) db
           = (with_rows listings
                (filter (fun r => col r "user_id" <> VText v) (rows listings db)) db,
              Ok [])
        /\ exec (on_behalf_of u) (from_delete ai_usage [("user_id", VText v)]) db
           = (with_rows ai_usage
                (filter (fun r => col r "user_id" <> VText v) (rows ai_usage db)) db,
              Ok [])).
Proof.
  split; [by repeat constructor|]. split; [done|]. split; [by intros []|]. split.
  - intros s1 s2 req db. unfold exec. destruct req as [t ? ? ?|t ?|t ? ?|t ?]; destruct t; reflexivity.
  - intros u v db.
    assert (forall c (l : list row),
              filter (fun r : row => matches [(c, VText v)] r) l
              = filter (fun r => col r c = VText v) l) as Hsel.
    { intros c l. apply list_filter_iff. intros r. rewrite <- matches_owner.
      by destruct (matches _ r). }
    assert (forall s c (l : list row),
              filter (fun r : row =>
                        negb (visible policies s DELETE listings r && matches [(c, VText v)] r)) l
              = filter (fun r => col r c <> VText v) l) as Hdel.
    { intros s c l. apply list_filter_iff. intros r. rewrite visible_policies.
      rewrite <- matches_owner. simpl. by destruct (sql_eq_true _ _). }
    repeat split.
    + rewrite exec_select by done. change (project None) with (@id row).
      rewrite list_fmap_id. unfold ordered. by rewrite Hsel.
    + rewrite exec_select by done. change (project None) with (@id row).
      rewrite list_fmap_id. unfold ordered. by rewrite Hsel.
    + rewrite exec_select by done. change (project None) with (@id row).
      rewrite list_fmap_id. unfold ordered. by rewrite Hsel.
    + unfold exec, exec_with.
      change (unknown_column listings [("user_id", VText v)].*1) with (@None sql_error).
      rewrite sql_delete_listings. by rewrite Hdel.
    + unfold exec, exec_with.
      change (unknown_column ai_usage [("user_id", VText v)].*1) with (@None sql_error).
      rewrite sql_delete_ai_usage. by rewrite (Hdel (on_behalf_of u)).
Qed.

(** Under the foreign keys, a row that names an owner has its owner among
    the users. *)
Lemma owner_registered db t r u :
  references_hold db -> t <> users -> r ∈ rows t db -> col r "user_id" = VText u ->
  exists p, p ∈ rows users db /\ col p "id" = VText u.
Proof.
  intros Href Ht Hr Hu.
  assert (dangling (REFERENCES users "id" CASCADE (column_ "user_id" TEXT))
            {| fk_table := users; fk_column := "id"; on_delete := CASCADE |}
            (rows users db) r = false) as Hd.
  { apply (Href t); [|done|done]. destruct t; [done|set_solver|set_solver]. }
  unfold dangling in Hd. simpl in Hd. rewrite Hu in Hd. simpl in Hd.
  apply negb_false_iff, existsb_exists in Hd as (p & Hp & Heq).
  exists p. split; [by apply list_elem_of_In|]. by apply sql_eq_true_text.
Qed.

(** The request that deletes user [u], written out. *)
Lemma exec_delete_user s u db :
  exec s (from_delete users [("id", VText u)]) db
  = ({| t_users := filter (fun r => col r "id" <> VText u) (t_users db);
        t_listings :=
          filter (fun r => negb (owned_by_one_of
                                   (filter (fun r => col r "id" = VText u) (t_users db)) r))
            (t_listings db);
        t_ai_usage :=
          filter (fun r => negb (owned_by_one_of
                                   (filter (fun r => col r "id" = VText u) (t_users db)) r))
            (t_ai_usage db);
        clock := clock db |},
     Ok []).
Proof.
  unfold exec, exec_with.
  change (unknown_column users [("id", VText u)].*1) with (@None sql_error).
  rewrite sql_delete_users.
  assert (filter (fun r => visible policies s DELETE users r && matches [("id", VText u)] r)
            (t_users db)
          = filter (fun r => col r "id" = VText u) (t_users db)) as ->.
  { apply list_filter_iff. intros r. rewrite visible_policies, <- matches_owner.
    by destruct (matches _ r). }
  assert (filter (fun r => negb (visible policies s DELETE users r
                                 && matches [("id", VText u)] r)) (t_users db)
          = filter (fun r => col r "id" <> VText u) (t_users db)) as ->; [|done].
  apply list_filter_iff. intros r. rewrite visible_policies, <- matches_owner.
  by destruct (matches _ r).
Qed.

(** C4. With the foreign keys of the migration in force, the request that
    deletes user [u] succeeds and leaves no listing and no usage record
    with [user_id = u]: the dashboard's list of the listings of [u] is
    empty, and so is the result of any select on listings or ai_usage that
    filters on [user_id = u]. *)
Theorem deleting_a_user_cascades (s : session) (u : jsstring) (db : Db) :
  references_hold db ->
  exists db',
    exec s (from_delete users [("id", VText u)]) db = (db', Ok [])
    /\ ~ registered u db'
    /\ (forall t r, t <> users -> r ∈ rows t db' -> col r "user_id" <> VText u)
    /\ Dashboard.loadListings u db'
       = [supabase (Dashboard.listings_of u); setListings []; setIsLoading false]
    /\ (forall s' t columns eqs order data,
          t <> users -> ("user_id", VText u) ∈ eqs ->
          (exec s' (from_select t columns eqs order) db').2 = Ok data -> data = []).
Proof.
  intros Href. eexists. split; [apply exec_delete_user|].
  set (db' := Build_Db _ _ _ _).
  assert (forall t r, t <> users -> r ∈ rows t db' -> col r "user_id" <> VText u) as Hgone.
  { intros t r Ht Hr Hu.
    assert (r ∈ rows t db
            /\ owned_by_one_of (filter (fun r => col r "id" = VText u) (t_users db)) r = false)
      as [Hr0 Hk].
    { destruct t; [done| |]; simpl in Hr; apply list_elem_of_filter in Hr as [Hk Hr];
        (split; [done|]); by apply negb_true_iff, Is_true_true. }
    destruct (owner_registered db t r u Href Ht Hr0 Hu) as (p & Hp & Hid).
    apply not_true_iff_false in Hk. apply Hk.
    apply existsb_exists. exists p. split; [|rewrite Hu, Hid; by apply sql_eq_true_refl].
    apply list_elem_of_In, list_elem_of_filter. by split. }
  assert (forall s' t columns eqs order data,
            t <> users -> ("user_id", VText u) ∈ eqs ->
            (exec s' (from_select t columns eqs order) db').2 = Ok data -> data = [])
    as Hlist.
  { intros s' t columns eqs order data Ht Hin. unfold exec, exec_with.
    destruct (unknown_column t _); [done|]. simpl. intros [= <-].
    assert (filter (fun r => visible policies s' SELECT t r && matches eqs r) (rows t db') = [])
      as ->.
    { apply filter_none. intros r Hr Hm.
      apply Is_true_true, andb_true_iff in Hm as [_ Hm].
      apply (Hgone t r Ht Hr). unfold matches in Hm.
      rewrite forallb_forall in Hm. apply list_elem_of_In, Hm in Hin.
      by apply sql_eq_true_text. }
    by destruct order as [[c a]|]. }
  split; [|split; [done|split; [|done]]].
  - intros (p & Hp & Hid). simpl in Hp.
    by apply list_elem_of_filter in Hp as [Hk Hp].
  - unfold Dashboard.loadListings.
    destruct (exec anon (Dashboard.listings_of u) db') as [db'' [data|e]] eqn:Hq.
    + rewrite (Hlist anon listings None [("user_id", VText u)]
                 (Some ("created_at", false)) data); [done|done|set_solver|].
      unfold Dashboard.listings_of in Hq. by rewrite Hq.
    + unfold Dashboard.listings_of in Hq. rewrite exec_select in Hq by done. done.
Qed.

(** Columns of the new row, evaluated on a row object whose keys are
    known. *)
Ltac eval_column_values :=
  repeat match goal with
         | |- context [column_value ?v ?now ?fr ?c] =>
             let x := eval vm_compute in (column_value v now fr c) in
             change (column_value v now fr c) with x
         end.

(** One goal per column of a table whose columns are known. *)
Ltac each_column :=
  unfold columns_of, users_columns, listings_columns, ai_usage_columns;
  repeat (apply Forall_cons; split); [..|apply Forall_nil].

(** The checks of one column, as far as they compute. *)
Ltac check_value :=
  rewrite ?value_violation_chain;
  cbn [c_name c_type c_primary_key c_not_null c_default c_references
       column_ PRIMARY_KEY NOT_NULL DEFAULT REFERENCES
       has_type negb is_null orb andb fk_table fk_column].

(** C10. In listings and in ai_usage the column [user_id] is neither a key
    nor NOT NULL, and an insert that gives NULL for it is accepted.  A row
    with [user_id] NULL is in the result of no select that filters on the
    [user_id] of a user, and every delete on users leaves it in place. *)
Theorem rows_without_owner (t : table_name) (db : Db) :
  t <> users ->
  (forall c, c ∈ columns_of t -> c_name c = "user_id" ->
             c_not_null c = false /\ c_primary_key c = false)
  /\ (exists db' r,
        exec anon (from_insert t (ownerless t)) db = (db', Ok [r])
        /\ r ∈ rows t db' /\ col r "user_id" = VNull)
  /\ (forall r, r ∈ rows t db -> col r "user_id" = VNull ->
        (forall s u order data,
           (exec s (from_select t None [("user_id", VText u)] order) db).2 = Ok data ->
           r ∉ data)
        /\ (forall s eqs, r ∈ rows t (exec s (from_delete users eqs) db).1)).
Proof.
  intros Ht. split; [|split].
  - intros c Hc Hn. destruct t; [done| |]; simpl in Hc.
    all: repeat (apply elem_of_cons in Hc as [->|Hc]; [by (done || discriminate Hn)|]).
    all: by apply elem_of_nil in Hc.
  - exists (with_rows t (rows t db ++ [new_row t (ownerless t) db]) (tick db)),
      (new_row t (ownerless t) db).
    split; [|split].
    + unfold exec, exec_with. rewrite rls_insert_policies.
      rewrite sql_insert_Ok; [done|by destruct t|].
      pose proof (fresh_in_not_present t db "id") as Hfresh.
      revert Hfresh. generalize (fresh_in t db). intros fr Hfresh.
      destruct t; [done| |]; each_column; eval_column_values; check_value;
        by rewrite ?Hfresh.
    + rewrite rows_with_rows. set_solver.
    + destruct t; [done| |].
      * change (col (new_row listings (ownerless listings) db)
                  (c_name (REFERENCES users "id" CASCADE (column_ "user_id" TEXT))) = VNull).
        by rewrite col_new_row by set_solver.
      * change (col (new_row ai_usage (ownerless ai_usage) db)
                  (c_name (REFERENCES users "id" CASCADE (column_ "user_id" TEXT))) = VNull).
        by rewrite col_new_row by set_solver.
  - intros r Hr Hnull. split.
    + intros s u order data. unfold exec, exec_with.
      destruct (unknown_column t _); [done|]. simpl. intros [= <-].
      change (project None) with (@id row). rewrite list_fmap_id.
      rewrite elem_of_ordered, list_elem_of_filter.
      intros [Hm _]. apply Is_true_true, andb_true_iff in Hm as [_ Hm].
      apply matches_owner in Hm. congruence.
    + intros s eqs.
      destruct (rows_after_delete_users s eqs db t Ht) as [-> | ->]; [done|].
      apply list_elem_of_filter. split; [|done].
      by rewrite owned_by_none.
Qed.

(** ** User setup *)

Lemma filter_unique_key {A B} `{EqDecision B} (f : A -> B) (l : list A) (x : A) :
  NoDup (f <$> l) -> x ∈ l -> filter (fun y => f y = f x) l = [x].
Proof.
  induction l as [|y l IH]; [by intros _ ?%elem_of_nil|].
  rewrite fmap_cons, NoDup_cons. intros [Hy Hnd] [->|Hx]%elem_of_cons.
  - rewrite filter_cons_True by done. f_equal.
    apply filter_none. intros z Hz Heq. apply Hy. rewrite <- Heq.
    by apply list_elem_of_fmap_2.
  - rewrite filter_cons_False; [by apply IH|].
    intros Heq. apply Hy. rewrite Heq. by apply list_elem_of_fmap_2.
Qed.

(** The lookup of the handler finds the row of a registered user, and
    only that. *)
Lemma existing_user_found id db :
  key_unique users db -> registered id db ->
  exists r, col r "id" = VText id
            /\ exec anon (UserSetup.existing_user id) db
               = (db, Ok [project (Some ["id"]) r]).
Proof.
  intros Hk (r & Hr & Hid). exists r. split; [done|].
  unfold UserSetup.existing_user. rewrite exec_select by done. do 2 f_equal.
  assert (filter (fun r0 : row => matches [("id", VText id)] r0) (rows users db) = [r]) as ->;
    [|done].
  rewrite <- (filter_unique_key (fun r => col r "id") (rows users db) r Hk Hr).
  apply list_filter_iff. intros r0. rewrite Hid, <- matches_owner.
  by destruct (matches _ r0).
Qed.

Lemma existing_user_missing id db :
  ~ registered id db ->
  exec anon (UserSetup.existing_user id) db = (db, Ok []).
Proof.
  intros Hn. unfold UserSetup.existing_user. rewrite exec_select by done. do 2 f_equal.
  rewrite filter_none; [done|].
  intros r Hr Hm. apply Hn. exists r. split; [done|].
  by apply matches_owner, Is_true_true.
Qed.

(** The insert of the handler goes through when the identifier is free,
    and the row it stores has empty preferences and usage statistics. *)
Lemma new_user_inserted id db :
  ~ registered id db ->
  exists r,
    exec anon (from_insert users (UserSetup.new_user id)) db
    = (with_rows users (rows users db ++ [r]) (tick db), Ok [r])
    /\ sql_insert users (UserSetup.new_user id) db
       = Ok (with_rows users (rows users db ++ [r]) (tick db), r)
    /\ col r "id" = VText id /\ col r "name" = VText id
    /\ col r "preferences" = VJson (JObject ∅)
    /\ col r "usage_stats" = VJson (JObject ∅).
Proof.
  intros Hn. exists (new_row users (UserSetup.new_user id) db).
  assert (sql_insert users (UserSetup.new_user id) db
          = Ok (with_rows users (rows users db ++ [new_row users (UserSetup.new_user id) db])
                  (tick db),
                new_row users (UserSetup.new_user id) db)) as Hins.
  { apply sql_insert_Ok; [done|].
    assert (existsb (fun o => sql_eq_true (col o "id") (VText id)) (rows users db) = false)
      as Hfree.
    { apply not_true_is_false. intros (o & Ho & Heq)%existsb_exists.
      apply Hn. exists o. split; [by apply list_elem_of_In|]. by apply sql_eq_true_text. }
    generalize (fresh_in users db). intros fr.
    each_column; eval_column_values; check_value; by rewrite ?Hfree. }
  split; [|split; [exact Hins|repeat split; reflexivity]].
  unfold exec, exec_with. by rewrite rls_insert_policies, Hins.
Qed.

Lemma registered_dec id db : registered id db \/ ~ registered id db.
Proof.
  destruct (decide (Exists (fun r => col r "id" = VText id) (rows users db))) as [H|H].
  - left. apply Exists_exists in H as (r & ? & ?). by exists r.
  - right. intros (r & ? & ?). apply H, Exists_exists. by exists r.
Qed.

Lemma handleCreateUser_registered userId db :
  trim userId <> [] -> key_unique users db -> registered (trim userId) db ->
  UserSetup.handleCreateUser userId db
  = (db, [setIsLoading true;
          supabase (UserSetup.existing_user (trim userId));
          toast_success (js "Welcome back, " ++ userId ++ js "!");
          onUserCreated (trim userId);
          setIsLoading false]).
Proof.
  intros Ht Hk Hreg. unfold UserSetup.handleCreateUser.
  destruct (trim userId) as [|c rest] eqn:Htrim; [done|]. simpl negb. cbv iota.
  destruct (existing_user_found _ db Hk Hreg) as (r & _ & ->). done.
Qed.

Lemma handleCreateUser_new userId db :
  trim userId <> [] -> ~ registered (trim userId) db ->
  exists r,
    UserSetup.handleCreateUser userId db
    = (with_rows users (rows users db ++ [r]) (tick db),
       [setIsLoading true;
        supabase (UserSetup.existing_user (trim userId));
        supabase (from_insert users (UserSetup.new_user (trim userId)));
        toast_success (js "Welcome, " ++ userId ++ js "! Your account has been created.");
        onUserCreated (trim userId);
        setIsLoading false])
    /\ sql_insert users (UserSetup.new_user (trim userId)) db
       = Ok (with_rows users (rows users db ++ [r]) (tick db), r)
    /\ col r "id" = VText (trim userId) /\ col r "name" = VText (trim userId)
    /\ col r "preferences" = VJson (JObject ∅)
    /\ col r "usage_stats" = VJson (JObject ∅).
Proof.
  intros Ht Hn. unfold UserSetup.handleCreateUser.
  destruct (trim userId) as [|c rest] eqn:Htrim; [done|]. simpl negb. cbv iota.
  rewrite (existing_user_missing _ db Hn). simpl single. cbv iota.
  destruct (new_user_inserted _ db Hn) as (r & -> & Hr). by exists r.
Qed.

(** ** The constraints are kept *)

Lemma pk_checked db others r c :
  c_primary_key c = true -> column_violation db others r c = None ->
  col r (c_name c) <> VNull
  /\ existsb (fun o => sql_eq_true (col o (c_name c)) (col r (c_name c))) others = false.
Proof.
  unfold column_violation. rewrite value_violation_chain. intros ->.
  destruct (has_type _ _); [|done]. simpl.
  destruct (col r (c_name c)) eqn:Hv; simpl; try done.
  all: destruct (existsb _ others); done.
Qed.

Lemma fk_checked db others r c fk :
  c_references c = Some fk -> column_violation db others r c = None ->
  dangling c fk (rows (fk_table fk) db) r = false.
Proof.
  unfold column_violation, dangling. rewrite value_violation_chain. intros ->.
  destruct (has_type _ _); [|done]. simpl.
  destruct ((c_primary_key c || c_not_null c) && is_null (col r (c_name c))); [done|].
  destruct (c_primary_key c && existsb _ others); [done|].
  destruct (is_null (col r (c_name c))); [done|]. simpl.
  by destruct (existsb _ (rows (fk_table fk) db)).
Qed.

Lemma id_column t :
  exists c, c ∈ columns_of t /\ c_name c = "id" /\ c_primary_key c = true.
Proof. destruct t; eexists; (split; [apply list_elem_of_here|done]). Qed.

Lemma dangling_mono c fk (target target' : list row) r :
  (forall p, p ∈ target -> p ∈ target') ->
  dangling c fk target r = false -> dangling c fk target' r = false.
Proof.
  unfold dangling. intros Hsub.
  destruct (is_null (col r (c_name c))); [done|]. simpl.
  intros (p & Hp & Heq)%negb_false_iff%existsb_exists.
  apply negb_false_iff, existsb_exists. exists p. split; [|done].
  by apply list_elem_of_In, Hsub, list_elem_of_In.
Qed.

Lemma rows_after_insert t values db db' r x :
  sql_insert t values db = Ok (db', r) ->
  rows x db' = if decide (x = t) then rows t db ++ [r] else rows x db.
Proof.
  intros (-> & -> & _)%sql_insert_inv.
  destruct (decide (x = t)) as [->|Hne].
  - by rewrite rows_with_rows.
  - by rewrite rows_with_rows_ne, rows_tick.
Qed.

(** An insert that is accepted keeps the keys unique ... *)
Lemma key_unique_insert t values db db' r x :
  sql_insert t values db = Ok (db', r) -> key_unique x db -> key_unique x db'.
Proof.
  intros Hins Hkey.
  pose proof (sql_insert_inv _ _ _ _ _ Hins) as (_ & _ & Hcols).
  rewrite Forall_forall in Hcols.
  unfold key_unique. rewrite (rows_after_insert _ _ _ _ _ x Hins).
  destruct (decide (x = t)) as [->|_]; [|apply Hkey].
  rewrite fmap_app. apply NoDup_app. split; [apply Hkey|]. split; [|apply NoDup_singleton].
  intros v Hv ->%list_elem_of_singleton.
  destruct (id_column t) as (c & Hc & Hname & Hpk).
  destruct (pk_checked db (rows t db) r c Hpk (Hcols c Hc)) as [Hnn Hfree].
  rewrite Hname in Hnn, Hfree.
  apply not_true_iff_false in Hfree. apply Hfree.
  apply list_elem_of_fmap in Hv as (o & Ho & Hin).
  apply existsb_exists. exists o. split; [by apply list_elem_of_In|].
  rewrite <- Ho. by apply sql_eq_true_refl.
Qed.

(** ... and the references whole. *)
Lemma references_insert t values db db' r :
  sql_insert t values db = Ok (db', r) -> references_hold db -> references_hold db'.
Proof.
  intros Hins Hrefs.
  pose proof (sql_insert_inv _ _ _ _ _ Hins) as (_ & _ & Hcols).
  rewrite Forall_forall in Hcols.
  intros x c fk r0 Hc Hfk Hr0.
  rewrite (rows_after_insert _ _ _ _ _ x Hins) in Hr0.
  apply dangling_mono with (target := rows (fk_table fk) db).
  { intros p Hp. rewrite (rows_after_insert _ _ _ _ _ (fk_table fk) Hins).
    destruct (decide (fk_table fk = t)) as [Heq|_]; [|done].
    rewrite Heq in Hp. apply elem_of_app. by left. }
  destruct (decide (x = t)) as [->|_]; [|by apply (Hrefs x)].
  apply elem_of_app in Hr0 as [Hr0|Hr0]; [by apply (Hrefs t)|].
  apply list_elem_of_singleton in Hr0 as ->.
  apply (fk_checked db (rows t db)); [done|]. by apply Hcols.
Qed.

Lemma consistent_insert t values db db' r :
  sql_insert t values db = Ok (db', r) -> consistent db -> consistent db'.
Proof.
  intros Hins [Hkeys Hrefs]. split.
  - intros x. by apply (key_unique_insert t values db db' r).
  - by apply (references_insert t values db db' r).
Qed.

Lemma sql_eq_true_sym a b : sql_eq_true a b = sql_eq_true b a.
Proof.
  destruct a, b; simpl; try done; apply bool_decide_ext; split; congruence.
Qed.

Lemma references_only_user_id t c fk :
  c ∈ columns_of t -> c_references c = Some fk ->
  t <> users /\ c_name c = "user_id" /\ fk_table fk = users /\ fk_column fk = "id".
Proof.
  intros Hc Hfk. destruct t; simpl in Hc.
  all: repeat (apply elem_of_cons in Hc as [->|Hc];
               [by (discriminate Hfk || (injection Hfk as <-; done))|]).
  all: by apply elem_of_nil in Hc.
Qed.

(** A delete keeps them too: the cascade takes the rows that would be
    left without their user. *)
Lemma consistent_delete s t eqs db :
  consistent db -> consistent (exec s (from_delete t eqs) db).1.
Proof.
  intros [Hkeys Hrefs]. unfold exec, exec_with.
  destruct (unknown_column t eqs.*1); [done|].
  set (victim := fun r : row => visible policies s DELETE t r && matches eqs r).
  assert (forall (P : row -> Prop) (HP : forall r, Decision (P r)) x,
            NoDup ((fun r => col r "id") <$> filter P (rows x db))) as Hnd.
  { intros P HP x. eapply sublist_NoDup; [apply (Hkeys x)|].
    apply fmap_sublist, sublist_filter. }
  destruct t.
  - rewrite sql_delete_users. simpl. split.
    + intros []; unfold key_unique; simpl.
      * apply (Hnd _ _ users).
      * apply (Hnd _ _ listings).
      * apply (Hnd _ _ ai_usage).
    + intros x c fk r Hc Hfk Hr.
      destruct (references_only_user_id x c fk Hc Hfk) as (Hx & Hn & Ht & Hf).
      assert (r ∈ rows x db
              /\ owned_by_one_of (filter (fun r => victim r) (t_users db)) r = false)
        as [Hr0 Hk].
      { destruct x; [done| |]; simpl in Hr; apply list_elem_of_filter in Hr as [Hk Hr];
          (split; [done|]); by apply negb_true_iff, Is_true_true. }
      pose proof (Hrefs x c fk r Hc Hfk Hr0) as Hd.
      unfold dangling in *. rewrite Hn, Ht, Hf in *.
      destruct (is_null (col r "user_id")); [done|]. simpl in *.
      apply negb_false_iff, existsb_exists in Hd as (p & Hp & Heq).
      apply negb_false_iff, existsb_exists. exists p. split; [|done].
      apply list_elem_of_In, list_elem_of_filter. split; [|by apply list_elem_of_In].
      apply Is_true_true, negb_true_iff, not_true_is_false. intros Hv.
      apply not_true_iff_false in Hk. apply Hk.
      apply existsb_exists. exists p. split; [|by rewrite sql_eq_true_sym].
      apply list_elem_of_In, list_elem_of_filter. split; [by apply Is_true_true|].
      by apply list_elem_of_In.
  - rewrite sql_delete_listings. cbv beta iota. cbn [fst]. split.
    + intros []; [apply (Hkeys users)|apply (Hnd _ _ listings)|apply (Hkeys ai_usage)].
    + intros x c fk r Hc Hfk Hr.
      destruct (references_only_user_id x c fk Hc Hfk) as (Hx & Hn & Ht & Hf).
      rewrite rows_with_rows_ne by (by rewrite Ht). apply (Hrefs x c fk r Hc Hfk).
      destruct x; [done| |done]. rewrite rows_with_rows in Hr.
      by apply list_elem_of_filter in Hr as [_ ?].
  - rewrite sql_delete_ai_usage. cbv beta iota. cbn [fst]. split.
    + intros []; [apply (Hkeys users)|apply (Hkeys listings)|apply (Hnd _ _ ai_usage)].
    + intros x c fk r Hc Hfk Hr.
      destruct (references_only_user_id x c fk Hc Hfk) as (Hx & Hn & Ht & Hf).
      rewrite rows_with_rows_ne by (by rewrite Ht). apply (Hrefs x c fk r Hc Hfk).
      destruct x; [done|done|]. rewrite rows_with_rows in Hr.
      by apply list_elem_of_filter in Hr as [_ ?].
Qed.

Lemma consistent_empty : consistent empty_db.
Proof.
  split.
  - intros []; apply NoDup_nil_2.
  - intros [] c fk r _ _ Hr; by apply elem_of_nil in Hr.
Qed.


Lemma filter_one_position {A} (P : A -> Prop) `{forall x, Decision (P x)}
  (l : list A) (i : nat) (a : A) :
  l !! i = Some a -> P a -> (1 <= length (filter P l))%nat.
Proof.
  revert i. induction l as [|x l IH]; intros i Hi Ha; [done|].
  destruct i as [|i]; simpl in Hi.
  - injection Hi as ->. rewrite filter_cons_True by done. simpl. lia.
  - specialize (IH i Hi Ha). rewrite filter_cons. destruct (decide (P x)); simpl; lia.
Qed.

Lemma filter_two_positions {A} (P : A -> Prop) `{forall x, Decision (P x)}
  (l : list A) (i j : nat) (a b : A) :
  l !! i = Some a -> l !! j = Some b -> i <> j -> P a -> P b ->
  (2 <= length (filter P l))%nat.
Proof.
  revert i j. induction l as [|x l IH]; intros i j Hi Hj Hij Ha Hb; [done|].
  destruct i as [|i], j as [|j]; simpl in Hi, Hj; [done| | |].
  - injection Hi as ->. rewrite filter_cons_True by done. simpl.
    pose proof (filter_one_position P l j b Hj Hb). lia.
  - injection Hj as ->. rewrite filter_cons_True by done. simpl.
    pose proof (filter_one_position P l i a Hi Ha). lia.
  - assert (i <> j) as Hij' by congruence.
    specialize (IH i j Hi Hj Hij' Ha Hb).
    rewrite filter_cons. destruct (decide (P x)); simpl; lia.
Qed.

Lemma references_only_user_id_exact t c fk :
  c ∈ columns_of t -> c_references c = Some fk ->
  t <> users
  /\ c = REFERENCES users "id" CASCADE (column_ "user_id" TEXT)
  /\ fk = {| fk_table := users; fk_column := "id"; on_delete := CASCADE |}.
Proof.
  intros Hc Hfk. destruct t; simpl in Hc.
  all: repeat (apply elem_of_cons in Hc as [->|Hc];
               [by (discriminate Hfk || (injection Hfk as <-; done))|]).
  all: by apply elem_of_nil in Hc.
Qed.

(** What an UPDATE that is accepted has been checked for. *)
Lemma rls_update_inv s t changes cond db db' changed :
  rls_update policies s t changes cond db = Ok (db', changed) ->
  db' = with_rows t (revised policies s t changes cond db <$> rows t db) (tick db)
  /\ changed
     = revise t changes db
         <$> filter (fun r => update_target policies s t cond r) (rows t db)
  /\ Forall (fun n => Forall (fun c => column_violation db' [] n c = None) (columns_of t))
       changed
  /\ Forall
       (fun n =>
          length (filter (fun o => sql_eq_true (col o "id") (col n "id"))
                    (revised policies s t changes cond db <$> rows t db)) = 1%nat)
       changed
  /\ Forall
       (fun '(t', c, fk) =>
          forall r', r' ∈ rows t' db' ->
                     dangling c fk (revised policies s t changes cond db <$> rows t db) r'
                     = true ->
                     dangling c fk (rows t db) r' = true)
       (referencing t).
Proof.
  unfold rls_update. destruct (unknown_column _ _); [done|].
  destruct (negb (forallb _ _)); [done|].
  destruct (first_some (row_violation _ _ _) _) eqn:Hrows; [done|].
  destruct (first_some _ (columns_of t)) eqn:Hkeys; [done|].
  destruct (first_some _ (referencing t)) eqn:Hrefs; [done|].
  intros [= <- <-]. split; [done|]. split; [done|]. split; [|split].
  - apply first_some_None in Hrows. eapply Forall_impl; [exact Hrows|].
    intros n Hn. by apply row_violation_None.
  - apply first_some_None in Hkeys. rewrite Forall_forall in Hkeys.
    destruct (id_column t) as (c & Hc & Hname & Hpk).
    specialize (Hkeys c Hc). rewrite Hpk, Hname in Hkeys. simpl in Hkeys.
    destruct (forallb _ _) eqn:Hall; [|done].
    rewrite forallb_forall in Hall. apply Forall_forall. intros n Hn.
    apply list_elem_of_In, Hall in Hn. by apply Nat.eqb_eq in Hn.
  - apply first_some_None in Hrefs. eapply Forall_impl; [exact Hrefs|].
    intros [[t' c] fk] Hno r' Hr' Hd. simpl in Hno.
    destruct (existsb _ _) eqn:Hex; [done|].
    apply not_true_iff_false in Hex.
    destruct (dangling c fk (rows t db) r') eqn:Hold; [done|].
    exfalso. apply Hex, existsb_exists. exists r'.
    split; [by apply list_elem_of_In|]. by rewrite Hd, Hold.
Qed.

(** An update that is accepted keeps the constraints as well. *)
Lemma consistent_update s t changes eqs db :
  consistent db -> consistent (exec s (from_update t changes eqs) db).1.
Proof.
  intros [Hkeys Hrefs]. unfold exec, exec_with.
  destruct (unknown_column t eqs.*1); [done|].
  destruct (rls_update policies s t changes (matches eqs) db) as [[db' changed]|e] eqn:Hup;
    [|done].
  apply rls_update_inv in Hup.
  destruct Hup as (-> & -> & Hrows & Hcount & Hin). cbn [fst].
  set (target := update_target policies s t (matches eqs)) in *.
  set (tr := revised policies s t changes (matches eqs) db) in *.
  rewrite Forall_forall in Hrows, Hcount.
  assert (forall r, r ∈ rows t db -> target r = true ->
            tr r = revise t changes db r
            /\ revise t changes db r
                 ∈ revise t changes db <$> filter (fun r => target r) (rows t db)) as Hch.
  { intros r Hr Ht. split.
    - unfold tr, revised. fold target. by rewrite Ht.
    - apply list_elem_of_fmap_2, list_elem_of_filter.
      split; [by apply Is_true_true|done]. }
  assert (forall r, target r = false -> tr r = r) as Hsame.
  { intros r Ht. unfold tr, revised. fold target. by rewrite Ht. }
  split.
  - intros x. unfold key_unique.
    destruct (decide (x = t)) as [->|Hne];
      [|rewrite rows_with_rows_ne, rows_tick by done; apply Hkeys].
    rewrite rows_with_rows. apply NoDup_alt. intros i j v Hi Hj.
    apply list_lookup_fmap_Some in Hi as (ni & Hi & Hni).
    apply list_lookup_fmap_Some in Hj as (nj & Hj & Hnj).
    pose proof Hni as Hni'. pose proof Hnj as Hnj'.
    apply list_lookup_fmap_Some in Hni' as (ri & -> & Hri).
    apply list_lookup_fmap_Some in Hnj' as (rj & -> & Hrj).
    symmetry in Hi, Hj.
    destruct (decide (i = j)) as [|Hij]; [done|]. exfalso.
    assert (forall k rk o no,
              rows t db !! k = Some rk -> (tr <$> rows t db) !! k = Some (tr rk) ->
              col (tr rk) "id" = v -> target rk = true ->
              (tr <$> rows t db) !! o = Some no -> col no "id" = v ->
              k <> o -> False) as Hclash.
    { intros k rk o no Hrk Hk Hv Ht Ho Hov Hko.
      destruct (Hch rk (list_elem_of_lookup_2 _ _ _ Hrk) Ht) as [Htr Hmem].
      rewrite <- Htr in Hmem.
      pose proof (Hcount _ Hmem) as Hone.
      destruct (id_column t) as (c & Hc & Hname & Hpk).
      destruct (pk_checked _ [] _ c Hpk (proj1 (Forall_forall _ _) (Hrows _ Hmem) c Hc))
        as [Hnn _].
      rewrite Hname in Hnn.
      pose proof (filter_two_positions
                    (fun o => sql_eq_true (col o "id") (col (tr rk) "id"))
                    (tr <$> rows t db) k o (tr rk) no Hk Ho Hko) as Htwo.
      cbv beta in Htwo. rewrite Hone in Htwo.
      assert (2 <= 1)%nat; [|lia]. apply Htwo.
      - apply Is_true_true, sql_eq_true_refl, Hnn.
      - apply Is_true_true. rewrite Hov, <- Hv. apply sql_eq_true_refl, Hnn. }
    destruct (target ri) eqn:Hti.
    { by apply (Hclash i ri j (tr rj)). }
    destruct (target rj) eqn:Htj.
    { by apply (Hclash j rj i (tr ri)). }
    rewrite (Hsame ri Hti) in Hi. rewrite (Hsame rj Htj) in Hj.
    pose proof (Hkeys t) as Hnd. unfold key_unique in Hnd.
    apply Hij. apply (proj1 (NoDup_alt _) Hnd i j v); apply list_lookup_fmap_Some.
    + by exists ri.
    + by exists rj.
  - intros x c fk r Hc Hfk Hr.
    destruct (references_only_user_id_exact x c fk Hc Hfk) as (Hx & -> & ->).
    cbn [fk_table].
    destruct (decide (t = users)) as [->|Htu].
    + rewrite rows_with_rows.
      rewrite rows_with_rows_ne, rows_tick in Hr by done.
      pose proof (Hrefs x _ _ r Hc Hfk Hr) as Hold. cbn [fk_table] in Hold.
      rewrite Forall_forall in Hin.
      assert ((x, REFERENCES users "id" CASCADE (column_ "user_id" TEXT),
               {| fk_table := users; fk_column := "id"; on_delete := CASCADE |})
              ∈ referencing users) as Hmem.
      { rewrite referencing_users. destruct x; [done| |].
        - apply list_elem_of_here.
        - apply list_elem_of_further, list_elem_of_here. }
      specialize (Hin _ Hmem r). cbv beta iota in Hin.
      destruct (dangling _ _ (tr <$> rows users db) r) eqn:Hd; [|done].
      rewrite Hin in Hold; [done| |done].
      by rewrite rows_with_rows_ne, rows_tick.
    + rewrite rows_with_rows_ne, rows_tick by done.
      destruct (decide (x = t)) as [->|Hxt].
      * rewrite rows_with_rows in Hr. apply list_elem_of_fmap in Hr as (r0 & -> & Hr0).
        destruct (target r0) eqn:Ht0;
          [|rewrite (Hsame r0 Ht0); by apply (Hrefs t _ _ r0 Hc Hfk)].
        destruct (Hch r0 Hr0 Ht0) as [-> Hmem].
        pose proof (Hrows _ Hmem) as Hcols. rewrite Forall_forall in Hcols.
        pose proof (fk_checked _ [] _ _ _ Hfk (Hcols _ Hc)) as Hd. cbn [fk_table] in Hd.
        by rewrite rows_with_rows_ne, rows_tick in Hd.
      * rewrite rows_with_rows_ne, rows_tick in Hr by done.
        by apply (Hrefs x _ _ r Hc Hfk).
Qed.
(** Every request leads from a consistent state to a consistent state. *)
Lemma consistent_exec s req db : consistent db -> consistent (exec s req db).1.
Proof.
  intros Hc. destruct req as [t cols eqs ord|t values|t values eqs|t eqs].
  - unfold exec, exec_with. by destruct (unknown_column _ _).
  - unfold exec, exec_with. rewrite rls_insert_policies.
    destruct (sql_insert t values db) as [[db' r]|e] eqn:Hins; [|done].
    by apply (consistent_insert t values db db' r).
  - by apply consistent_update.
  - by apply consistent_delete.
Qed.

(** So every state that requests lead to from the empty database is
    consistent. *)
Lemma consistent_db_after reqs : consistent (db_after reqs).
Proof.
  unfold db_after. generalize consistent_empty. generalize empty_db.
  induction reqs as [|req reqs IH]; intros db Hdb; [done|].
  simpl. apply IH. by apply consistent_exec.
Qed.

Lemma consistent_sample_db : consistent sample_db.
Proof. apply consistent_db_after. Qed.

(** C3, as the code has it.  For an
    input whose trimmed form [id] is not empty, on a users table whose
    key is unique: if a row with identifier [id] exists, the call writes
    nothing, leaves the database as it is and reports [id]; otherwise it
    inserts one row with that identifier whose preferences and usage
    statistics are the empty object, and reports [id].  Either way the
    user is registered afterwards, and calling again changes nothing. *)
Theorem create_or_fetch_user (userId : jsstring) (db : Db) :
  trim userId <> [] -> key_unique users db ->
  (registered (trim userId) db ->
   UserSetup.handleCreateUser userId db
   = (db, [setIsLoading true;
           supabase (UserSetup.existing_user (trim userId));
           toast_success (js "Welcome back, " ++ userId ++ js "!");
           onUserCreated (trim userId);
           setIsLoading false]))
  /\ (~ registered (trim userId) db ->
      exists r,
        UserSetup.handleCreateUser userId db
        = (with_rows users (rows users db ++ [r]) (tick db),
           [setIsLoading true;
            supabase (UserSetup.existing_user (trim userId));
            supabase (from_insert users (UserSetup.new_user (trim userId)));
            toast_success (js "Welcome, " ++ userId
                           ++ js "! Your account has been created.");
            onUserCreated (trim userId);
            setIsLoading false])
        /\ col r "id" = VText (trim userId)
        /\ col r "preferences" = VJson (JObject ∅)
        /\ col r "usage_stats" = VJson (JObject ∅))
  /\ (registered (trim userId) (UserSetup.handleCreateUser userId db).1
      /\ (UserSetup.handleCreateUser userId (UserSetup.handleCreateUser userId db).1).1
         = (UserSetup.handleCreateUser userId db).1
      /\ users_created
           (UserSetup.handleCreateUser userId (UserSetup.handleCreateUser userId db).1).2
         = [trim userId]).
Proof.
  intros Ht Hk. split; [intros Hreg; by apply handleCreateUser_registered|]. split.
  { intros Hn.
    destruct (handleCreateUser_new userId db Ht Hn) as (r & H1 & _ & H2 & _ & H3 & H4).
    exists r. exact (conj H1 (conj H2 (conj H3 H4))). }
  assert (key_unique users (UserSetup.handleCreateUser userId db).1
          /\ registered (trim userId) (UserSetup.handleCreateUser userId db).1)
    as [Hk1 Hreg1].
  { destruct (registered_dec (trim userId) db) as [Hreg|Hn].
    - rewrite handleCreateUser_registered by assumption. by split.
    - destruct (handleCreateUser_new userId db Ht Hn) as (r & -> & Hins & Hid & _).
      cbn [fst]. split.
      + exact (key_unique_insert _ _ _ _ _ users Hins Hk).
      + exists r. split; [|exact Hid]. rewrite rows_with_rows.
        apply elem_of_app. right. apply list_elem_of_singleton. reflexivity. }
  split; [exact Hreg1|].
  rewrite (handleCreateUser_registered userId _ Ht Hk1 Hreg1). by split.
Qed.

Lemma sample_db_users :
  (fun r => col r "id") <$> rows users sample_db = [VText (js "u1")].
Proof. vm_compute. reflexivity. Qed.

Lemma registered_iff id db :
  registered id db <-> VText id ∈ (fun r => col r "id") <$> rows users db.
Proof.
  unfold registered. rewrite list_elem_of_fmap. split.
  - intros (r & Hr & Hid). by exists r.
  - intros (r & Hid & Hr). by exists r.
Qed.

Lemma u1_registered : registered (js "u1") sample_db.
Proof. apply registered_iff. rewrite sample_db_users. apply list_elem_of_here. Qed.

Lemma ghost_unregistered : ~ registered (js "ghost") sample_db.
Proof.
  rewrite registered_iff, sample_db_users.
  intros Hin%list_elem_of_singleton. vm_compute in Hin. discriminate Hin.
Qed.

Lemma u2_unregistered : ~ registered (js "u2") sample_db.
Proof.
  rewrite registered_iff, sample_db_users.
  intros Hin%list_elem_of_singleton. vm_compute in Hin. discriminate Hin.
Qed.


Lemma create_or_fetch_user_witness :
  trim (js " u1 ") <> [] /\ key_unique users empty_db
  /\ registered (js "u1") (UserSetup.handleCreateUser (js " u1 ") empty_db).1
  /\ (UserSetup.handleCreateUser (js " u1 ")
        (UserSetup.handleCreateUser (js " u1 ") empty_db).1).1
     = (UserSetup.handleCreateUser (js " u1 ") empty_db).1
  /\ users_created
       (UserSetup.handleCreateUser (js " u1 ")
          (UserSetup.handleCreateUser (js " u1 ") empty_db).1).2
     = [js "u1"].
Proof.
  assert (trim (js " u1 ") <> []) as Ht by (vm_compute; discriminate).
  assert (key_unique users empty_db) as Hk by apply NoDup_nil_2.
  split; [exact Ht|]. split; [exact Hk|].
  exact (proj2 (proj2 (create_or_fetch_user (js " u1 ") empty_db Ht Hk))).
Defined.

(** C3 as stated fails for an identifier that is blank: no user row has
    it, and the call neither inserts one nor touches the database. *)
Lemma blank_identifier_creates_nothing :
  ~ registered (js "   ") empty_db
  /\ UserSetup.handleCreateUser (js "   ") empty_db
     = (empty_db, [toast_error (js "Please enter a user ID")]).
Proof.
  split; [|vm_compute; reflexivity].
  intros (r & Hr & _). by apply elem_of_nil in Hr.
Qed.

Lemma handleCreateUser_blank userId db :
  trim userId = [] ->
  UserSetup.handleCreateUser userId db = (db, [toast_error (js "Please enter a user ID")]).
Proof. intros H. unfold UserSetup.handleCreateUser. by rewrite H. Qed.

Lemma handleCreateUser_requests userId db :
  trim userId <> [] ->
  requests (UserSetup.handleCreateUser userId db).2
  = [UserSetup.existing_user (trim userId)]
  \/ requests (UserSetup.handleCreateUser userId db).2
     = [UserSetup.existing_user (trim userId);
        from_insert users (UserSetup.new_user (trim userId))].
Proof.
  intros Ht. unfold UserSetup.handleCreateUser.
  destruct (trim userId) as [|c rest] eqn:Htrim; [done|]. cbn [truthy negb].
  destruct (exec anon (UserSetup.existing_user (c :: rest)) db) as [db1 found].
  destruct (single found); [by left|]. right.
  destruct (exec anon (from_insert users (UserSetup.new_user (c :: rest))) db1)
    as [db2 [data|e]]; [|reflexivity].
  destruct (bool_decide (0 < length data)%nat); reflexivity.
Qed.

(** What the handler does to the database, asks of it and reports
    depends on its input through the trimmed form only. *)
Lemma handleCreateUser_trimmed a b db :
  trim a = trim b ->
  (UserSetup.handleCreateUser a db).1 = (UserSetup.handleCreateUser b db).1
  /\ requests (UserSetup.handleCreateUser a db).2
     = requests (UserSetup.handleCreateUser b db).2
  /\ users_created (UserSetup.handleCreateUser a db).2
     = users_created (UserSetup.handleCreateUser b db).2.
Proof.
  intros Hab. unfold UserSetup.handleCreateUser. rewrite Hab.
  destruct (trim b) as [|c rest]; [done|]. cbn [truthy negb].
  destruct (exec anon (UserSetup.existing_user (c :: rest)) db) as [db1 found].
  destruct (single found); [done|].
  destruct (exec anon (from_insert users (UserSetup.new_user (c :: rest))) db1)
    as [db2 [data|e]]; [|done].
  destruct (bool_decide (0 < length data)%nat); done.
Qed.

(** C9. An input whose trimmed form is empty is turned away with an error
    toast before any request is made, and the database stays as it is.
    For any other input the requests are the lookup of the trimmed form
    and, when nothing is found, the insert of a row whose identifier is
    the trimmed form: a user that has a row is looked up, found and
    handed on, and nothing is written; a user that has none is looked
    up, inserted with the trimmed form as [id] and [name], and handed on.
    So two inputs that differ in outer white space only lead to the same
    database state, the same requests and the same identifier handed
    on. *)
Theorem user_id_is_trimmed (a b : jsstring) (db : Db) :
  same_but_for_outer_whitespace a b ->
  (trim a = [] ->
   UserSetup.handleCreateUser a db = (db, [toast_error (js "Please enter a user ID")])
   /\ requests (UserSetup.handleCreateUser a db).2 = [])
  /\ (trim a <> [] ->
      (requests (UserSetup.handleCreateUser a db).2
       = [UserSetup.existing_user (trim a)]
       \/ requests (UserSetup.handleCreateUser a db).2
          = [UserSetup.existing_user (trim a);
             from_insert users (UserSetup.new_user (trim a))])
      /\ (registered (trim a) db -> key_unique users db ->
          UserSetup.handleCreateUser a db
          = (db, [setIsLoading true;
                  supabase (UserSetup.existing_user (trim a));
                  toast_success (js "Welcome back, " ++ a ++ js "!");
                  onUserCreated (trim a);
                  setIsLoading false]))
      /\ (~ registered (trim a) db ->
          exists r,
            UserSetup.handleCreateUser a db
            = (with_rows users (rows users db ++ [r]) (tick db),
               [setIsLoading true;
                supabase (UserSetup.existing_user (trim a));
                supabase (from_insert users (UserSetup.new_user (trim a)));
                toast_success
                  (js "Welcome, " ++ a ++ js "! Your account has been created.");
                onUserCreated (trim a);
                setIsLoading false])
            /\ col r "id" = VText (trim a) /\ col r "name" = VText (trim a)))
  /\ trim a = trim b
  /\ (UserSetup.handleCreateUser a db).1 = (UserSetup.handleCreateUser b db).1
  /\ requests (UserSetup.handleCreateUser a db).2
     = requests (UserSetup.handleCreateUser b db).2
  /\ users_created (UserSetup.handleCreateUser a db).2
     = users_created (UserSetup.handleCreateUser b db).2.
Proof.
  intros (l1 & r1 & l2 & r2 & core & Hws & -> & ->).
  rewrite !forallb_app in Hws.
  apply andb_prop in Hws as [Hl1 Hws]. apply andb_prop in Hws as [Hr1 Hws].
  apply andb_prop in Hws as [Hl2 Hr2].
  assert (trim (l1 ++ core ++ r1) = trim (l2 ++ core ++ r2)) as Hab.
  { by rewrite !trim_padded. }
  split; [|split; [|split]].
  - intros Hblank. rewrite (handleCreateUser_blank _ db Hblank). by split.
  - intros Ht. split; [by apply handleCreateUser_requests|]. split.
    + intros Hreg Hk. by apply handleCreateUser_registered.
    + intros Hn. destruct (handleCreateUser_new _ db Ht Hn) as (r & Hrun & _ & Hid & Hname & _).
      exists r. exact (conj Hrun (conj Hid Hname)).
  - exact Hab.
  - by apply handleCreateUser_trimmed.
Qed.

Lemma user_id_is_trimmed_witness :
  same_but_for_outer_whitespace (js "  u2 ") (js "u2")
  /\ (exists r,
        UserSetup.handleCreateUser (js "  u2 ") sample_db
        = (with_rows users (rows users sample_db ++ [r]) (tick sample_db),
           [setIsLoading true;
            supabase (UserSetup.existing_user (js "u2"));
            supabase (from_insert users (UserSetup.new_user (js "u2")));
            toast_success (js "Welcome,   u2 ! Your account has been created.");
            onUserCreated (js "u2");
            setIsLoading false])
        /\ col r "id" = VText (js "u2") /\ col r "name" = VText (js "u2"))
  /\ trim (js "  u2 ") = trim (js "u2")
  /\ (UserSetup.handleCreateUser (js "  u2 ") sample_db).1
     = (UserSetup.handleCreateUser (js "u2") sample_db).1
  /\ requests (UserSetup.handleCreateUser (js "  u2 ") sample_db).2
     = requests (UserSetup.handleCreateUser (js "u2") sample_db).2
  /\ users_created (UserSetup.handleCreateUser (js "  u2 ") sample_db).2
     = users_created (UserSetup.handleCreateUser (js "u2") sample_db).2.
Proof.
  assert (same_but_for_outer_whitespace (js "  u2 ") (js "u2")) as H.
  { exists (js "  "), (js " "), [], [], (js "u2"). repeat split; reflexivity. }
  assert (trim (js "  u2 ") <> []) as Ht by (vm_compute; discriminate).
  destruct (user_id_is_trimmed (js "  u2 ") (js "u2") sample_db H)
    as (_ & Hrun & Hrest).
  split; [exact H|]. split; [|exact Hrest].
  exact (proj2 (proj2 (Hrun Ht)) u2_unregistered).
Defined.

Lemma deleting_a_user_cascades_witness :
  references_hold sample_db
  /\ exists db',
       exec anon (from_delete users [("id", VText (js "u1"))]) sample_db = (db', Ok [])
       /\ ~ registered (js "u1") db'
       /\ (forall t r, t <> users -> r ∈ rows t db' -> col r "user_id" <> VText (js "u1"))
       /\ Dashboard.loadListings (js "u1") db'
          = [supabase (Dashboard.listings_of (js "u1")); setListings []; setIsLoading false]
       /\ (forall s' t columns eqs order data,
             t <> users -> ("user_id", VText (js "u1")) ∈ eqs ->
             (exec s' (from_select t columns eqs order) db').2 = Ok data -> data = []).
Proof.
  split; [apply consistent_sample_db|].
  apply (deleting_a_user_cascades anon (js "u1") sample_db), consistent_sample_db.
Defined.

Lemma rows_without_owner_witness :
  listings <> users
  /\ exists db' r,
       exec anon (from_insert listings (ownerless listings)) sample_db = (db', Ok [r])
       /\ r ∈ rows listings db' /\ col r "user_id" = VNull.
Proof.
  assert (listings <> users) as H by discriminate.
  split; [exact H|]. exact (proj1 (proj2 (rows_without_owner listings sample_db H))).
Defined.

(** ** The gateway and the listing workflow *)

Lemma usage_logged user provider model tokens cost success error db :
  registered user db ->
  default true (fits_integer <$> tokens) = true ->
  default true (fits_decimal_10_4 <$> cost) = true ->
  exists r,
    sql_insert ai_usage (Backend.usage_record user provider model tokens cost success error) db
    = Ok (with_rows ai_usage (rows ai_usage db ++ [r]) (tick db), r)
    /\ col r "user_id" = VText user
    /\ col r "provider" = VText provider
    /\ col r "tokens_used" = VInt (default 0%Z tokens)
    /\ col r "cost" = VDecimal (default 0%Z cost)
    /\ col r "success" = VBool success.
Proof.
  intros (p & Hp & Hid) Htokens Hcost.
  assert (existsb (fun p => sql_eq_true (col p "id") (VText user)) (rows users db) = true)
    as Hreg.
  { apply existsb_exists. exists p. split; [by apply list_elem_of_In|].
    by apply sql_eq_true_text. }
  exists (new_row ai_usage
            (Backend.usage_record user provider model tokens cost success error) db).
  split.
  - apply sql_insert_Ok; [by destruct model, tokens, cost, error|].
    pose proof (fresh_in_not_present ai_usage db "id") as Hfresh.
    revert Hfresh. generalize (fresh_in ai_usage db). intros fr Hfresh.
    destruct model, tokens, cost, error; cbn in Htokens, Hcost;
      each_column; eval_column_values; check_value;
      by rewrite ?Hfresh, ?Hreg, ?Htokens, ?Hcost.
  - destruct model, tokens, cost, error; repeat split; reflexivity.
Qed.

Section Gateway.
Variable provider_call :
  jsstring -> option jsstring -> list jsstring -> option jsstring -> Backend.provider_reply.
Variable key_format_ok : jsstring -> jsstring -> bool.

Lemma log_usage_registered user provider model tokens cost success error db :
  registered user db ->
  default true (fits_integer <$> tokens) = true ->
  default true (fits_decimal_10_4 <$> cost) = true ->
  exists r,
    Backend.log_usage
      (Backend.usage_record user provider model tokens cost success error) db
    = with_rows ai_usage (rows ai_usage db ++ [r]) (tick db)
    /\ col r "user_id" = VText user
    /\ col r "provider" = VText provider
    /\ col r "tokens_used" = VInt (default 0%Z tokens)
    /\ col r "cost" = VDecimal (default 0%Z cost)
    /\ col r "success" = VBool success.
Proof.
  intros Hreg Htokens Hcost.
  destruct (usage_logged user provider model tokens cost success error db Hreg
              Htokens Hcost) as (r & Hins & Hr).
  exists r. split; [|exact Hr]. unfold Backend.log_usage. rewrite Hins. reflexivity.
Qed.

(** What one call of the gateway writes, for a registered user. *)
Lemma gateway_usage user images hint db :
  registered user db ->
  (Backend.validate key_format_ok (Backend.chosen user db).1
     (Backend.chosen user db).2 images = None ->
   Backend.figures_fit
     (provider_call (Backend.chosen user db).1 (Backend.chosen user db).2 images hint)
   = true) ->
  exists r,
    (Backend.gateway provider_call key_format_ok user images hint db).1
    = with_rows ai_usage (rows ai_usage db ++ [r]) (tick db)
    /\ col r "user_id" = VText user
    /\ match Backend.validate key_format_ok (Backend.chosen user db).1
               (Backend.chosen user db).2 images with
       | Some _ =>
           col r "tokens_used" = VInt 0 /\ col r "cost" = VDecimal 0
           /\ col r "success" = VBool false
       | None =>
           match provider_call (Backend.chosen user db).1 (Backend.chosen user db).2
                   images hint with
           | Backend.Generated fields _ tokens cost =>
               col r "tokens_used" = VInt (default 0%Z tokens)
               /\ col r "cost" = VDecimal (default 0%Z cost)
               /\ col r "success" = VBool (Backend.populated fields)
           | Backend.Refused _ =>
               col r "tokens_used" = VInt 0 /\ col r "cost" = VDecimal 0
               /\ col r "success" = VBool false
           end
       end.
Proof.
  intros Hreg Hfit. unfold Backend.gateway.
  destruct (Backend.chosen user db) as [provider key]. cbn [fst snd] in *.
  destruct (Backend.validate key_format_ok provider key images) as [msg|].
  - destruct (log_usage_registered user provider None None None false (Some msg) db Hreg
                eq_refl eq_refl) as (r & Hlog & Hu & _ & Ht & Hc & Hs).
    exists r. cbn [fst]. rewrite Hlog. exact (conj eq_refl (conj Hu (conj Ht (conj Hc Hs)))).
  - specialize (Hfit eq_refl).
    destruct (provider_call provider key images hint) as [fields model tokens cost|msg].
    + apply andb_prop in Hfit as [Htokens Hcost].
      destruct (Backend.populated fields).
      * destruct (log_usage_registered user provider (Some model) tokens cost true None db
                    Hreg Htokens Hcost) as (r & Hlog & Hu & _ & Ht & Hc & Hs).
        exists r. cbn [fst]. rewrite Hlog.
        exact (conj eq_refl (conj Hu (conj Ht (conj Hc Hs)))).
      * destruct (log_usage_registered user provider (Some model) tokens cost false
                    (Some Backend.malformed_reply) db Hreg Htokens Hcost)
          as (r & Hlog & Hu & _ & Ht & Hc & Hs).
        exists r. cbn [fst]. rewrite Hlog.
        exact (conj eq_refl (conj Hu (conj Ht (conj Hc Hs)))).
    + destruct (log_usage_registered user provider None None None false (Some msg) db Hreg
                  eq_refl eq_refl) as (r & Hlog & Hu & _ & Ht & Hc & Hs).
      exists r. cbn [fst]. rewrite Hlog. exact (conj eq_refl (conj Hu (conj Ht (conj Hc Hs)))).
Qed.

End Gateway.



(** ** Column types and NOT NULL in every state *)

Lemma exec_insert s t values db :
  exec s (from_insert t values) db
  = match sql_insert t values db with
    | Ok (db', r) => (db', Ok [r])
    | Err e => (db, Err e)
    end.
Proof. unfold exec, exec_with. by rewrite rls_insert_policies. Qed.

Lemma value_violation_None db others c v :
  value_violation db others c v = None ->
  has_type v (c_type c) = true
  /\ ((c_primary_key c || c_not_null c) = true -> v <> VNull).
Proof.
  rewrite value_violation_chain. destruct (has_type v (c_type c)); [|done]. cbn [negb].
  destruct (c_primary_key c || c_not_null c); cbn [andb].
  - destruct v; cbn [is_null]; try done; intros _; (split; [done|discriminate]).
  - intros _. split; [done|discriminate].
Qed.

Lemma rows_after_delete_subset s t eqs db t' r :
  r ∈ rows t' (exec s (from_delete t eqs) db).1 -> r ∈ rows t' db.
Proof.
  unfold exec, exec_with. destruct (unknown_column t eqs.*1); [done|].
  destruct t.
  - rewrite sql_delete_users. cbn [fst].
    destruct t'; cbn [rows t_users t_listings t_ai_usage];
      by intros [_ H]%list_elem_of_filter.
  - rewrite sql_delete_listings. cbn [fst].
    destruct t'; cbn [rows with_rows t_users t_listings t_ai_usage]; [done| |done].
    by intros [_ H]%list_elem_of_filter.
  - rewrite sql_delete_ai_usage. cbn [fst].
    destruct t'; cbn [rows with_rows t_users t_listings t_ai_usage]; [done|done|].
    by intros [_ H]%list_elem_of_filter.
Qed.

Lemma well_formed_exec s req db :
  well_formed_rows db -> well_formed_rows (exec s req db).1.
Proof.
  intros Hwf. destruct req as [t cols eqs ord|t values|t values eqs|t eqs].
  - unfold exec, exec_with. by destruct (unknown_column _ _).
  - rewrite exec_insert.
    destruct (sql_insert t values db) as [[db' r]|e] eqn:Hins; [|exact Hwf].
    cbn [fst]. intros t' c r' Hc Hr'.
    rewrite (rows_after_insert _ _ _ _ _ t' Hins) in Hr'.
    destruct (decide (t' = t)) as [->|_]; [|by apply (Hwf t')].
    apply elem_of_app in Hr' as [Hold|Hnew]; [by apply (Hwf t)|].
    apply list_elem_of_singleton in Hnew as ->.
    destruct (sql_insert_inv _ _ _ _ _ Hins) as (_ & _ & Hcols).
    rewrite Forall_forall in Hcols.
    exact (value_violation_None _ _ _ _ (Hcols c Hc)).
  - unfold exec, exec_with. destruct (unknown_column t eqs.*1); [exact Hwf|].
    destruct (rls_update policies s t values (matches eqs) db) as [[db' changed]|e] eqn:Hup;
      [|exact Hwf].
    apply rls_update_inv in Hup as (-> & -> & Hrows & _).
    cbn [fst]. intros t' c r' Hc Hr'.
    destruct (decide (t = t')) as [<-|Hne].
    + rewrite rows_with_rows in Hr'.
      apply list_elem_of_fmap in Hr' as (r & -> & Hr).
      unfold revised. destruct (update_target policies s t (matches eqs) r) eqn:Htarget;
        [|by apply (Hwf t)].
      rewrite Forall_forall in Hrows.
      assert (revise t values db r
              ∈ revise t values db
                  <$> filter (fun r => update_target policies s t (matches eqs) r)
                        (rows t db)) as Hin.
      { apply list_elem_of_fmap_2, list_elem_of_filter. split; [|exact Hr].
        by apply Is_true_true. }
      specialize (Hrows _ Hin). rewrite Forall_forall in Hrows.
      exact (value_violation_None _ _ _ _ (Hrows c Hc)).
    + rewrite rows_with_rows_ne, rows_tick in Hr' by done. by apply (Hwf t').
  - intros t' c r' Hc Hr'. apply rows_after_delete_subset in Hr'. by apply (Hwf t').
Qed.

Lemma well_formed_empty : well_formed_rows empty_db.
Proof. intros [] c r _ Hr; by apply elem_of_nil in Hr. Qed.

Lemma well_formed_exec_all s reqs db :
  well_formed_rows db -> well_formed_rows (exec_all s reqs db).
Proof.
  unfold exec_all. revert db. induction reqs as [|req reqs IH]; intros db Hdb; [done|].
  simpl. apply IH. by apply well_formed_exec.
Qed.

(** A stored listing has a text for a title. *)
Lemma stored_title_is_text s reqs r :
  r ∈ rows listings (exec_all s reqs empty_db) -> exists title, col r "title" = VText title.
Proof.
  intros Hr.
  destruct (well_formed_exec_all s reqs empty_db well_formed_empty listings
              (NOT_NULL (column_ "title" TEXT)) r) as [Hty Hnn];
    [do 2 apply list_elem_of_further; apply list_elem_of_here|exact Hr|].
  cbn [c_name c_type c_primary_key c_not_null NOT_NULL column_ orb] in Hty, Hnn.
  destruct (col r "title") as [|title| | | | | |]; try discriminate Hty.
  - by destruct Hnn.
  - by exists title.
Qed.
(** ** The listing workflow *)


Lemma listing_stored user images hint g db :
  registered user db ->
  exists r,
    sql_insert listings (Backend.listing_record user images hint g) db
    = Ok (with_rows listings (rows listings db ++ [r]) (tick db), r)
    /\ col r "user_id" = VText user
    /\ col r "ai_generated" = VBool true
    /\ col r "status" = VText (js "draft")
    /\ col r "title" = VText (Backend.title (Backend.g_fields g))
    /\ col r "description" = VText (Backend.description (Backend.g_fields g))
    /\ col r "category" = VText (Backend.category (Backend.g_fields g)).
Proof.
  intros (p & Hp & Hid).
  assert (existsb (fun p => sql_eq_true (col p "id") (VText user)) (rows users db) = true)
    as Hreg.
  { apply existsb_exists. exists p. split; [by apply list_elem_of_In|].
    by apply sql_eq_true_text. }
  exists (new_row listings (Backend.listing_record user images hint g) db).
  split.
  - apply sql_insert_Ok; [by destruct hint|].
    pose proof (fresh_in_not_present listings db "id") as Hfresh.
    revert Hfresh. generalize (fresh_in listings db). intros fr Hfresh.
    destruct hint; each_column; eval_column_values; check_value;
      by rewrite ?Hfresh, ?Hreg.
  - destruct hint; repeat split; reflexivity.
Qed.

Lemma title_column_checked db others r :
  column_violation db others r (NOT_NULL (column_ "title" TEXT)) = None ->
  col r "title" <> VNull.
Proof.
  unfold column_violation. rewrite value_violation_chain. cbn [c_name c_type c_primary_key c_not_null
    c_default c_references column_ NOT_NULL orb].
  by destruct (col r "title").
Qed.

Lemma log_usage_other record db t :
  t <> ai_usage -> rows t (Backend.log_usage record db) = rows t db.
Proof.
  intros Ht. unfold Backend.log_usage.
  destruct (sql_insert ai_usage record db) as [[db' r]|e] eqn:Hins; [|reflexivity].
  apply sql_insert_inv in Hins as (_ & -> & _).
  by rewrite rows_with_rows_ne, rows_tick.
Qed.

Lemma truthy_not_empty (s : jsstring) : truthy s = true -> s <> [].
Proof. by destruct s. Qed.

Section Workflow.
Variable provider_call :
  jsstring -> option jsstring -> list jsstring -> option jsstring -> Backend.provider_reply.
Variable key_format_ok : jsstring -> jsstring -> bool.

(** The gateway writes to ai_usage only. *)
Lemma gateway_other user images hint db t :
  t <> ai_usage ->
  rows t (Backend.gateway provider_call key_format_ok user images hint db).1 = rows t db.
Proof.
  intros Ht. unfold Backend.gateway.
  destruct (Backend.chosen user db) as [provider key].
  destruct (Backend.validate key_format_ok provider key images);
    [by apply log_usage_other|].
  destruct (provider_call provider key images hint) as [fields model tokens cost|msg];
    [|by apply log_usage_other].
  destruct (Backend.populated fields); by apply log_usage_other.
Qed.

(** The gateway hands fields back only for images, and only fields that
    are populated. *)
Lemma gateway_answer user images hint db g :
  (Backend.gateway provider_call key_format_ok user images hint db).2 = inr g ->
  images <> [] /\ Backend.populated (Backend.g_fields g) = true.
Proof.
  unfold Backend.gateway, Backend.validate.
  destruct (Backend.chosen user db) as [provider key].
  destruct (bool_decide (images = [])) eqn:He; [done|].
  apply bool_decide_eq_false in He.
  destruct (match key with
            | Some k => if key_format_ok provider k
                        then None else Some (js "Invalid API key format")
            | None => None
            end); [done|].
  destruct (provider_call provider key images hint) as [fields model tokens cost|msg];
    [|done].
  destruct (Backend.populated fields) eqn:Hp; [|done].
  intros [= <-]. by split.
Qed.

(** For a registered user, images, a key of the right format and a reply
    with the three fields populated, the workflow produces a listing. *)
Lemma generate_listing_produces user images hint db fields model tokens cost :
  registered user db ->
  Backend.validate key_format_ok (Backend.chosen user db).1 (Backend.chosen user db).2
    images = None ->
  provider_call (Backend.chosen user db).1 (Backend.chosen user db).2 images hint
  = Backend.Generated fields model tokens cost ->
  Backend.populated fields = true ->
  exists r,
    (Backend.generate_listing provider_call key_format_ok user images hint db).2 = inr r.
Proof.
  intros Hreg Hv Hcall Hp.
  pose proof (gateway_other user images hint db users) as Husers.
  assert (exists g,
            (Backend.gateway provider_call key_format_ok user images hint db).2 = inr g)
    as [g Hg].
  { unfold Backend.gateway. destruct (Backend.chosen user db) as [provider key].
    cbn [fst snd] in Hv, Hcall. rewrite Hv, Hcall, Hp. by eexists. }
  unfold Backend.generate_listing.
  destruct (Backend.gateway provider_call key_format_ok user images hint db)
    as [db1 answer]. cbn [fst snd] in Husers, Hg. subst answer.
  assert (registered user db1) as Hreg1.
  { destruct Hreg as (p & Hp' & Hid). exists p. by rewrite Husers. }
  destruct (listing_stored user images hint g db1 Hreg1) as (r & -> & _).
  by exists r.
Qed.

End Workflow.




(** With the policies of the setup guide in place of those of the
    migration, a request made for [u] sees no listing of another user:
    the model of row-level security does look at who asks. *)
Remark guide_policies_would_isolate (u v : jsstring) (db : Db) :
  u <> v ->
  exec_with guide_policies (on_behalf_of u)
    (from_select listings None [("user_id", VText v)] None) db
  = (db, Ok []).
Proof.
  intros Hne. unfold exec_with.
  change (unknown_column listings _) with (@None sql_error).
  rewrite filter_none; [done|].
  intros r _ H. apply Is_true_true, andb_true_iff in H as [Hv Hm].
  apply matches_owner in Hm.
  unfold visible in Hv. cbn [guide_policies existsb row_level_security negb orb] in Hv.
  unfold applies in Hv.
  cbn [p_table p_command p_using eval_expr on_behalf_of auth_uid] in Hv.
  rewrite Hm in Hv. vm_compute bool_decide in Hv.
  cbn [andb orb] in Hv. rewrite orb_false_r in Hv.
  apply sql_eq_true_eq in Hv. congruence.
Qed.

(** * Further properties of the code *)

(** ** The upload loop, second version *)

Section UploadLoop.
Context {Server : Type}.
Variable up : File -> jsstring -> Server -> Server * fetch_result.
Variable userId : jsstring.

Lemma uploads_app (t1 t2 : list effect) : uploads (t1 ++ t2) = uploads t1 ++ uploads t2.
Proof. apply omap_app. Qed.

Lemma images_reported_app (t1 t2 : list effect) :
  images_reported (t1 ++ t2) = images_reported t1 ++ images_reported t2.
Proof. apply omap_app. Qed.

Lemma toasts_app (t1 t2 : list effect) : toasts (t1 ++ t2) = toasts t1 ++ toasts t2.
Proof. apply filter_app. Qed.

Lemma uploadOne_rejected (file : File) (srv : Server) (msg : jsstring) :
  rejection file = Some msg ->
  ImageUpload.uploadOne up userId file srv = (srv, [toast_error msg]).
Proof. intros H. unfold ImageUpload.uploadOne. by rewrite H. Qed.

(** What one turn of the loop does with a file that passes the guards:
    one request, one toast for the file, at most one name reported, and
    no change of the [uploading] flag. *)
Lemma uploadOne_accepted (file : File) (srv : Server) :
  rejection file = None ->
  exists t,
    ImageUpload.uploadOne up userId file srv
    = ((up file userId srv).1, fetch_upload file (Some userId) :: t)
    /\ uploads t = []
    /\ (exists o, toasts t = [o] /\ outcome file o)
    /\ (length (images_reported t) <= 1)%nat
    /\ omap uploading_set t = [].
Proof.
  intros H. unfold ImageUpload.uploadOne. rewrite H.
  destruct (up file userId srv) as [srv' [[] data|reason]]; simpl;
    eexists; (split; [reflexivity|]); (split; [reflexivity|]);
    (split; [eexists; split; [reflexivity|]|split; [simpl; lia|reflexivity]]);
    unfold outcome; auto.
Qed.

Lemma rejection_outcome (file : File) (msg : jsstring) :
  rejection file = Some msg -> outcome file (toast_error msg).
Proof.
  unfold rejection, outcome.
  destruct (negb _); [intros [= <-]; auto|].
  destruct (_ <? _); [intros [= <-]; auto|done].
Qed.

Lemma uploadAll_trace (files : list File) (srv : Server) :
  (ImageUpload.uploadAll up userId files srv).1
  = foldl (fun s f => (up f userId s).1) srv (accepted files)
  /\ uploads (ImageUpload.uploadAll up userId files srv).2
     = (fun f => (f, Some userId)) <$> accepted files
  /\ Forall2 outcome files (toasts (ImageUpload.uploadAll up userId files srv).2)
  /\ (length (images_reported (ImageUpload.uploadAll up userId files srv).2)
      <= length (accepted files))%nat
  /\ omap uploading_set (ImageUpload.uploadAll up userId files srv).2 = [].
Proof.
  revert srv. induction files as [|f files IH]; intros srv.
  - simpl. repeat split; [constructor|lia].
  - cbn [ImageUpload.uploadAll]. unfold accepted.
    destruct (rejection f) as [msg|] eqn:Hr.
    + rewrite (uploadOne_rejected _ _ _ Hr).
      rewrite filter_cons_False by (by rewrite Hr).
      destruct (IH srv) as (H1 & H2 & H3 & H4 & H5).
      destruct (ImageUpload.uploadAll up userId files srv) as [s2 t2].
      cbn [fst snd] in *.
      split; [exact H1|]. split; [exact H2|].
      split; [|split; [exact H4|exact H5]].
      change ([toast_error msg] ++ t2) with (toast_error msg :: t2).
      unfold toasts. rewrite filter_cons_True by done.
      constructor; [by apply rejection_outcome|exact H3].
    + destruct (uploadOne_accepted f srv Hr) as (t & -> & Hu & (o & Ho & Hout) & Hi & Hs).
      rewrite filter_cons_True by done.
      destruct (IH (up f userId srv).1) as (H1 & H2 & H3 & H4 & H5).
      destruct (ImageUpload.uploadAll up userId files (up f userId srv).1) as [s2 t2].
      cbn [fst snd] in *.
      split; [exact H1|].
      change ((fetch_upload f (Some userId) :: t) ++ t2)
        with (fetch_upload f (Some userId) :: (t ++ t2)).
      split; [|split; [|split]].
      * change (uploads (fetch_upload f (Some userId) :: t ++ t2))
          with ((f, Some userId) :: uploads (t ++ t2)).
        rewrite uploads_app, Hu, H2. reflexivity.
      * unfold toasts. rewrite filter_cons_False by (simpl; tauto).
        fold (toasts (t ++ t2)). rewrite toasts_app, Ho.
        constructor; [exact Hout|exact H3].
      * change (images_reported (fetch_upload f (Some userId) :: t ++ t2))
          with (images_reported (t ++ t2)).
        rewrite images_reported_app, length_app. simpl. unfold accepted in H4. lia.
      * change (omap uploading_set (fetch_upload f (Some userId) :: t ++ t2))
          with (omap uploading_set (t ++ t2)).
        rewrite omap_app, Hs, H5. reflexivity.
Qed.

Lemma accepted_length (files : list File) : (length (accepted files) <= length files)%nat.
Proof. apply length_filter. Qed.

End UploadLoop.

(** X1.  The capacity check bounds what one call sends.  Whatever the backend
    answers, [handleFiles] puts to it at most as many files as there are
    free draft slots; the files it sends are exactly those of the batch
    that pass the two guards, once each and in the order of the batch,
    each with the user id of the component; and the backend is left in
    the state that these requests, and no others, lead to. *)
Theorem handleFiles_sends_the_accepted_within_the_free_slots {Server : Type}
  (up : File -> jsstring -> Server -> Server * fetch_result)
  (userId : jsstring) (drafts : list Draft) (files : list File) (srv : Server) :
  let sent :=
    if (10 <? length drafts + length files)%nat then [] else accepted files in
  let result := ImageUpload.handleFiles up userId drafts files srv in
  uploads result.2 = (fun f => (f, Some userId)) <$> sent
  /\ result.1 = foldl (fun s f => (up f userId s).1) srv sent
  /\ (length (uploads result.2) <= 10 - length drafts)%nat
  /\ (forall f, f ∈ sent ->
        f ∈ files /\ startsWith (f_type f) (js "image/") = true
        /\ f_size f <= 10 * 1024 * 1024).
Proof.
  intros sent result. subst sent result. unfold ImageUpload.handleFiles.
  destruct (Nat.ltb_spec 10 (length drafts + length files)) as [Hover|Hfits].
  - cbn [fst snd]. repeat split; try (simpl; lia).
    all: by apply elem_of_nil in H.
  - destruct (uploadAll_trace up userId files srv) as (H1 & H2 & _).
    destruct (ImageUpload.uploadAll up userId files srv) as [s t].
    cbn [fst snd] in *.
    assert (Hu : uploads (setUploading true :: t ++ [setUploading false; refetchDrafts])
                 = uploads t).
    { change (uploads (setUploading true :: ?l)) with (uploads l).
      rewrite uploads_app. apply app_nil_r. }
    rewrite Hu, H2. split; [reflexivity|]. split; [exact H1|].
    split.
    + rewrite length_fmap. pose proof (accepted_length files). lia.
    + intros f Hf. apply list_elem_of_filter in Hf as [Hacc Hin].
      apply rejection_None in Hacc. tauto.
Qed.

(** X2.  Within capacity every file of the batch is answered by exactly one
    toast that names it, in the order of the batch: rejected, failed or
    saved.  The [uploading] flag is raised first and is down again at the
    end whatever the backend does, the drafts are fetched again last, and
    no more names are reported than files were sent. *)
Theorem handleFiles_answers_every_file {Server : Type}
  (up : File -> jsstring -> Server -> Server * fetch_result)
  (userId : jsstring) (drafts : list Draft) (files : list File) (srv : Server) :
  (length drafts + length files <= 10)%nat ->
  let trace := (ImageUpload.handleFiles up userId drafts files srv).2 in
  Forall2 outcome files (toasts trace)
  /\ head trace = Some (setUploading true)
  /\ last_set uploading_set trace = Some false
  /\ last trace = Some refetchDrafts
  /\ (length (images_reported trace) <= length (uploads trace))%nat.
Proof.
  intros Hfits trace. subst trace. unfold ImageUpload.handleFiles.
  destruct (Nat.ltb_spec 10 (length drafts + length files)) as [Hover|_]; [lia|].
  destruct (uploadAll_trace up userId files srv) as (_ & H2 & H3 & H4 & H5).
  destruct (ImageUpload.uploadAll up userId files srv) as [s t].
  cbn [fst snd] in *.
  split; [|split; [reflexivity|split; [|split]]].
  - unfold toasts. rewrite filter_cons_False by (simpl; tauto).
    fold (toasts (t ++ [setUploading false; refetchDrafts])).
    rewrite toasts_app. change (toasts [setUploading false; refetchDrafts]) with (@nil effect).
    rewrite app_nil_r. exact H3.
  - unfold last_set.
    change (omap uploading_set (setUploading true :: ?l)) with (true :: omap uploading_set l).
    rewrite omap_app, H5. reflexivity.
  - rewrite app_comm_cons.
    change [setUploading false; refetchDrafts] with ([setUploading false] ++ [refetchDrafts]).
    rewrite app_assoc. apply last_snoc.
  - change (images_reported (setUploading true :: ?l)) with (images_reported l).
    change (uploads (setUploading true :: ?l)) with (uploads l).
    rewrite images_reported_app, uploads_app, !length_app. simpl.
    rewrite H2, length_fmap. lia.
Qed.

Lemma handleFiles_answers_every_file_witness :
  (length (drafts_held 8) + length [photo; notes] <= 10)%nat
  /\ let trace :=
       (ImageUpload.handleFiles keep_draft (js "u1") (drafts_held 8) [photo; notes]
          (staging_held (js "u1") 8)).2 in
     Forall2 outcome [photo; notes] (toasts trace)
     /\ head trace = Some (setUploading true)
     /\ last_set uploading_set trace = Some false
     /\ last trace = Some refetchDrafts
     /\ (length (images_reported trace) <= length (uploads trace))%nat.
Proof.
  split; [vm_compute; lia|].
  apply (handleFiles_answers_every_file keep_draft (js "u1") (drafts_held 8)
           [photo; notes] (staging_held (js "u1") 8)).
  vm_compute; lia.
Defined.

(** ** The upload loop, first version, and the list it keeps *)

Section LegacyLoop.
Context {Server : Type}.
Variable up : File -> Server -> Server * fetch_result.

Lemma images_appended_app (t1 t2 : list effect) :
  images_appended (t1 ++ t2) = images_appended t1 ++ images_appended t2.
Proof. apply omap_app. Qed.

Lemma uploadedImages_appended (trace : list effect) (prev : list (option jsstring)) :
  UploadedImages.uploadedImages prev trace = prev ++ images_appended trace.
Proof.
  revert prev. induction trace as [|e trace IH]; intros prev.
  - simpl. by rewrite app_nil_r.
  - unfold UploadedImages.uploadedImages in *. cbn [foldl]. rewrite IH.
    destruct e; try reflexivity.
    rewrite <- app_assoc. reflexivity.
Qed.

Lemma legacy_uploadOne_rejected (file : File) (srv : Server) (msg : jsstring) :
  rejection file = Some msg ->
  ImageUploadLegacy.uploadOne up file srv = (srv, [toast_error msg]).
Proof. intros H. unfold ImageUploadLegacy.uploadOne. by rewrite H. Qed.

(** One turn of the first loop on a file that passes the guards: one
    request, and then either the name is appended and reported, or one
    error toast is shown. *)
Lemma legacy_uploadOne_accepted (file : File) (srv : Server) :
  rejection file = None ->
  exists t,
    ImageUploadLegacy.uploadOne up file srv
    = ((up file srv).1, fetch_upload file None :: t)
    /\ uploads t = []
    /\ images_appended t = images_reported t
    /\ (length (toasts t) + length (images_reported t) = 1)%nat
    /\ omap uploading_set t = [].
Proof.
  intros H. unfold ImageUploadLegacy.uploadOne. rewrite H.
  destruct (up file srv) as [srv' [[] data|reason]]; simpl;
    eexists; (split; [reflexivity|]); repeat split.
Qed.

Lemma legacy_uploadAll_trace (files : list File) (srv : Server) :
  (ImageUploadLegacy.uploadAll up files srv).1
  = foldl (fun s f => (up f s).1) srv (accepted files)
  /\ uploads (ImageUploadLegacy.uploadAll up files srv).2
     = (fun f => (f, None)) <$> accepted files
  /\ images_appended (ImageUploadLegacy.uploadAll up files srv).2
     = images_reported (ImageUploadLegacy.uploadAll up files srv).2
  /\ (length (toasts (ImageUploadLegacy.uploadAll up files srv).2)
      + length (images_reported (ImageUploadLegacy.uploadAll up files srv).2)
      = length files)%nat
  /\ omap uploading_set (ImageUploadLegacy.uploadAll up files srv).2 = [].
Proof.
  revert srv. induction files as [|f files IH]; intros srv.
  - simpl. repeat split.
  - cbn [ImageUploadLegacy.uploadAll]. unfold accepted.
    destruct (rejection f) as [msg|] eqn:Hr.
    + rewrite (legacy_uploadOne_rejected _ _ _ Hr).
      rewrite filter_cons_False by (by rewrite Hr).
      destruct (IH srv) as (H1 & H2 & H3 & H4 & H5).
      destruct (ImageUploadLegacy.uploadAll up files srv) as [s2 t2].
      cbn [fst snd] in *.
      split; [exact H1|]. split; [exact H2|]. split; [exact H3|].
      split; [|exact H5].
      change ([toast_error msg] ++ t2) with (toast_error msg :: t2).
      unfold toasts. rewrite filter_cons_True by done.
      fold (toasts t2).
      change (images_reported (toast_error msg :: t2)) with (images_reported t2).
      simpl. lia.
    + destruct (legacy_uploadOne_accepted f srv Hr) as (t & -> & Hu & Ha & Hn & Hs).
      rewrite filter_cons_True by done.
      destruct (IH (up f srv).1) as (H1 & H2 & H3 & H4 & H5).
      destruct (ImageUploadLegacy.uploadAll up files (up f srv).1) as [s2 t2].
      cbn [fst snd] in *.
      split; [exact H1|].
      change ((fetch_upload f None :: t) ++ t2) with (fetch_upload f None :: (t ++ t2)).
      split; [|split; [|split]].
      * change (uploads (fetch_upload f None :: t ++ t2))
          with ((f, @None jsstring) :: uploads (t ++ t2)).
        rewrite uploads_app, Hu, H2. reflexivity.
      * change (images_appended (fetch_upload f None :: t ++ t2))
          with (images_appended (t ++ t2)).
        change (images_reported (fetch_upload f None :: t ++ t2))
          with (images_reported (t ++ t2)).
        rewrite images_appended_app, images_reported_app, Ha, H3. reflexivity.
      * unfold toasts. rewrite filter_cons_False by (simpl; tauto).
        fold (toasts (t ++ t2)).
        change (images_reported (fetch_upload f None :: t ++ t2))
          with (images_reported (t ++ t2)).
        rewrite toasts_app, images_reported_app, !length_app. simpl. lia.
      * change (omap uploading_set (fetch_upload f None :: t ++ t2))
          with (omap uploading_set (t ++ t2)).
        rewrite omap_app, Hs, H5. reflexivity.
Qed.

End LegacyLoop.

(** X3.  The first version of the component has no capacity check: a batch of
    any size goes through the loop.  Exactly the files that pass the two
    guards are put to the backend, once each and in order, without a user
    id, and the backend is left in the state these requests lead to.
    Every file ends either in one error toast or in one reported name (a
    success shows no toast); the names appended to [uploadedImages] are
    the names reported to the parent, in the same order; and the
    [uploading] flag is down at the end. *)
Theorem legacy_handleFiles_sends_every_accepted_file {Server : Type}
  (up : File -> Server -> Server * fetch_result)
  (files : list File) (srv : Server) (prev : list (option jsstring)) :
  let result := ImageUploadLegacy.handleFiles up files srv in
  uploads result.2 = (fun f => (f, None)) <$> accepted files
  /\ result.1 = foldl (fun s f => (up f s).1) srv (accepted files)
  /\ UploadedImages.uploadedImages prev result.2 = prev ++ images_reported result.2
  /\ (length (toasts result.2) + length (images_reported result.2) = length files)%nat
  /\ last_set uploading_set result.2 = Some false.
Proof.
  intros result. subst result. unfold ImageUploadLegacy.handleFiles.
  destruct (legacy_uploadAll_trace up files srv) as (H1 & H2 & H3 & H4 & H5).
  destruct (ImageUploadLegacy.uploadAll up files srv) as [s t].
  cbn [fst snd] in *.
  assert (Hrep : images_reported (setUploading true :: t ++ [setUploading false])
                 = images_reported t).
  { change (images_reported (setUploading true :: ?l)) with (images_reported l).
    rewrite images_reported_app. apply app_nil_r. }
  split; [|split; [exact H1|split; [|split]]].
  - change (uploads (setUploading true :: ?l)) with (uploads l).
    rewrite uploads_app, H2. apply app_nil_r.
  - rewrite uploadedImages_appended, Hrep. f_equal.
    change (images_appended (setUploading true :: ?l)) with (images_appended l).
    rewrite images_appended_app, H3. apply app_nil_r.
  - rewrite Hrep. unfold toasts. rewrite filter_cons_False by (simpl; tauto).
    fold (toasts (t ++ [setUploading false])). rewrite toasts_app.
    change (toasts [setUploading false]) with (@nil effect).
    rewrite app_nil_r. exact H4.
  - unfold last_set.
    change (omap uploading_set (setUploading true :: ?l)) with (true :: omap uploading_set l).
    rewrite omap_app, H5. reflexivity.
Qed.

(** X4.  Removing an image from the list removes every entry of that name and
    nothing else: the other entries stay, as often and in the order they
    were; the list shrinks by the number of entries of that name; and a
    second removal of the same name changes nothing. *)
Theorem removeImage_removes_every_copy (filename : jsstring)
  (images : list (option jsstring)) :
  (Some filename ∉ UploadedImages.removeImage filename images)
  /\ (forall img, img <> Some filename ->
        filter (fun i => i = img) (UploadedImages.removeImage filename images)
        = filter (fun i => i = img) images)
  /\ (UploadedImages.removeImage filename images) `sublist_of` images
  /\ (length images
      = length (UploadedImages.removeImage filename images)
        + length (filter (fun i => i = Some filename) images))%nat
  /\ UploadedImages.removeImage filename (UploadedImages.removeImage filename images)
     = UploadedImages.removeImage filename images.
Proof.
  unfold UploadedImages.removeImage. split; [|split; [|split; [|split]]].
  - intros [H _]%list_elem_of_filter. by apply H.
  - intros img Hne. apply list_filter_filter_l. by intros x ->.
  - apply sublist_filter.
  - induction images as [|i images IH]; [done|].
    destruct (decide (i = Some filename)) as [->|Hne].
    + rewrite filter_cons_False by (intros H; by apply H).
      rewrite filter_cons_True by done. simpl. lia.
    + rewrite filter_cons_True by done.
      rewrite filter_cons_False by done. simpl. lia.
  - by apply list_filter_filter_l.
Qed.

(** ** The drafts held and the slots shown *)

(** X5.  The number of slots the page shows is the bound of the capacity
    check: a batch gets past the check, and uploading starts, exactly
    when it has at most [remainingSlots] files.  The page says that the
    limit is reached only with exactly ten drafts; with more than ten
    held the number of slots is negative and every batch is refused. *)
Theorem capacity_check_agrees_with_remaining_slots {Server : Type}
  (up : File -> jsstring -> Server -> Server * fetch_result)
  (userId : jsstring) (drafts : list Draft) (files : list File) (srv : Server) :
  (head (ImageUpload.handleFiles up userId drafts files srv).2 = Some (setUploading true)
   <-> (Z.of_nat (length files) <= DraftImages.remainingSlots drafts)%Z)
  /\ (ImageUpload.handleFiles up userId drafts files srv
      = (srv, [toast_error (ImageUpload.capacity_message (length drafts) (length files))])
      <-> (DraftImages.remainingSlots drafts < Z.of_nat (length files))%Z)
  /\ (DraftImages.remainingSlots drafts = 0%Z <-> length drafts = 10%nat)
  /\ ((DraftImages.remainingSlots drafts < 0)%Z <-> (10 < length drafts)%nat).
Proof.
  unfold DraftImages.remainingSlots, ImageUpload.handleFiles.
  destruct (Nat.ltb_spec 10 (length drafts + length files)) as [Hover|Hfits].
  - repeat split; try lia; try done.
  - destruct (ImageUpload.uploadAll up userId files srv) as [s t]. cbn [snd].
    repeat split; try lia; try done.
Qed.

(** X9.  Dropping nothing and selecting nothing.  A drop without files only
    resets the drag state; a change event without a file list does
    nothing.  A file list that is empty does reach [handleFiles]: with at
    most ten drafts held it raises and lowers the [uploading] flag and
    fetches the drafts again, with more it shows the capacity error for
    zero files.  A drop with files does what selecting them does, after
    resetting the drag state. *)
Theorem empty_drop_and_empty_selection {Server : Type}
  (up : File -> jsstring -> Server -> Server * fetch_result)
  (userId : jsstring) (drafts : list Draft) (srv : Server) :
  DraftImages.handleDrop up userId drafts [] srv
  = (srv, [preventDefault; stopPropagation; setDragActive false])
  /\ DraftImages.handleFileInput up userId drafts None srv = (srv, [])
  /\ DraftImages.handleFileInput up userId drafts (Some []) srv
     = (srv,
        if (10 <? length drafts)%nat
        then [eff (toast_error (ImageUpload.capacity_message (length drafts) 0))]
        else [eff (setUploading true); eff (setUploading false); eff refetchDrafts])
  /\ (forall file files,
        DraftImages.handleDrop up userId drafts (file :: files) srv
        = ((DraftImages.handleFileInput up userId drafts (Some (file :: files)) srv).1,
           preventDefault :: stopPropagation :: setDragActive false
           :: (DraftImages.handleFileInput up userId drafts (Some (file :: files)) srv).2)).
Proof.
  split; [reflexivity|]. split; [reflexivity|]. split.
  - unfold DraftImages.handleFileInput, ImageUpload.handleFiles.
    rewrite Nat.add_0_r. by destruct (10 <? length drafts)%nat.
  - intros file files. unfold DraftImages.handleDrop, DraftImages.handleFileInput.
    by destruct (ImageUpload.handleFiles up userId drafts (file :: files) srv).
Qed.

(** X7.  Generating listings.  Without drafts no request is made and the
    backend is not touched; otherwise exactly one request is made, for
    the user of the component, and it names every draft held, once each
    and in the order shown.  Either way exactly one toast is shown, and
    the drafts are fetched again exactly when the backend answered with
    success. *)
Theorem generateListings_names_every_draft {Server : Type}
  (generate : jsstring -> list jsstring -> Server -> Server * response DraftImages.generate_body)
  (userId : jsstring) (drafts : list Draft) (srv : Server) :
  let result := DraftImages.generateListings generate userId drafts srv in
  generations result.2
  = match drafts with [] => [] | _ :: _ => [(userId, filename <$> drafts)] end
  /\ result.1
     = match drafts with
       | [] => srv
       | _ :: _ => (generate userId (filename <$> drafts) srv).1
       end
  /\ length (toasts_of result.2) = 1%nat
  /\ (eff refetchDrafts ∈ result.2
      <-> drafts <> []
          /\ exists data, (generate userId (filename <$> drafts) srv).2 = Answered true data).
Proof.
  intros result. subst result. unfold DraftImages.generateListings.
  destruct drafts as [|d drafts].
  - cbn [length Nat.eqb fst snd].
    split; [reflexivity|]. split; [reflexivity|]. split; [reflexivity|].
    split; [|by intros [? _]].
    intros H. apply list_elem_of_singleton in H. discriminate.
  - cbn [length Nat.eqb].
    destruct (generate userId (filename <$> d :: drafts) srv) as [srv' [[] data|reason]];
      cbn [fst snd];
      (split; [reflexivity|]); (split; [reflexivity|]); (split; [reflexivity|]).
    + split; [intros _; split; [done|by exists data]|].
      intros _. apply elem_of_cons. right. apply elem_of_cons. right.
      apply list_elem_of_singleton. reflexivity.
    + split; [|intros [_ [d' H]]; discriminate].
      intros H. exfalso. repeat (apply elem_of_cons in H as [H|H]; [discriminate|]).
      by apply elem_of_nil in H.
    + split; [|intros [_ [d' H]]; discriminate].
      intros H. exfalso. repeat (apply elem_of_cons in H as [H|H]; [discriminate|]).
      by apply elem_of_nil in H.
Qed.

(** X8.  Deleting a draft makes one DELETE request, to the URL that the
    endpoint table builds from the user id and the file name, shows
    exactly one toast, and fetches the drafts again exactly when the
    backend answered with success. *)
Theorem removeDraft_requests_one_deletion {Server : Type}
  (deleteDraft : jsstring -> Server -> Server * response unit)
  (userId filename : jsstring) (srv : Server) :
  let url := apiEndpoints.deleteDraftImage userId filename in
  let result := DraftImages.removeDraft deleteDraft userId filename srv in
  deletions result.2 = [url]
  /\ result.1 = (deleteDraft url srv).1
  /\ length (toasts_of result.2) = 1%nat
  /\ (eff refetchDrafts ∈ result.2 <-> exists u, (deleteDraft url srv).2 = Answered true u).
Proof.
  intros url result. subst url result. unfold DraftImages.removeDraft.
  destruct (deleteDraft (apiEndpoints.deleteDraftImage userId filename) srv)
    as [srv' [[] data|reason]]; cbn [fst snd];
    (split; [reflexivity|]); (split; [reflexivity|]); (split; [reflexivity|]).
  - split; [intros _; by exists data|].
    intros _. apply elem_of_cons. right. apply elem_of_cons. right.
    apply list_elem_of_singleton. reflexivity.
  - split; [|intros [d' H]; discriminate].
    intros H. exfalso. repeat (apply elem_of_cons in H as [H|H]; [discriminate|]).
    by apply elem_of_nil in H.
  - split; [|intros [d' H]; discriminate].
    intros H. exfalso. repeat (apply elem_of_cons in H as [H|H]; [discriminate|]).
    by apply elem_of_nil in H.
Qed.

(** ** What the constraints of the migration turn away *)

Lemma registered_existsb u db :
  registered u db
  <-> existsb (fun o => sql_eq_true (col o "id") (VText u)) (rows users db) = true.
Proof.
  rewrite existsb_exists. split.
  - intros (r & Hr & Hid). exists r. split; [by apply list_elem_of_In|].
    by apply sql_eq_true_text.
  - intros (r & Hr & Hid). exists r. split; [by apply list_elem_of_In|].
    by apply sql_eq_true_text.
Qed.

Lemma unregistered_existsb u db :
  ~ registered u db
  -> existsb (fun o => sql_eq_true (col o "id") (VText u)) (rows users db) = false.
Proof. intros Hn. apply not_true_is_false. intros H. by apply Hn, registered_existsb. Qed.

(** An insert is turned away when the value of one column breaks a
    constraint of that column. *)
Lemma sql_insert_refused t values db c :
  c ∈ columns_of t ->
  value_violation db (rows t db) c (column_value values (clock db) (fresh_in t db) c)
  <> None ->
  exists e, sql_insert t values db = Err e.
Proof.
  intros Hc Hbroken. unfold sql_insert.
  destruct (unknown_column t _) as [e|]; [by exists e|].
  cbv zeta.
  destruct (row_violation t db (rows t db) (new_row t values db)) as [e|] eqn:Hnone;
    [by exists e|].
  exfalso. apply Hbroken.
  apply row_violation_new_row in Hnone. rewrite Forall_forall in Hnone. by apply Hnone.
Qed.

Lemma exec_insert_refused s t values db c :
  c ∈ columns_of t ->
  value_violation db (rows t db) c (column_value values (clock db) (fresh_in t db) c)
  <> None ->
  exists e, exec s (from_insert t values) db = (db, Err e).
Proof.
  intros Hc Hbroken. rewrite exec_insert.
  destruct (sql_insert_refused t values db c Hc Hbroken) as [e ->]. by exists e.
Qed.

(** X22.  PRIMARY KEY on users.  An insert that gives the identifier of a
    user that is there is turned away with an error and changes nothing.
    This is what stands behind the lookup of the user setup when two
    sessions choose the same identifier. *)
Theorem duplicate_user_id_is_rejected (s : session) (values : row) (u : jsstring)
  (db : Db) :
  values !! "id" = Some (VText u) -> registered u db ->
  exists e, exec s (from_insert users values) db = (db, Err e).
Proof.
  intros Hid Hreg. apply registered_existsb in Hreg.
  apply (exec_insert_refused s users values db (PRIMARY_KEY (column_ "id" TEXT)));
    [apply list_elem_of_here|].
  unfold column_value. cbn [c_name PRIMARY_KEY column_]. rewrite Hid.
  check_value. by rewrite Hreg.
Qed.

Lemma duplicate_user_id_is_rejected_witness :
  UserSetup.new_user (js "u1") !! "id" = Some (VText (js "u1"))
  /\ registered (js "u1") sample_db
  /\ exists e,
       exec anon (from_insert users (UserSetup.new_user (js "u1"))) sample_db
       = (sample_db, Err e).
Proof.
  split; [reflexivity|]. split; [exact u1_registered|].
  apply (duplicate_user_id_is_rejected anon (UserSetup.new_user (js "u1")) (js "u1")
           sample_db); [reflexivity|exact u1_registered].
Defined.

(** X23.  REFERENCES users(id) on listings and ai_usage.  An insert whose
    [user_id] is the identifier of no user is turned away with an error
    and changes nothing. *)
Theorem row_of_unregistered_user_is_rejected (s : session) (t : table_name)
  (values : row) (u : jsstring) (db : Db) :
  t <> users -> values !! "user_id" = Some (VText u) -> ~ registered u db ->
  exists e, exec s (from_insert t values) db = (db, Err e).
Proof.
  intros Ht Hu Hn. apply unregistered_existsb in Hn.
  apply (exec_insert_refused s t values db
           (REFERENCES users "id" CASCADE (column_ "user_id" TEXT))).
  - destruct t; [done| |]; apply list_elem_of_further, list_elem_of_here.
  - unfold column_value. cbn [c_name REFERENCES column_]. rewrite Hu.
    check_value. by rewrite Hn.
Qed.

Lemma nobody_unregistered : ~ registered (js "nobody") sample_db.
Proof.
  rewrite registered_iff, sample_db_users. intros H.
  apply list_elem_of_singleton in H. discriminate H.
Qed.

Lemma row_of_unregistered_user_is_rejected_witness :
  listings <> users
  /\ ({[ "user_id" := VText (js "nobody"); "title" := VText (js "Lamp") ]} : row)
       !! "user_id" = Some (VText (js "nobody"))
  /\ ~ registered (js "nobody") sample_db
  /\ exists e,
       exec anon
         (from_insert listings
            {[ "user_id" := VText (js "nobody"); "title" := VText (js "Lamp") ]})
         sample_db
       = (sample_db, Err e).
Proof.
  split; [discriminate|]. split; [reflexivity|]. split; [exact nobody_unregistered|].
  apply (row_of_unregistered_user_is_rejected anon listings
           {[ "user_id" := VText (js "nobody"); "title" := VText (js "Lamp") ]}
           (js "nobody") sample_db);
    [discriminate|reflexivity|exact nobody_unregistered].
Defined.

Lemma column_value_no_default values now fresh c :
  c_default c = None -> column_value values now fresh c = col values (c_name c).
Proof. intros H. unfold column_value, col. rewrite H. by destruct (values !! c_name c). Qed.

(** X24.  NOT NULL on listings.title and ai_usage.provider.  An insert that
    leaves the column out, or gives NULL for it, is turned away with an
    error and changes nothing. *)
Theorem required_column_is_enforced (s : session) (t : table_name) (c : string)
  (values : row) (db : Db) :
  (t, c) = (listings, "title") \/ (t, c) = (ai_usage, "provider") ->
  col values c = VNull ->
  exists e, exec s (from_insert t values) db = (db, Err e).
Proof.
  intros Htc Hnull.
  apply (exec_insert_refused s t values db (NOT_NULL (column_ c TEXT))).
  - destruct Htc as [[= -> ->]|[= -> ->]];
      do 2 apply list_elem_of_further; apply list_elem_of_here.
  - rewrite column_value_no_default by done.
    cbn [c_name NOT_NULL column_]. rewrite Hnull. by check_value.
Qed.

Lemma required_column_is_enforced_witness :
  ((listings, "title") = (listings, "title")
   \/ (listings, "title") = (ai_usage, "provider"))
  /\ col ({[ "description" := VText (js "A lamp") ]} : row) "title" = VNull
  /\ exists e,
       exec anon (from_insert listings {[ "description" := VText (js "A lamp") ]}) sample_db
       = (sample_db, Err e).
Proof.
  split; [by left|]. split; [reflexivity|].
  apply (required_column_is_enforced anon listings "title"
           {[ "description" := VText (js "A lamp") ]} sample_db); [by left|reflexivity].
Defined.

(** ** What requests keep, and what UPDATE and DELETE leave alone *)

(** X20.  PRIMARY KEY and REFERENCES are invariants of the database: from a
    state in which no two rows of a table share an [id] and every
    [user_id] that is not NULL is the [id] of a user, every sequence of
    selects, inserts, updates and deletes, accepted or turned away, leads
    to such a state again. *)
Theorem every_request_keeps_the_constraints (s : session) (reqs : list request)
  (db : Db) :
  consistent db -> consistent (exec_all s reqs db).
Proof.
  unfold exec_all. revert db. induction reqs as [|req reqs IH]; intros db Hdb; [done|].
  simpl. apply IH. by apply consistent_exec.
Qed.

Lemma every_request_keeps_the_constraints_witness :
  consistent sample_db
  /\ consistent
       (exec_all anon
          [from_update users {[ "id" := VText (js "u2") ]} [("id", VText (js "u1"))];
           from_insert listings {[ "user_id" := VText (js "nobody") ]};
           from_delete users [("id", VText (js "u1"))]]
          sample_db).
Proof.
  split; [exact consistent_sample_db|].
  apply (every_request_keeps_the_constraints anon
           [from_update users {[ "id" := VText (js "u2") ]} [("id", VText (js "u1"))];
            from_insert listings {[ "user_id" := VText (js "nobody") ]};
            from_delete users [("id", VText (js "u1"))]]
           sample_db).
  exact consistent_sample_db.
Defined.

Lemma filter_ext_elem {A} (P Q : A -> Prop) `{forall x, Decision (P x)}
  `{forall x, Decision (Q x)} (l : list A) :
  (forall x, x ∈ l -> P x <-> Q x) -> filter P l = filter Q l.
Proof.
  induction l as [|x l IH]; intros Hl; [done|].
  rewrite !filter_cons, IH by (intros y Hy; apply Hl; by right).
  destruct (decide (P x)) as [HP|HP], (decide (Q x)) as [HQ|HQ]; try done.
  - exfalso. apply HQ, Hl; [by left|done].
  - exfalso. apply HP, Hl; [by left|done].
Qed.

Lemma owned_by_the_deleted u db t r :
  references_hold db -> t <> users -> r ∈ rows t db ->
  negb (owned_by_one_of (filter (fun p => col p "id" = VText u) (rows users db)) r) = true
  <-> col r "user_id" <> VText u.
Proof.
  intros Href Ht Hr. rewrite negb_true_iff. split.
  - intros Hnot Hu.
    destruct (owner_registered db t r u Href Ht Hr Hu) as (p & Hp & Hid).
    apply not_true_iff_false in Hnot. apply Hnot.
    unfold owned_by_one_of. apply existsb_exists. exists p. split.
    + apply list_elem_of_In, list_elem_of_filter. by split.
    + rewrite Hu, Hid. by apply sql_eq_true_refl.
  - intros Hne. apply not_true_is_false.
    unfold owned_by_one_of. intros (g & Hg & Heq)%existsb_exists.
    apply list_elem_of_In, list_elem_of_filter in Hg as [Hid _].
    apply sql_eq_true_eq in Heq. congruence.
Qed.

(** X25.  ON DELETE CASCADE takes the rows of the deleted user and no others.
    In a state that satisfies the foreign keys, deleting user [u] leaves
    in every table exactly the rows that are not [u]'s, in the order they
    had: the other users, their listings and usage records, and the rows
    without owner. *)
Theorem deleting_a_user_removes_nothing_else (s : session) (u : jsstring) (db : Db)
  (t : table_name) :
  references_hold db ->
  rows t (exec s (from_delete users [("id", VText u)]) db).1
  = filter (fun r => col r (owner_column t) <> VText u) (rows t db).
Proof.
  intros Href. rewrite exec_delete_user. cbn [fst].
  destruct t; cbn [rows t_users t_listings t_ai_usage owner_column]; [reflexivity| |].
  - apply filter_ext_elem. intros r Hr.
    rewrite <- (owned_by_the_deleted u db listings r Href) by done.
    cbn [rows]. by destruct (negb _).
  - apply filter_ext_elem. intros r Hr.
    rewrite <- (owned_by_the_deleted u db ai_usage r Href) by done.
    cbn [rows]. by destruct (negb _).
Qed.

Lemma deleting_a_user_removes_nothing_else_witness :
  references_hold sample_db
  /\ rows listings (exec anon (from_delete users [("id", VText (js "u1"))]) sample_db).1
     = filter (fun r => col r (owner_column listings) <> VText (js "u1"))
         (rows listings sample_db).
Proof.
  split; [exact (proj2 consistent_sample_db)|].
  apply (deleting_a_user_removes_nothing_else anon (js "u1") sample_db listings).
  exact (proj2 consistent_sample_db).
Defined.

Lemma update_target_policies s t cond r : update_target policies s t cond r = cond r.
Proof. unfold update_target. by rewrite visible_policies. Qed.

Lemma col_union (changes r : row) (c : string) :
  col (changes ∪ r) c = default (col r c) (changes !! c).
Proof.
  unfold col. rewrite lookup_union.
  by destruct (changes !! c), (r !! c).
Qed.

(** The columns of the row that an UPDATE makes of [r]. *)
Lemma col_revise t changes db r c :
  col (revise t changes db r) c
  = if update_trigger t && bool_decide (c = "updated_at")
    then VTime (clock db)
    else default (col r c) (changes !! c).
Proof.
  unfold revise. destruct (update_trigger t); cbn [andb]; [|apply col_union].
  case_bool_decide as Hc.
  - subst c. unfold col. by rewrite lookup_insert_eq.
  - unfold col at 1. rewrite lookup_insert_ne by done. apply col_union.
Qed.

Lemma exec_update_Ok s t changes eqs db changed :
  (exec s (from_update t changes eqs) db).2 = Ok changed ->
  rls_update policies s t changes (matches eqs) db
  = Ok ((exec s (from_update t changes eqs) db).1, changed).
Proof.
  unfold exec, exec_with. destruct (unknown_column t eqs.*1); [done|].
  destruct (rls_update policies s t changes (matches eqs) db) as [[db' ch]|e]; [|done].
  cbn [fst snd]. by intros [= ->].
Qed.

(** X26.  BEFORE UPDATE trigger.  An UPDATE that is accepted changes the rows
    that match its filters and no others: the table keeps its rows in
    their places, the other tables are as they were.  In a changed row
    every column named in the request has the value given and every other
    column keeps its value, except that on users and listings
    [updated_at] is set to the time of the statement, also when the
    request gives a value for it; ai_usage has no such trigger.  The
    rows returned are the changed rows, and the clock has moved on. *)
Theorem update_stamps_the_rows_it_changes (s : session) (t : table_name)
  (changes : row) (eqs : list (string * sqlval)) (db : Db) (changed : list row) :
  (exec s (from_update t changes eqs) db).2 = Ok changed ->
  let db' := (exec s (from_update t changes eqs) db).1 in
  rows t db'
  = (fun r => if matches eqs r then revise t changes db r else r) <$> rows t db
  /\ changed = revise t changes db <$> filter (fun r => matches eqs r) (rows t db)
  /\ (forall t', t' <> t -> rows t' db' = rows t' db)
  /\ (forall r c,
        col (revise t changes db r) c
        = if update_trigger t && bool_decide (c = "updated_at")
          then VTime (clock db)
          else default (col r c) (changes !! c))
  /\ update_trigger <$> [users; listings; ai_usage] = [true; true; false]
  /\ clock db < clock db'.
Proof.
  intros Hok db'. subst db'. apply exec_update_Ok in Hok.
  apply rls_update_inv in Hok as (-> & -> & _).
  split; [|split; [|split; [|split; [|split]]]].
  - rewrite rows_with_rows. apply list_fmap_ext. intros i r _.
    unfold revised. by rewrite update_target_policies.
  - f_equal. apply list_filter_iff. intros r. by rewrite update_target_policies.
  - intros t' Hne. rewrite rows_with_rows_ne by done. apply rows_tick.
  - intros r c. apply col_revise.
  - reflexivity.
  - destruct t; simpl; lia.
Qed.

Lemma update_stamps_the_rows_it_changes_witness :
  let changes : row :=
    {[ "status" := VText (js "active"); "updated_at" := VTime 0 ]} in
  let eqs := [("user_id", VText (js "u1"))] in
  let changed :=
    revise listings changes sample_db
      <$> filter (fun r => matches eqs r) (rows listings sample_db) in
  (exec anon (from_update listings changes eqs) sample_db).2 = Ok changed
  /\ let db' := (exec anon (from_update listings changes eqs) sample_db).1 in
     rows listings db'
     = (fun r => if matches eqs r then revise listings changes sample_db r else r)
         <$> rows listings sample_db
     /\ changed
        = revise listings changes sample_db
            <$> filter (fun r => matches eqs r) (rows listings sample_db)
     /\ (forall t', t' <> listings -> rows t' db' = rows t' sample_db)
     /\ (forall r c,
           col (revise listings changes sample_db r) c
           = if update_trigger listings && bool_decide (c = "updated_at")
             then VTime (clock sample_db)
             else default (col r c) (changes !! c))
     /\ update_trigger <$> [users; listings; ai_usage] = [true; true; false]
     /\ clock sample_db < clock db'.
Proof.
  intros changes eqs changed.
  assert ((exec anon (from_update listings changes eqs) sample_db).2 = Ok changed) as Hok.
  { apply (bool_decide_unpack _). vm_compute. exact I. }
  split; [exact Hok|].
  exact (update_stamps_the_rows_it_changes anon listings changes eqs sample_db changed Hok).
Defined.

(** X27.  A user that rows point at cannot be given another identifier.  The
    foreign keys declare no action for an update of the key, so an UPDATE
    that would change the [id] of a user who has a listing or a usage
    record is turned away, and nothing changes. *)
Theorem referenced_user_cannot_be_renamed (s : session) (changes : row)
  (u v : jsstring) (db : Db) (t : table_name) (r : row) :
  changes !! "id" = Some (VText v) -> u <> v -> registered u db ->
  t <> users -> r ∈ rows t db -> col r "user_id" = VText u ->
  exists e, exec s (from_update users changes [("id", VText u)]) db = (db, Err e).
Proof.
  intros Hv Huv Hreg Ht Hr Hu. unfold exec, exec_with.
  assert (unknown_column users [("id", VText u)].*1 = None) as -> by reflexivity.
  destruct (rls_update policies s users changes (matches [("id", VText u)]) db)
    as [[db' changed]|e] eqn:Hup; [exfalso|by exists e].
  apply rls_update_inv in Hup as (-> & _ & _ & _ & Hin).
  rewrite referencing_users in Hin.
  assert (forall c fk,
            c = REFERENCES users "id" CASCADE (column_ "user_id" TEXT) ->
            fk = {| fk_table := users; fk_column := "id"; on_delete := CASCADE |} ->
            (forall r', r' ∈ rows t db ->
               dangling c fk
                 (revised policies s users changes (matches [("id", VText u)]) db
                    <$> rows users db) r' = true ->
               dangling c fk (rows users db) r' = true) ->
            False) as Hno.
  { intros c fk -> -> Hall.
    assert (dangling (REFERENCES users "id" CASCADE (column_ "user_id" TEXT))
              {| fk_table := users; fk_column := "id"; on_delete := CASCADE |}
              (rows users db) r = true) as Hd.
    { apply Hall; [exact Hr|]. unfold dangling.
      cbn [c_name fk_column REFERENCES column_]. rewrite Hu. cbn [is_null negb andb].
      apply negb_true_iff, not_true_is_false.
      intros (p' & Hp' & Heq)%existsb_exists.
      apply list_elem_of_In, list_elem_of_fmap in Hp' as (p & -> & Hp).
      apply sql_eq_true_text in Heq. revert Heq.
      unfold revised. rewrite update_target_policies.
      destruct (matches [("id", VText u)] p) eqn:Hm.
      - rewrite col_revise. cbn [update_trigger andb].
        rewrite bool_decide_eq_false_2 by discriminate. rewrite Hv.
        change (default (col p "id") (Some (VText v))) with (VText v). congruence.
      - intros Hid. apply matches_owner in Hid. congruence. }
    revert Hd. unfold dangling. cbn [c_name fk_column REFERENCES column_].
    rewrite Hu. cbn [is_null negb andb].
    apply registered_existsb in Hreg. rewrite Hreg. done. }
  apply Forall_cons in Hin as [Hl Hin]. apply Forall_cons in Hin as [Ha _].
  destruct t; [done| |].
  - apply (Hno _ _ eq_refl eq_refl). intros r' Hr'. apply Hl.
    rewrite rows_with_rows_ne by done. by rewrite rows_tick.
  - apply (Hno _ _ eq_refl eq_refl). intros r' Hr'. apply Ha.
    rewrite rows_with_rows_ne by done. by rewrite rows_tick.
Qed.

Lemma referenced_user_cannot_be_renamed_witness :
  let r : row := default ∅ (rows listings sample_db !! 0%nat) in
  ({[ "id" := VText (js "u2") ]} : row) !! "id" = Some (VText (js "u2"))
  /\ js "u1" <> js "u2"
  /\ registered (js "u1") sample_db
  /\ listings <> users
  /\ r ∈ rows listings sample_db
  /\ col r "user_id" = VText (js "u1")
  /\ exists e,
       exec anon (from_update users {[ "id" := VText (js "u2") ]} [("id", VText (js "u1"))])
         sample_db
       = (sample_db, Err e).
Proof.
  intros r.
  assert (rows listings sample_db !! 0%nat = Some r) as Hlookup.
  { apply (bool_decide_unpack _). vm_compute. exact I. }
  assert (r ∈ rows listings sample_db) as Hr.
  { apply (list_elem_of_lookup_2 _ 0%nat). exact Hlookup. }
  assert (col r "user_id" = VText (js "u1")) as Hu.
  { apply (bool_decide_unpack _). vm_compute. exact I. }
  assert (js "u1" <> js "u2") as Hne by discriminate.
  assert (listings <> users) as Ht by discriminate.
  refine (conj eq_refl (conj Hne (conj u1_registered (conj Ht (conj Hr (conj Hu _)))))).
  exact (referenced_user_cannot_be_renamed anon {[ "id" := VText (js "u2") ]}
           (js "u1") (js "u2") sample_db listings r eq_refl Hne u1_registered Ht Hr Hu).
Defined.

(** ** The user setup: what one submission can do *)

Lemma single_Some_project columns (l : list row) (x : row) :
  single (Ok (project columns <$> l)) = Some x -> exists r, l = [r].
Proof. destruct l as [|r [|r' l]]; [done| |done]. intros _. by exists r. Qed.

Lemma col_new_row_id_users values db :
  col (new_row users values db) "id"
  = column_value values (clock db) (fresh_in users db) (PRIMARY_KEY (column_ "id" TEXT)).
Proof.
  change "id" with (c_name (PRIMARY_KEY (column_ "id" TEXT))) at 1.
  apply col_new_row. apply list_elem_of_here.
Qed.

(** What an accepted insert of the object of the user setup has stored. *)
Lemma new_user_insert_inv id db db' r :
  sql_insert users (UserSetup.new_user id) db = Ok (db', r) ->
  db' = with_rows users (rows users db ++ [r]) (tick db)
  /\ col r "id" = VText id
  /\ ~ registered id db.
Proof.
  intros Hins. destruct (sql_insert_inv _ _ _ _ _ Hins) as (Hr & Hdb & Hcols).
  assert (col r "id" = VText id) as Hid.
  { rewrite Hr, col_new_row_id_users. reflexivity. }
  split; [exact Hdb|]. split; [exact Hid|].
  rewrite Forall_forall in Hcols.
  assert (PRIMARY_KEY (column_ "id" TEXT) ∈ columns_of users) as Hc
    by apply list_elem_of_here.
  destruct (pk_checked db (rows users db) r (PRIMARY_KEY (column_ "id" TEXT)) eq_refl
              (Hcols _ Hc)) as [_ Hfree].
  cbn [c_name PRIMARY_KEY column_] in Hfree. rewrite Hid in Hfree.
  intros Hreg. apply registered_existsb in Hreg. congruence.
Qed.

(** X12.  One submission of the form does at most this: it adds one row to
    users, for the trimmed identifier and only when no row has it.  It
    never changes or removes a row of users, and never touches listings
    or ai_usage.  It always shows exactly one toast; once it has raised
    the loading flag it lowers it again; and an identifier that it hands
    to [onUserCreated] is the trimmed input, is not empty, and has a row
    in users when the handler returns.  None of this depends on the state
    of the database. *)
Theorem handleCreateUser_only_adds_one_user (userId : jsstring) (db : Db) :
  let result := UserSetup.handleCreateUser userId db in
  rows listings result.1 = rows listings db
  /\ rows ai_usage result.1 = rows ai_usage db
  /\ (rows users result.1 = rows users db
      \/ exists r, rows users result.1 = rows users db ++ [r]
                   /\ col r "id" = VText (trim userId)
                   /\ ~ registered (trim userId) db)
  /\ length (toasts result.2) = 1%nat
  /\ last_set isLoading_set result.2 = (if truthy (trim userId) then Some false else None)
  /\ (forall id, id ∈ users_created result.2 ->
        id = trim userId /\ id <> [] /\ registered id result.1).
Proof.
  intros result.
  assert (result = UserSetup.handleCreateUser userId db) as Hres by reflexivity.
  clearbody result. unfold UserSetup.handleCreateUser in Hres.
  destruct (trim userId) as [|c rest] eqn:Htrim.
  { cbn [truthy negb] in Hres. subst result. cbn [truthy negb fst snd].
    split; [reflexivity|]. split; [reflexivity|]. split; [by left|].
    split; [reflexivity|]. split; [reflexivity|].
    intros id' Hid. apply elem_of_nil in Hid. destruct Hid. }
  cbn [truthy negb] in Hres. cbv iota in Hres.
  unfold UserSetup.existing_user at 1 in Hres. rewrite exec_select in Hres by done.
  cbn [ordered] in Hres.
  destruct (single _) as [x|] eqn:Hsingle.
  - apply single_Some_project in Hsingle as (r0 & Hfound).
    subst result. cbn [fst snd truthy].
    split; [reflexivity|]. split; [reflexivity|]. split; [by left|].
    split; [reflexivity|]. split; [reflexivity|].
    intros id' Hid.
    change (users_created _) with [c :: rest] in Hid.
    apply list_elem_of_singleton in Hid as ->.
    split; [reflexivity|]. split; [discriminate|].
    exists r0.
    assert (r0 ∈ filter (fun r : row => matches [("id", VText (c :: rest))] r)
                   (rows users db)) as Hin.
    { rewrite Hfound. apply list_elem_of_here. }
    apply list_elem_of_filter in Hin as [Hm Hin]. split; [exact Hin|].
    by apply matches_owner, Is_true_true.
  - clear Hsingle. rewrite exec_insert in Hres.
    destruct (sql_insert users (UserSetup.new_user (c :: rest)) db) as [[db2 r]|e] eqn:Hins.
    + destruct (new_user_insert_inv _ _ _ _ Hins) as (-> & Hid & Hfree).
      cbn [length] in Hres. rewrite bool_decide_eq_true_2 in Hres by lia.
      subst result. cbn [fst snd truthy].
      split; [by rewrite rows_with_rows_ne, rows_tick|].
      split; [by rewrite rows_with_rows_ne, rows_tick|].
      split; [right; exists r; rewrite rows_with_rows; exact (conj eq_refl (conj Hid Hfree))|].
      split; [reflexivity|]. split; [reflexivity|].
      intros id' Hin.
      change (users_created _) with [c :: rest] in Hin.
      apply list_elem_of_singleton in Hin as ->.
      split; [reflexivity|]. split; [discriminate|].
      exists r. split; [|exact Hid].
      rewrite rows_with_rows. apply elem_of_app. right. apply list_elem_of_here.
    + subst result. cbn [fst snd truthy].
      split; [reflexivity|]. split; [reflexivity|]. split; [by left|].
      split; [reflexivity|]. split; [reflexivity|].
      intros id' Hin. change (users_created _) with (@nil jsstring) in Hin.
      apply elem_of_nil in Hin. destruct Hin.
Qed.

(** ** The dashboard: the listings loaded and the figures shown *)

Lemma text_leb_total (a b : jsstring) : text_leb a b = true \/ text_leb b a = true.
Proof.
  revert b. induction a as [|x a IH]; intros [|y b]; simpl; auto.
  destruct (N.lt_trichotomy x y) as [Hlt|[->|Hgt]].
  - left. apply N.ltb_lt in Hlt. by rewrite Hlt.
  - rewrite N.ltb_irrefl, N.eqb_refl. simpl. apply IH.
  - right. apply N.ltb_lt in Hgt. by rewrite Hgt.
Qed.

Lemma sql_leb_total (a b : sqlval) : sql_leb a b = true \/ sql_leb b a = true.
Proof.
  destruct a, b; simpl; auto.
  - apply text_leb_total.
  - destruct (N.le_ge_cases u u0) as [H|H]; apply N.leb_le in H; auto.
  - destruct b, b0; auto.
  - destruct (Z.le_ge_cases z z0) as [H|H]; apply Z.leb_le in H; auto.
  - destruct (Z.le_ge_cases units units0) as [H|H]; apply Z.leb_le in H; auto.
  - destruct (N.le_ge_cases t t0) as [H|H]; apply N.leb_le in H; auto.
Qed.

Lemma Sorted_weaken {A} (R R' : A -> A -> Prop) (l : list A) :
  (forall x y, R x y -> R' x y) -> Sorted R l -> Sorted R' l.
Proof.
  intros HR. induction 1 as [|x l Hs IH Hhd]; constructor; [exact IH|].
  destruct Hhd; constructor. by apply HR.
Qed.

(** The rows that the select of the dashboard returns. *)
Lemma loadListings_data userId db :
  Dashboard.loadListings userId db
  = [supabase (Dashboard.listings_of userId);
     setListings
       (ordered (Some ("created_at", false))
          (filter (fun r => col r "user_id" = VText userId) (rows listings db)));
     setIsLoading false].
Proof.
  unfold Dashboard.loadListings, Dashboard.listings_of.
  rewrite exec_select by done. cbn [snd].
  change (project None) with (@id row). rewrite list_fmap_id.
  change ([setListings ?d] ++ [setIsLoading false]) with [setListings d; setIsLoading false].
  do 4 f_equal. apply list_filter_iff. intros r.
  rewrite <- matches_owner. by destruct (matches _ r).
Qed.

Lemma ordered_created_at (l : list row) :
  ordered (Some ("created_at", false)) l ≡ₚ l
  /\ Sorted newer_first (ordered (Some ("created_at", false)) l).
Proof.
  cbn [ordered]. split; [apply merge_sort_Permutation|].
  eapply Sorted_weaken; [|apply Sorted_merge_sort].
  - intros x y H. by apply Is_true_true.
  - intros x y. destruct (sql_leb_total (col y "created_at") (col x "created_at")) as [H|H];
      [left|right]; by apply Is_true_true.
Qed.

(** X16.  Loading the listings never fails, whatever the database holds: the
    dashboard is given exactly the listings whose [user_id] is the user's,
    each once, ordered by [created_at] with the newest first, and the
    loading flag is lowered.  The total shown is their number, and the
    number shown as active is at most the total. *)
Theorem loadListings_shows_the_listings_of_the_user (userId : jsstring) (db : Db) :
  exists data,
    Dashboard.loadListings userId db
    = [supabase (Dashboard.listings_of userId); setListings data; setIsLoading false]
    /\ data ≡ₚ filter (fun r => col r "user_id" = VText userId) (rows listings db)
    /\ Sorted newer_first data
    /\ DashboardView.listings_shown [] (Dashboard.loadListings userId db) = data
    /\ (DashboardView.active_listings data <= DashboardView.total_listings data)%nat.
Proof.
  eexists. split; [apply loadListings_data|].
  destruct (ordered_created_at
              (filter (fun r => col r "user_id" = VText userId) (rows listings db)))
    as [Hperm Hsorted].
  split; [exact Hperm|]. split; [exact Hsorted|]. split.
  - rewrite loadListings_data. reflexivity.
  - apply length_filter.
Qed.

Lemma exec_insert_Ok s t values db r :
  (exec s (from_insert t values) db).2 = Ok [r] ->
  sql_insert t values db = Ok ((exec s (from_insert t values) db).1, r).
Proof.
  rewrite exec_insert. destruct (sql_insert t values db) as [[db' r']|e]; [|done].
  cbn [fst snd]. by intros [= ->].
Qed.

Lemma col_new_row_listings values db c :
  c ∈ listings_columns ->
  col (new_row listings values db) (c_name c)
  = column_value values (clock db) (fresh_in listings db) c.
Proof. apply (col_new_row listings). Qed.

(** X17.  A listing that is stored without a status is a draft: after the
    insert the dashboard of its owner shows one listing more in the
    total, and the same number of active listings as before. *)
Theorem new_listing_is_counted_but_not_active (s : session) (values : row)
  (u : jsstring) (db : Db) (r : row) :
  values !! "status" = None -> values !! "user_id" = Some (VText u) ->
  (exec s (from_insert listings values) db).2 = Ok [r] ->
  let db' := (exec s (from_insert listings values) db).1 in
  let before := DashboardView.listings_shown [] (Dashboard.loadListings u db) in
  let after := DashboardView.listings_shown [] (Dashboard.loadListings u db') in
  col r "status" = VText (js "draft")
  /\ after ≡ₚ before ++ [r]
  /\ DashboardView.total_listings after = S (DashboardView.total_listings before)
  /\ DashboardView.active_listings after = DashboardView.active_listings before.
Proof.
  intros Hstatus Hu Hok db' before after. subst db' before after.
  apply exec_insert_Ok in Hok.
  destruct (sql_insert_inv _ _ _ _ _ Hok) as (Hr & Hdb & _).
  assert (col r "status" = VText (js "draft")) as Hdraft.
  { rewrite Hr.
    change "status"
      with (c_name (DEFAULT (Literal (VText (js "draft"))) (column_ "status" TEXT))) at 1.
    rewrite col_new_row_listings.
    - unfold column_value. cbn [c_name DEFAULT column_]. by rewrite Hstatus.
    - unfold listings_columns. do 16 apply list_elem_of_further. apply list_elem_of_here. }
  assert (col r "user_id" = VText u) as Howner.
  { rewrite Hr.
    change "user_id"
      with (c_name (REFERENCES users "id" CASCADE (column_ "user_id" TEXT))) at 1.
    rewrite col_new_row_listings.
    - unfold column_value. cbn [c_name REFERENCES column_]. by rewrite Hu.
    - unfold listings_columns. apply list_elem_of_further. apply list_elem_of_here. }
  rewrite !loadListings_data. cbn [DashboardView.listings_shown foldl].
  rewrite Hdb, rows_with_rows, filter_app, filter_cons_True, filter_nil by done.
  set (mine := filter (fun r0 : row => col r0 "user_id" = VText u) (rows listings db)).
  destruct (ordered_created_at (mine ++ [r])) as [Hafter _].
  destruct (ordered_created_at mine) as [Hbefore _].
  assert (ordered (Some ("created_at", false)) (mine ++ [r])
          ≡ₚ ordered (Some ("created_at", false)) mine ++ [r]) as Hperm.
  { rewrite Hafter, Hbefore. reflexivity. }
  split; [exact Hdraft|]. split; [exact Hperm|].
  unfold DashboardView.total_listings, DashboardView.active_listings.
  rewrite Hperm, filter_app, !length_app.
  rewrite filter_cons_False by (rewrite Hdraft; discriminate).
  simpl. split; lia.
Qed.

Lemma new_listing_is_counted_but_not_active_witness :
  let values : row := {[ "user_id" := VText (js "u1"); "title" := VText (js "Lamp") ]} in
  let r := new_row listings values sample_db in
  values !! "status" = None
  /\ values !! "user_id" = Some (VText (js "u1"))
  /\ (exec anon (from_insert listings values) sample_db).2 = Ok [r]
  /\ let db' := (exec anon (from_insert listings values) sample_db).1 in
     let before :=
       DashboardView.listings_shown [] (Dashboard.loadListings (js "u1") sample_db) in
     let after := DashboardView.listings_shown [] (Dashboard.loadListings (js "u1") db') in
     col r "status" = VText (js "draft")
     /\ after ≡ₚ before ++ [r]
     /\ DashboardView.total_listings after = S (DashboardView.total_listings before)
     /\ DashboardView.active_listings after = DashboardView.active_listings before.
Proof.
  intros values r.
  assert ((exec anon (from_insert listings values) sample_db).2 = Ok [r]) as Hok.
  { apply (bool_decide_unpack _). vm_compute. exact I. }
  refine (conj eq_refl (conj eq_refl (conj Hok _))).
  exact (new_listing_is_counted_but_not_active anon values (js "u1") sample_db r
           eq_refl eq_refl Hok).
Defined.

(** ** The page: who is signed in *)

Lemma signed_in_currentUser (st : Index.state) :
  Index.signed_in st
  = match Index.currentUser st with
    | Some u => if truthy u then Some u else None
    | None => None
    end.
Proof.
  unfold Index.signed_in, Index.render.
  destruct (Index.currentUser st) as [u|]; [destruct (truthy u)|];
    by destruct (Index.showSetup st).
Qed.

Lemma signed_in_opened (localStorage : Index.Storage) :
  Index.signed_in (Index.opened localStorage).1
  = match localStorage !! Index.storage_key with
    | Some u => if truthy u then Some u else None
    | None => None
    end.
Proof.
  rewrite signed_in_currentUser. unfold Index.opened, Index.useEffect. cbn [fst].
  destruct (localStorage !! Index.storage_key) as [u|]; [|done].
  by destruct (truthy u) eqn:Hu; cbn; rewrite ?Hu.
Qed.

(** What every step keeps: the storage names the user whose dashboard is
    shown, and the keys of other applications are as they were. *)
Lemma step_keeps_agreement (ev : Index.event) (now : Index.state * Index.Storage)
  (localStorage : Index.Storage) :
  Index.signed_in (Index.opened now.2).1 = Index.signed_in now.1
  /\ (forall k, k <> Index.storage_key -> now.2 !! k = localStorage !! k) ->
  Index.signed_in (Index.opened (Index.step ev now).2).1
  = Index.signed_in (Index.step ev now).1
  /\ (forall k, k <> Index.storage_key -> (Index.step ev now).2 !! k = localStorage !! k).
Proof.
  destruct now as [st ls]. cbn [fst snd]. intros [Hagree Hkeys].
  rewrite signed_in_opened in Hagree. rewrite signed_in_currentUser in Hagree.
  destruct ev as [u|[u|]| | |]; cbn [Index.step fst snd Index.handleUserCreated
                                      Index.handleUserChange];
    rewrite ?signed_in_opened, ?signed_in_currentUser;
    cbn [Index.setCurrentUser Index.setShowSetup Index.currentUser].
  - rewrite lookup_insert_eq. split; [done|].
    intros k Hk. rewrite lookup_insert_ne by done. by apply Hkeys.
  - destruct (truthy u) eqn:Htruthy.
    + rewrite lookup_insert_eq, Htruthy. split; [done|].
      intros k Hk. rewrite lookup_insert_ne by done. by apply Hkeys.
    + rewrite lookup_delete_eq. split; [done|].
      intros k Hk. rewrite lookup_delete_ne by done. by apply Hkeys.
  - rewrite lookup_delete_eq. split; [done|].
    intros k Hk. rewrite lookup_delete_ne by done. by apply Hkeys.
  - by split.
  - by split.
  - split; [|done]. rewrite <- signed_in_currentUser, <- signed_in_opened. reflexivity.
Qed.

(** X13.  The storage and the page agree at all times.  However the page was
    opened and whatever happened on it since (users created or changed
    through its callbacks, its buttons pressed, the document loaded
    again), opening the page on the storage as it is now shows the
    dashboard of the same user as the page shows now, or no dashboard if
    it shows none.  And the page writes to its own key only: every other
    key of the storage has the value it had. *)
Theorem reload_keeps_who_is_signed_in (localStorage : Index.Storage)
  (events : list Index.event) :
  let now := Index.run events (Index.opened localStorage) in
  Index.signed_in (Index.opened now.2).1 = Index.signed_in now.1
  /\ (forall k, k <> Index.storage_key -> now.2 !! k = localStorage !! k).
Proof.
  intros now. subst now. unfold Index.run.
  assert (Index.signed_in (Index.opened (Index.opened localStorage).2).1
          = Index.signed_in (Index.opened localStorage).1
          /\ (forall k, k <> Index.storage_key ->
                (Index.opened localStorage).2 !! k = localStorage !! k)) as Hstart.
  { by split. }
  revert Hstart. generalize (Index.opened localStorage).
  induction events as [|ev events IH]; intros now Hnow; [exact Hnow|].
  cbn [foldl]. apply IH. by apply step_keeps_agreement.
Qed.

(** ** Signing up, from the form to the dashboard *)

Lemma handleCreateUser_after userId db :
  trim userId <> [] -> key_unique users db ->
  key_unique users (UserSetup.handleCreateUser userId db).1
  /\ registered (trim userId) (UserSetup.handleCreateUser userId db).1
  /\ users_created (UserSetup.handleCreateUser userId db).2 = [trim userId]
  /\ (~ registered (trim userId) db ->
      exists r, r ∈ rows users (UserSetup.handleCreateUser userId db).1
                /\ col r "id" = VText (trim userId)
                /\ col r "name" = VText (trim userId)
                /\ col r "ai_provider" = VNull).
Proof.
  intros Ht Hk. destruct (registered_dec (trim userId) db) as [Hreg|Hnew].
  - rewrite (handleCreateUser_registered userId db Ht Hk Hreg). cbn [fst snd].
    split; [exact Hk|]. split; [exact Hreg|]. split; [reflexivity|]. by intros ?.
  - destruct (handleCreateUser_new userId db Ht Hnew) as (r & -> & Hins & Hid & Hname & _).
    cbn [fst snd].
    assert (r ∈ rows users (with_rows users (rows users db ++ [r]) (tick db))) as Hr.
    { rewrite rows_with_rows. apply elem_of_app. right. apply list_elem_of_here. }
    split; [exact (key_unique_insert _ _ _ _ _ users Hins Hk)|].
    split; [exists r; exact (conj Hr Hid)|]. split; [reflexivity|].
    intros _. exists r. split; [exact Hr|]. split; [exact Hid|]. split; [exact Hname|].
    destruct (sql_insert_inv _ _ _ _ _ Hins) as (-> & _ & _).
    change "ai_provider" with (c_name (column_ "ai_provider" TEXT)).
    rewrite col_new_row; [reflexivity|].
    do 3 apply list_elem_of_further. apply list_elem_of_here.
Qed.

(** The row of a registered user is what the dashboard loads. *)
Lemma loadUserData_registered userId db r :
  key_unique users db -> r ∈ rows users db -> col r "id" = VText userId ->
  DashboardView.loadUserData userId db
  = [eff (supabase (DashboardView.user_data userId)); setUserData r].
Proof.
  intros Hk Hr Hid. unfold DashboardView.loadUserData, DashboardView.user_data.
  rewrite exec_select by done. cbn [snd ordered].
  change (project None) with (@id row). rewrite list_fmap_id.
  assert (filter (fun r0 : row => matches [("id", VText userId)] r0) (rows users db) = [r])
    as ->; [|reflexivity].
  rewrite <- (filter_unique_key (fun r => col r "id") (rows users db) r Hk Hr).
  apply list_filter_iff. intros r0. rewrite Hid, <- matches_owner.
  by destruct (matches _ r0).
Qed.

Lemma submit_reports userId now db :
  users_created (UserSetup.handleCreateUser userId db).2 = [trim userId] ->
  Index.submit userId now db
  = (Index.step (Index.UserCreated (trim userId)) now,
     (UserSetup.handleCreateUser userId db).1).
Proof.
  intros H. unfold Index.submit.
  destruct (UserSetup.handleCreateUser userId db) as [db' trace].
  cbn [fst snd] in *. by rewrite H.
Qed.

Lemma step_UserCreated u now :
  u <> [] ->
  Index.render (Index.step (Index.UserCreated u) now).1 = Index.DashboardPage u
  /\ (Index.step (Index.UserCreated u) now).2 !! Index.storage_key = Some u
  /\ Index.signed_in (Index.opened (Index.step (Index.UserCreated u) now).2).1 = Some u.
Proof.
  intros Hu. destruct now as [st ls]. destruct u as [|c u]; [done|].
  cbn [Index.step Index.handleUserCreated fst snd].
  split; [reflexivity|]. split; [apply lookup_insert_eq|].
  rewrite signed_in_opened, lookup_insert_eq. reflexivity.
Qed.

(** X14.  Signing up leads to the dashboard of the account.  When the form is
    submitted with an identifier that is not blank, on a users table
    whose key is unique, the page shows the dashboard of the trimmed
    identifier and stores it, so that opening the page again shows that
    dashboard; and the dashboard finds the row of the user when it loads
    its data.  For a new account the name shown is the identifier and no
    AI provider is set. *)
Theorem sign_up_opens_the_dashboard (userId : jsstring)
  (now : Index.state * Index.Storage) (db : Db) :
  trim userId <> [] -> key_unique users db ->
  let result := Index.submit userId now db in
  Index.render result.1.1 = Index.DashboardPage (trim userId)
  /\ result.1.2 !! Index.storage_key = Some (trim userId)
  /\ Index.signed_in (Index.opened result.1.2).1 = Some (trim userId)
  /\ exists data,
       DashboardView.loadUserData (trim userId) result.2
       = [eff (supabase (DashboardView.user_data (trim userId))); setUserData data]
       /\ col data "id" = VText (trim userId)
       /\ (~ registered (trim userId) db ->
           DashboardView.welcome_name (Some data) (trim userId) = trim userId
           /\ DashboardView.ai_provider_badge (Some data) = None).
Proof.
  intros Ht Hk result. subst result.
  destruct (handleCreateUser_after userId db Ht Hk) as (Hk' & Hreg' & Hrep & Hnew).
  rewrite (submit_reports userId now db Hrep). cbn [fst snd].
  destruct (step_UserCreated (trim userId) now Ht) as (H1 & H2 & H3).
  split; [exact H1|]. split; [exact H2|]. split; [exact H3|].
  destruct (registered_dec (trim userId) db) as [Hold|Hfresh].
  - destruct Hreg' as (r & Hr & Hid). exists r.
    split; [by apply loadUserData_registered|]. split; [exact Hid|]. by intros ?.
  - destruct (Hnew Hfresh) as (r & Hr & Hid & Hname & Hprov). exists r.
    split; [by apply loadUserData_registered|]. split; [exact Hid|]. intros _.
    unfold DashboardView.welcome_name, DashboardView.ai_provider_badge,
      DashboardView.text_member.
    cbn [mbind option_bind]. rewrite Hname, Hprov. cbn [or_default].
    split; [by destruct (truthy (trim userId))|reflexivity].
Qed.

Lemma sign_up_opens_the_dashboard_witness :
  trim (js " collector ") <> []
  /\ key_unique users sample_db
  /\ let result :=
       Index.submit (js " collector ") (Index.opened ∅) sample_db in
     Index.render result.1.1 = Index.DashboardPage (trim (js " collector "))
     /\ result.1.2 !! Index.storage_key = Some (trim (js " collector "))
     /\ Index.signed_in (Index.opened result.1.2).1 = Some (trim (js " collector "))
     /\ exists data,
          DashboardView.loadUserData (trim (js " collector ")) result.2
          = [eff (supabase (DashboardView.user_data (trim (js " collector "))));
             setUserData data]
          /\ col data "id" = VText (trim (js " collector "))
          /\ (~ registered (trim (js " collector ")) sample_db ->
              DashboardView.welcome_name (Some data) (trim (js " collector "))
              = trim (js " collector ")
              /\ DashboardView.ai_provider_badge (Some data) = None).
Proof.
  assert (trim (js " collector ") <> []) as Ht by discriminate.
  refine (conj Ht (conj (proj1 consistent_sample_db users) _)).
  exact (sign_up_opens_the_dashboard (js " collector ") (Index.opened ∅) sample_db
           Ht (proj1 consistent_sample_db users)).
Defined.

(** X15.  Logging out forgets the user on this browser and keeps the account.
    After a sign-up and a logout the page shows no dashboard and the
    storage names no user, also when the page is opened again; signing up
    again with the same identifier changes nothing in the database and
    shows the dashboard of that user again. *)
Theorem logout_forgets_the_user_and_keeps_the_account (userId : jsstring)
  (now : Index.state * Index.Storage) (db : Db) :
  trim userId <> [] -> key_unique users db ->
  let first := Index.submit userId now db in
  let out := Index.logout first.1 in
  let second := Index.submit userId out first.2 in
  Index.signed_in out.1 = None
  /\ out.2 !! Index.storage_key = None
  /\ Index.signed_in (Index.opened out.2).1 = None
  /\ registered (trim userId) first.2
  /\ second.2 = first.2
  /\ Index.signed_in second.1.1 = Some (trim userId).
Proof.
  intros Ht Hk first out second. subst second out first.
  destruct (handleCreateUser_after userId db Ht Hk) as (Hk' & Hreg' & Hrep & _).
  rewrite (submit_reports userId now db Hrep). cbn [fst snd].
  set (db1 := (UserSetup.handleCreateUser userId db).1) in *.
  set (now1 := Index.step (Index.UserCreated (trim userId)) now).
  assert (Index.signed_in (Index.logout now1).1 = None
          /\ (Index.logout now1).2 !! Index.storage_key = None) as [Hout Hkey].
  { destruct now1 as [st ls]. unfold Index.logout.
    cbn [DashboardView.handleLogout DashboardView.user_changes omap fmap list_fmap
         Index.run foldl Index.step Index.handleUserChange fst snd].
    split; [by rewrite signed_in_currentUser|apply lookup_delete_eq]. }
  split; [exact Hout|]. split; [exact Hkey|].
  split; [by rewrite signed_in_opened, Hkey|]. split; [exact Hreg'|].
  destruct (handleCreateUser_after userId db1 Ht Hk') as (_ & _ & Hrep2 & _).
  rewrite (submit_reports userId _ db1 Hrep2). cbn [fst snd].
  split; [by rewrite (handleCreateUser_registered userId db1 Ht Hk' Hreg')|].
  destruct (step_UserCreated (trim userId) (Index.logout now1) Ht) as (Hpage & _ & _).
  unfold Index.signed_in. by rewrite Hpage.
Qed.

Lemma logout_forgets_the_user_and_keeps_the_account_witness :
  trim (js " collector ") <> []
  /\ key_unique users sample_db
  /\ let first := Index.submit (js " collector ") (Index.opened ∅) sample_db in
     let out := Index.logout first.1 in
     let second := Index.submit (js " collector ") out first.2 in
     Index.signed_in out.1 = None
     /\ out.2 !! Index.storage_key = None
     /\ Index.signed_in (Index.opened out.2).1 = None
     /\ registered (trim (js " collector ")) first.2
     /\ second.2 = first.2
     /\ Index.signed_in second.1.1 = Some (trim (js " collector ")).
Proof.
  assert (trim (js " collector ") <> []) as Ht by discriminate.
  refine (conj Ht (conj (proj1 consistent_sample_db users) _)).
  exact (logout_forgets_the_user_and_keeps_the_account (js " collector ")
           (Index.opened ∅) sample_db Ht (proj1 consistent_sample_db users)).
Defined.

(** ** The provider setup: no key is saved that was not validated *)

(** X18.  Saving validates first.  A request to store a provider key is made
    only after the validation endpoint has answered, in this very call,
    with success and [is_valid] for the same provider and the same key;
    the key sent to both endpoints is the trimmed content of the field,
    and the URL is the provider URL of the user of the component.  With
    no provider selected or a blank key no request is made at all and
    the backend is not touched. *)
Theorem saveProvider_saves_only_a_validated_key {Server : Type}
  (validateAIKey : jsstring -> jsstring -> Server
                   -> Server * response AIProviderSetup.validate_body)
  (setUserAIProvider : jsstring -> jsstring -> jsstring -> Server
                       -> Server * response AIProviderSetup.save_body)
  (toUpperCase : jsstring -> jsstring)
  (userId selectedProvider apiKey : jsstring) (srv : Server) :
  let result :=
    AIProviderSetup.saveProvider validateAIKey setUserAIProvider toUpperCase
      userId selectedProvider apiKey srv in
  let filled := truthy selectedProvider && truthy (trim apiKey) in
  let validation := validateAIKey selectedProvider (trim apiKey) srv in
  let passed := filled && AIProviderSetup.lets_pass validation.2 in
  AIProviderSetup.validations result.2
  = (if filled then [(selectedProvider, trim apiKey)] else [])
  /\ AIProviderSetup.saves result.2
     = (if passed
        then [(apiEndpoints.setUserAIProvider userId, selectedProvider, trim apiKey)]
        else [])
  /\ result.1
     = (if filled
        then if passed
             then (setUserAIProvider (apiEndpoints.setUserAIProvider userId)
                     selectedProvider (trim apiKey) validation.1).1
             else validation.1
        else srv).
Proof.
  intros result filled validation passed. subst result filled validation passed.
  unfold AIProviderSetup.saveProvider, AIProviderSetup.validateApiKey.
  destruct (truthy selectedProvider); [|by cbn].
  destruct (truthy (trim apiKey)); [|by cbn].
  cbn [negb orb andb].
  destruct (validateAIKey selectedProvider (trim apiKey) srv) as [srv1 [ok data|reason]].
  - cbn [fst snd AIProviderSetup.lets_pass].
    destruct (ok && AIProviderSetup.is_valid data); [|by cbn].
    destruct (setUserAIProvider (apiEndpoints.setUserAIProvider userId) selectedProvider
                (trim apiKey) srv1) as [srv2 [[] body|reason]]; by cbn.
  - by cbn.
Qed.

(** X19.  What the user sees of a save.  The parent is told that the setup is
    complete exactly when the save endpoint answered with success, once,
    and then the key field is emptied; in every other case the field
    keeps its content.  Both busy flags are down at the end of every
    call that raised them, whatever the backend did.  One toast is shown
    when nothing is saved, two (the validation and the outcome of the
    save) otherwise. *)
Theorem saveProvider_reports_the_outcome {Server : Type}
  (validateAIKey : jsstring -> jsstring -> Server
                   -> Server * response AIProviderSetup.validate_body)
  (setUserAIProvider : jsstring -> jsstring -> jsstring -> Server
                       -> Server * response AIProviderSetup.save_body)
  (toUpperCase : jsstring -> jsstring)
  (userId selectedProvider apiKey : jsstring) (srv : Server) :
  let result :=
    AIProviderSetup.saveProvider validateAIKey setUserAIProvider toUpperCase
      userId selectedProvider apiKey srv in
  let filled := truthy selectedProvider && truthy (trim apiKey) in
  let validation := validateAIKey selectedProvider (trim apiKey) srv in
  let passed := filled && AIProviderSetup.lets_pass validation.2 in
  let stored :=
    passed
    && AIProviderSetup.saved
         (setUserAIProvider (apiEndpoints.setUserAIProvider userId) selectedProvider
            (trim apiKey) validation.1).2 in
  AIProviderSetup.completions result.2 = (if stored then 1%nat else 0%nat)
  /\ AIProviderSetup.keys_set result.2 = (if stored then [[]] else [])
  /\ AIProviderSetup.isValidating result.2 = (if filled then Some false else None)
  /\ AIProviderSetup.isSaving result.2 = (if passed then Some false else None)
  /\ length (toasts_of result.2) = (if passed then 2%nat else 1%nat).
Proof.
  intros result filled validation passed stored.
  subst result filled validation passed stored.
  unfold AIProviderSetup.saveProvider, AIProviderSetup.validateApiKey.
  destruct (truthy selectedProvider); [|by cbn].
  destruct (truthy (trim apiKey)); [|by cbn].
  cbn [negb orb andb].
  destruct (validateAIKey selectedProvider (trim apiKey) srv) as [srv1 [ok data|reason]].
  - cbn [fst snd AIProviderSetup.lets_pass].
    destruct (ok && AIProviderSetup.is_valid data); [|by cbn].
    destruct (setUserAIProvider (apiEndpoints.setUserAIProvider userId) selectedProvider
                (trim apiKey) srv1) as [srv2 [[] body|reason]]; by cbn.
  - by cbn.
Qed.

(** ** The endpoint table: user ids and file names in paths *)

Lemma app_slash_inj (u u' rest rest' : jsstring) :
  slash ∉ u -> slash ∉ u' ->
  u ++ slash :: rest = u' ++ slash :: rest' -> u = u' /\ rest = rest'.
Proof.
  revert u'. induction u as [|c u IH]; intros [|c' u'] Hu Hu'; cbn [app].
  - by intros [= ->].
  - intros [= <- _]. exfalso. apply Hu'. apply list_elem_of_here.
  - intros [= -> _]. exfalso. apply Hu. apply list_elem_of_here.
  - intros [= -> Heq]. apply not_elem_of_cons in Hu as [_ Hu].
    apply not_elem_of_cons in Hu' as [_ Hu'].
    destruct (IH u' Hu Hu' Heq) as [-> ->]. done.
Qed.

(** X10.  For user ids that contain no slash, the URL of a draft identifies the
    draft: two DELETE requests of [removeDraft] go to the same URL only
    when they are for the same user and the same file. *)
Theorem draft_url_identifies_the_draft (u f u' f' : jsstring) :
  slash ∉ u -> slash ∉ u' ->
  apiEndpoints.deleteDraftImage u f = apiEndpoints.deleteDraftImage u' f' ->
  u = u' /\ f = f'.
Proof.
  intros Hu Hu'. unfold apiEndpoints.deleteDraftImage. intros Heq.
  apply app_inv_head in Heq. apply app_inv_head in Heq.
  change (js "/drafts/") with (slash :: js "drafts/") in Heq.
  cbn [app] in Heq.
  destruct (app_slash_inj u u' _ _ Hu Hu' Heq) as [-> Hrest].
  by apply app_inv_head in Hrest.
Qed.

Lemma draft_url_identifies_the_draft_witness :
  (slash ∉ js "u1") /\ (slash ∉ js "u1")
  /\ (apiEndpoints.deleteDraftImage (js "u1") (js "a.jpg")
      = apiEndpoints.deleteDraftImage (js "u1") (js "a.jpg")
      /\ (js "u1" = js "u1" /\ js "a.jpg" = js "a.jpg")).
Proof.
  assert (slash ∉ js "u1") as Hu.
  { intros H. repeat (apply elem_of_cons in H as [H|H]; [discriminate H|]).
    by apply elem_of_nil in H. }
  refine (conj Hu (conj Hu (conj eq_refl _))).
  exact (draft_url_identifies_the_draft (js "u1") (js "a.jpg") (js "u1") (js "a.jpg")
           Hu Hu eq_refl).
Defined.

(** X11.  A user id goes into the path unencoded, so an id that contains a
    slash reaches into the paths of other endpoints: the user URL of the
    id [u/drafts/f] is the URL of draft [f] of user [u], the user URL of
    [u/drafts] is the drafts URL of [u], and that of [u/ai-provider] is
    the provider URL of [u].  In the same way [removeDraft] for file [g]
    of user [u/drafts/f] makes the request, and has the outcome, of
    [removeDraft] for file [f/drafts/g] of user [u]. *)
Theorem user_id_with_slash_reaches_other_endpoints {Server : Type}
  (deleteDraft : jsstring -> Server -> Server * response unit)
  (u f g : jsstring) (srv : Server) :
  apiEndpoints.deleteUser (u ++ js "/drafts/" ++ f) = apiEndpoints.deleteDraftImage u f
  /\ apiEndpoints.getUser (u ++ js "/drafts") = apiEndpoints.getUserDrafts u
  /\ apiEndpoints.getUser (u ++ js "/ai-provider") = apiEndpoints.getUserAIProvider u
  /\ DraftImages.removeDraft deleteDraft (u ++ js "/drafts/" ++ f) g srv
     = DraftImages.removeDraft deleteDraft u (f ++ js "/drafts/" ++ g) srv.
Proof.
  split; [reflexivity|]. split; [reflexivity|]. split; [reflexivity|].
  unfold DraftImages.removeDraft, apiEndpoints.deleteDraftImage.
  by rewrite <- !app_assoc.
Qed.

(** X6.  A drafts query that is answered with an error status leaves the
    component without drafts, whatever it held before: the list is
    empty, ten slots remain, and the capacity check lets every batch of
    at most ten files through, whatever the backend holds.  A fetch that
    is rejected leaves the list as it was, empty on the first load; an
    answer with a success status replaces it. *)
Theorem error_status_counts_as_no_drafts {Server : Type}
  (up : File -> jsstring -> Server -> Server * fetch_result)
  (userId : jsstring) (held : option (list Draft)) (body : DraftImages.drafts_body)
  (files : list File) (srv : Server) :
  (length files <= 10)%nat ->
  let drafts := DraftImages.drafts_of (DraftImages.settled held (Answered false body)) in
  drafts = []
  /\ DraftImages.remainingSlots drafts = 10%Z
  /\ head (ImageUpload.handleFiles up userId drafts files srv).2 = Some (setUploading true)
  /\ uploads (ImageUpload.handleFiles up userId drafts files srv).2
     = (fun f => (f, Some userId)) <$> accepted files
  /\ (forall reason,
        DraftImages.drafts_of (DraftImages.settled held (Failed reason))
        = DraftImages.drafts_of held)
  /\ (forall reason, DraftImages.drafts_of (DraftImages.settled None (Failed reason)) = [])
  /\ (forall data,
        DraftImages.drafts_of (DraftImages.settled held (Answered true data))
        = default [] (DraftImages.data_drafts data)).
Proof.
  intros Hfiles drafts.
  assert (drafts = []) as -> by reflexivity.
  split; [reflexivity|]. split; [reflexivity|].
  unfold ImageUpload.handleFiles. cbn [length Nat.add].
  destruct (Nat.ltb_spec 10 (length files)) as [Hover|_]; [lia|].
  destruct (uploadAll_trace up userId files srv) as (_ & H2 & _).
  destruct (ImageUpload.uploadAll up userId files srv) as [s t]. cbn [fst snd] in *.
  split; [reflexivity|]. split; [|by repeat split].
  change (uploads (setUploading true :: ?l)) with (uploads l).
  rewrite uploads_app, H2. apply app_nil_r.
Qed.

Lemma error_status_counts_as_no_drafts_witness :
  (length [photo; notes] <= 10)%nat
  /\ let drafts :=
       DraftImages.drafts_of
         (DraftImages.settled (Some (drafts_held 10))
            (Answered false {| DraftImages.data_drafts := None |})) in
     drafts = []
     /\ DraftImages.remainingSlots drafts = 10%Z
     /\ head (ImageUpload.handleFiles keep_draft (js "u1") drafts [photo; notes]
                (staging_held (js "u1") 10)).2
        = Some (setUploading true)
     /\ uploads (ImageUpload.handleFiles keep_draft (js "u1") drafts [photo; notes]
                   (staging_held (js "u1") 10)).2
        = (fun f => (f, Some (js "u1"))) <$> accepted [photo; notes]
     /\ (forall reason,
           DraftImages.drafts_of
             (DraftImages.settled (Some (drafts_held 10)) (Failed reason))
           = DraftImages.drafts_of (Some (drafts_held 10))).
Proof.
  assert (length [photo; notes] <= 10)%nat as Hlen by (vm_compute; lia).
  split; [exact Hlen|].
  destruct (error_status_counts_as_no_drafts keep_draft (js "u1") (Some (drafts_held 10))
              {| DraftImages.data_drafts := None |} [photo; notes]
              (staging_held (js "u1") 10) Hlen)
    as (H1 & H2 & H3 & H4 & H5 & _).
  exact (conj H1 (conj H2 (conj H3 (conj H4 H5)))).
Defined.

(** ** The policies of the setup guide *)

Lemma eval_owner s c r :
  eval_expr s (auth_uid_is c) r = true ->
  exists u, auth_uid s = Some u /\ col r c = VText u.
Proof.
  unfold eval_expr. destruct (auth_uid s) as [u|]; [|done].
  intros H. apply sql_eq_true_eq in H. by exists u.
Qed.

Lemma guide_visible s t r :
  visible guide_policies s SELECT t r = true ->
  exists u, auth_uid s = Some u /\ col r (owner_column t) = VText u.
Proof.
  unfold visible. intros Hv.
  destruct t; cbn [row_level_security negb orb guide_policies existsb] in Hv;
    unfold applies in Hv; cbn [p_table p_command p_using owner_column] in Hv;
    repeat (rewrite bool_decide_eq_false_2 in Hv by discriminate);
    repeat (rewrite bool_decide_eq_true_2 in Hv by reflexivity);
    cbn [andb orb] in Hv; rewrite ?orb_false_r in Hv;
    by apply eval_owner.
Qed.

Lemma guide_check s t r :
  check_passes guide_policies s INSERT t r = true ->
  exists u, auth_uid s = Some u /\ col r (owner_column t) = VText u.
Proof.
  unfold check_passes. intros Hv.
  destruct t; cbn [row_level_security negb orb guide_policies existsb] in Hv;
    unfold applies in Hv;
    cbn [p_table p_command p_using p_with_check owner_column] in Hv;
    repeat (rewrite bool_decide_eq_false_2 in Hv by discriminate);
    repeat (rewrite bool_decide_eq_true_2 in Hv by reflexivity);
    cbn [andb orb] in Hv; rewrite ?orb_false_r in Hv;
    by apply eval_owner.
Qed.

(** X28.  With the policies of the setup guide in place of those of the
    migration, a select returns rows of the one who asks only: every row
    of the result is a row of the table whose owner column ([id] in
    users, [user_id] in listings and ai_usage) is the [auth.uid()] of the
    session.  A session without one, such as the anonymous client of the
    components, is given no row. *)
Theorem guide_policies_show_own_rows_only (s : session) (t : table_name)
  (columns : option (list string)) (eqs : list (string * sqlval))
  (order : option (string * bool)) (db : Db) (data : list row) :
  (exec_with guide_policies s (from_select t columns eqs order) db).2 = Ok data ->
  (forall r', r' ∈ data ->
     exists u r, auth_uid s = Some u /\ r ∈ rows t db /\ r' = project columns r
                 /\ col r (owner_column t) = VText u)
  /\ (auth_uid s = None -> data = []).
Proof.
  unfold exec_with. destruct (unknown_column t _); [done|]. cbn [snd].
  intros [= <-].
  assert (forall r', r' ∈ project columns
                            <$> ordered order
                                  (filter (fun r => visible guide_policies s SELECT t r
                                                    && matches eqs r) (rows t db)) ->
            exists u r, auth_uid s = Some u /\ r ∈ rows t db /\ r' = project columns r
                        /\ col r (owner_column t) = VText u) as Hown.
  { intros r' (r & -> & Hr)%list_elem_of_fmap.
    apply elem_of_ordered, list_elem_of_filter in Hr as [Hv Hr].
    apply Is_true_true, andb_true_iff in Hv as [Hv _].
    destruct (guide_visible s t r Hv) as (u & Hs & Hu).
    exists u, r. exact (conj Hs (conj Hr (conj eq_refl Hu))). }
  split; [exact Hown|].
  intros Hanon.
  destruct (project columns <$> _) as [|r' rest] eqn:Hdata; [reflexivity|].
  destruct (Hown r') as (u & _ & Hs & _); [apply list_elem_of_here|]. congruence.
Qed.

Lemma guide_policies_show_own_rows_only_witness :
  let data :=
    ordered None
      (filter (fun r => visible guide_policies (on_behalf_of (js "u1")) SELECT listings r
                        && matches [] r)
         (rows listings sample_db)) in
  (exec_with guide_policies (on_behalf_of (js "u1")) (from_select listings None [] None)
     sample_db).2 = Ok data
  /\ (forall r', r' ∈ data ->
        exists u r, auth_uid (on_behalf_of (js "u1")) = Some u
                    /\ r ∈ rows listings sample_db /\ r' = project None r
                    /\ col r (owner_column listings) = VText u)
  /\ (auth_uid (on_behalf_of (js "u1")) = None -> data = []).
Proof.
  intros data.
  assert ((exec_with guide_policies (on_behalf_of (js "u1"))
             (from_select listings None [] None) sample_db).2 = Ok data) as Hok.
  { apply (bool_decide_unpack _). vm_compute. exact I. }
  split; [exact Hok|].
  exact (guide_policies_show_own_rows_only (on_behalf_of (js "u1")) listings None [] None
           sample_db data Hok).
Defined.

(** X29.  With the policies of the setup guide an insert is accepted only for
    oneself: a row whose owner column names someone else than the
    [auth.uid()] of the session, or any row when the session has none,
    is turned away and nothing changes. *)
Theorem guide_policies_refuse_rows_for_others (s : session) (t : table_name)
  (values : row) (v : jsstring) (db : Db) :
  values !! owner_column t = Some (VText v) -> auth_uid s <> Some v ->
  exists e, exec_with guide_policies s (from_insert t values) db = (db, Err e).
Proof.
  intros Hv Hs. unfold exec_with, rls_insert.
  destruct (unknown_column t _) as [e|]; [by exists e|].
  destruct (check_passes guide_policies s INSERT t (new_row t values db)) eqn:Hcheck;
    [exfalso|by exists (policy_violation t)].
  destruct (guide_check s t _ Hcheck) as (u & Hu & Hcol).
  assert (col (new_row t values db) (owner_column t) = VText v) as Hv'.
  { destruct t; cbn [owner_column] in *.
    - change "id" with (c_name (PRIMARY_KEY (column_ "id" TEXT))) at 1.
      rewrite col_new_row by apply list_elem_of_here.
      unfold column_value. cbn [c_name PRIMARY_KEY column_]. by rewrite Hv.
    - change "user_id"
        with (c_name (REFERENCES users "id" CASCADE (column_ "user_id" TEXT))) at 1.
      rewrite col_new_row by (apply list_elem_of_further, list_elem_of_here).
      unfold column_value. cbn [c_name REFERENCES column_]. by rewrite Hv.
    - change "user_id"
        with (c_name (REFERENCES users "id" CASCADE (column_ "user_id" TEXT))) at 1.
      rewrite col_new_row by (apply list_elem_of_further, list_elem_of_here).
      unfold column_value. cbn [c_name REFERENCES column_]. by rewrite Hv. }
  congruence.
Qed.

Lemma guide_policies_refuse_rows_for_others_witness :
  ({[ "user_id" := VText (js "u1"); "title" := VText (js "Lamp") ]} : row)
    !! owner_column listings = Some (VText (js "u1"))
  /\ auth_uid anon <> Some (js "u1")
  /\ exists e,
       exec_with guide_policies anon
         (from_insert listings
            {[ "user_id" := VText (js "u1"); "title" := VText (js "Lamp") ]})
         sample_db
       = (sample_db, Err e).
Proof.
  assert (auth_uid anon <> Some (js "u1")) as Hs by discriminate.
  refine (conj eq_refl (conj Hs _)).
  exact (guide_policies_refuse_rows_for_others anon listings
           {[ "user_id" := VText (js "u1"); "title" := VText (js "Lamp") ]}
           (js "u1") sample_db eq_refl Hs).
Defined.

(** ** Column types and NOT NULL as invariants *)

(** X21.  The column types, NOT NULL and PRIMARY KEY are invariants too.  From a
    state in which every stored value has the type of its column and no
    key or NOT NULL column holds NULL, every sequence of requests leads
    to such a state: no insert and no update gets a NULL into [id], into
    the title of a listing or the provider of a usage record, or a value
    of another type into any column. *)
Theorem every_request_keeps_the_rows_well_formed (s : session) (reqs : list request)
  (db : Db) :
  well_formed_rows db ->
  well_formed_rows (exec_all s reqs db)
  /\ (forall t r, r ∈ rows t (exec_all s reqs db) -> col r "id" <> VNull)
  /\ (forall r, r ∈ rows listings (exec_all s reqs db) ->
        exists title, col r "title" = VText title)
  /\ (forall r, r ∈ rows ai_usage (exec_all s reqs db) ->
        exists provider, col r "provider" = VText provider).
Proof.
  intros Hwf.
  assert (well_formed_rows (exec_all s reqs db)) as Hall.
  { unfold exec_all. revert db Hwf.
    induction reqs as [|req reqs IH]; intros db Hdb; [done|].
    simpl. apply IH. by apply well_formed_exec. }
  split; [exact Hall|]. split; [|split].
  - intros t r Hr. destruct (id_column t) as (c & Hc & Hname & Hpk).
    destruct (Hall t c r Hc Hr) as [_ Hnn]. rewrite Hname in Hnn.
    apply Hnn. by rewrite Hpk.
  - intros r Hr.
    destruct (Hall listings (NOT_NULL (column_ "title" TEXT)) r) as [Hty Hnn];
      [do 2 apply list_elem_of_further; apply list_elem_of_here|exact Hr|].
    cbn [c_name c_type c_primary_key c_not_null NOT_NULL column_ orb] in Hty, Hnn.
    destruct (col r "title") as [|title| | | | | |]; try discriminate Hty.
    + by destruct Hnn.
    + by exists title.
  - intros r Hr.
    destruct (Hall ai_usage (NOT_NULL (column_ "provider" TEXT)) r) as [Hty Hnn];
      [do 2 apply list_elem_of_further; apply list_elem_of_here|exact Hr|].
    cbn [c_name c_type c_primary_key c_not_null NOT_NULL column_ orb] in Hty, Hnn.
    destruct (col r "provider") as [|provider| | | | | |]; try discriminate Hty.
    + by destruct Hnn.
    + by exists provider.
Qed.

Lemma every_request_keeps_the_rows_well_formed_witness :
  let reqs :=
    [from_insert users (UserSetup.new_user (js "u1"));
     from_insert listings
       {[ "user_id" := VText (js "u1"); "title" := VText (js "Lamp") ]};
     from_update listings {[ "title" := VNull ]} [("user_id", VText (js "u1"))];
     from_insert listings {[ "title" := VInt 7 ]}] in
  well_formed_rows empty_db
  /\ well_formed_rows (exec_all anon reqs empty_db)
  /\ (forall t r, r ∈ rows t (exec_all anon reqs empty_db) -> col r "id" <> VNull)
  /\ (forall r, r ∈ rows listings (exec_all anon reqs empty_db) ->
        exists title, col r "title" = VText title)
  /\ (forall r, r ∈ rows ai_usage (exec_all anon reqs empty_db) ->
        exists provider, col r "provider" = VText provider).
Proof.
  intros reqs. split; [exact well_formed_empty|].
  exact (every_request_keeps_the_rows_well_formed anon reqs empty_db well_formed_empty).
Defined.

(** ** The capacity check and the drafts list it reads *)

Lemma handleFiles_within {Server : Type}
  (up : File -> jsstring -> Server -> Server * fetch_result)
  (userId : jsstring) (drafts : list Draft) (files : list File) (srv : Server) :
  (length drafts + length files <= 10)%nat ->
  (ImageUpload.handleFiles up userId drafts files srv).1
  = foldl (fun s f => (up f userId s).1) srv (accepted files)
  /\ uploads (ImageUpload.handleFiles up userId drafts files srv).2
     = (fun f => (f, Some userId)) <$> accepted files.
Proof.
  intros Hfits. unfold ImageUpload.handleFiles.
  destruct (Nat.ltb_spec 10 (length drafts + length files)) as [Hover|_]; [lia|].
  destruct (uploadAll_trace up userId files srv) as (H1 & H2 & _).
  destruct (ImageUpload.uploadAll up userId files srv) as [s t]. cbn [fst snd] in *.
  split; [exact H1|].
  change (uploads (setUploading true :: ?l)) with (uploads l).
  rewrite uploads_app, H2. apply app_nil_r.
Qed.

(** X30.  The limit holds for one call, not across calls.  [handleFiles]
    compares the batch with the drafts list that the component holds,
    and that list changes only when the drafts query has been answered
    again.  Two batches handed in on the same list, each of which fits
    on its own, are therefore both let through: the accepted files of
    both are sent, one batch after the other, so that up to twice the
    free slots can be filled before the list is fetched again. *)
Theorem capacity_check_is_made_per_call {Server : Type}
  (up : File -> jsstring -> Server -> Server * fetch_result)
  (userId : jsstring) (drafts : list Draft) (files1 files2 : list File) (srv : Server) :
  (length drafts + length files1 <= 10)%nat ->
  (length drafts + length files2 <= 10)%nat ->
  let first := ImageUpload.handleFiles up userId drafts files1 srv in
  let second := ImageUpload.handleFiles up userId drafts files2 first.1 in
  uploads first.2 ++ uploads second.2
  = (fun f => (f, Some userId)) <$> (accepted files1 ++ accepted files2)
  /\ second.1
     = foldl (fun s f => (up f userId s).1) srv (accepted files1 ++ accepted files2).
Proof.
  intros Hfits1 Hfits2 first second. subst second first.
  destruct (handleFiles_within up userId drafts files1 srv Hfits1) as [Hs1 Hu1].
  destruct (handleFiles_within up userId drafts files2
              (ImageUpload.handleFiles up userId drafts files1 srv).1 Hfits2) as [Hs2 Hu2].
  split.
  - rewrite Hu1, Hu2, fmap_app. reflexivity.
  - rewrite Hs2, Hs1, foldl_app. reflexivity.
Qed.

Lemma capacity_check_is_made_per_call_witness :
  let batch := replicate 5 photo in
  (length (drafts_held 5) + length batch <= 10)%nat
  /\ (10 - length (drafts_held 5)
      < length (accepted batch ++ accepted batch))%nat
  /\ let first :=
       ImageUpload.handleFiles keep_draft (js "u1") (drafts_held 5) batch
         (staging_held (js "u1") 5) in
     let second :=
       ImageUpload.handleFiles keep_draft (js "u1") (drafts_held 5) batch first.1 in
     uploads first.2 ++ uploads second.2
     = (fun f => (f, Some (js "u1"))) <$> (accepted batch ++ accepted batch)
     /\ second.1
        = foldl (fun s f => (keep_draft f (js "u1") s).1) (staging_held (js "u1") 5)
            (accepted batch ++ accepted batch).
Proof.
  intros batch.
  assert (length (drafts_held 5) + length batch <= 10)%nat as Hfits by (vm_compute; lia).
  assert (10 - length (drafts_held 5) < length (accepted batch ++ accepted batch))%nat
    as Hmore by (vm_compute; lia).
  refine (conj Hfits (conj Hmore _)).
  exact (capacity_check_is_made_per_call keep_draft (js "u1") (drafts_held 5) batch batch
           (staging_held (js "u1") 5) Hfits Hfits).
Defined.
